(** * AdobeWork backend: a shallow embedding of its decision logic

    The backend is a set of HTTP handlers around document and image
    libraries.  This development embeds the parts of it that decide
    something: the PDF analysis thresholds, the PDF-to-Word mode dispatch,
    the text replacement of the PDF editor, page splitting, upload
    validation, temp-file cleanup, the hourly sweep and the passport photo
    layout.  Library calls (PyMuPDF, PyPDF2, Pillow, the operating system)
    are either given a small executable model or taken as section
    variables; every use of them is written where the source has it. *)

From Stdlib Require Import ZArith QArith Qround Lia Lqa String Ascii List Bool.
From stdpp Require Import base gmap strings list pretty.
Import ListNotations.
Open Scope string_scope.

(** ** Python values shared by all modules *)

(** Exceptions the embedded code raises or lets through. *)
Inductive exn : Type :=
| HTTPException (status_code : Z) (detail : string)
| ValueError (msg : string)
| IndexError (msg : string)
| ZeroDivisionError
| FileNotFoundError (path : string)
| OSError (msg : string)
| LibraryError (msg : string).

(** The outcome of a call: a returned value or a raised exception. *)
Inductive result (A : Type) : Type :=
| Return (a : A)
| Raise (e : exn).
Arguments Return {A} a.
Arguments Raise {A} e.

#[global] Instance result_ret : MRet result := fun A a => Return a.
#[global] Instance result_bind : MBind result := fun A B k r =>
  match r with
  | Return a => k a
  | Raise e => Raise e
  end.

Definition returns {A : Type} (r : result A) : bool :=
  match r with Return _ => true | Raise _ => false end.

(** The exception is an HTTP error response of the handlers' own. *)
Definition is_http (e : exn) : Prop :=
  match e with HTTPException _ _ => True | _ => False end.

(** ** Python strings and [pathlib] *)
Module PyStr.

(** [s.split(c)] for a one-character separator: never empty. *)
Fixpoint split_on (c : ascii) (s : string) : list string :=
  match s with
  | EmptyString => [EmptyString]
  | String a s' =>
      if Ascii.eqb a c then EmptyString :: split_on c s'
      else match split_on c s' with
           | [] => [String a EmptyString]
           | h :: t => String a h :: t
           end
  end.

(** [sep.join(l)]. *)
Fixpoint join (sep : string) (l : list string) : string :=
  match l with
  | [] => ""
  | [x] => x
  | x :: t => x ++ sep ++ join sep t
  end.

(** [s.rfind(c)], [None] for -1. *)
Fixpoint rfind (c : ascii) (s : string) : option nat :=
  match s with
  | EmptyString => None
  | String a s' =>
      match rfind c s' with
      | Some i => Some (S i)
      | None => if Ascii.eqb a c then Some 0%nat else None
      end
  end.

(** [str.lower] on one character.  File names are held as UTF-8 bytes:
    only the ASCII capitals change, and no byte of a multi-byte character
    is or becomes an ASCII letter, so comparisons of the lowered string
    with an ASCII extension come out as in Python. *)
Definition lower_ascii (a : ascii) : ascii :=
  let n := nat_of_ascii a in
  if (65 <=? n)%nat && (n <=? 90)%nat then ascii_of_nat (n + 32) else a.

Fixpoint lower (s : string) : string :=
  match s with
  | EmptyString => EmptyString
  | String a s' => String (lower_ascii a) (lower s')
  end.

(** [s.lstrip(c)] for one character. *)
Fixpoint lstrip_char (c : ascii) (s : string) : string :=
  match s with
  | String a s' => if Ascii.eqb a c then lstrip_char c s' else s
  | EmptyString => EmptyString
  end.

Definition starts_with_slash (s : string) : bool :=
  match s with
  | String a _ => Ascii.eqb a "/"
  | EmptyString => false
  end.

(** The components [PurePosixPath(s)] keeps: empty ones and "." are
    dropped. *)
Definition kept_component (x : string) : bool :=
  negb (String.eqb x "") && negb (String.eqb x ".").

Definition path_parts (s : string) : list string :=
  filter (fun x => Is_true (kept_component x)) (split_on "/" s).

(** The root of a POSIX path: exactly two leading slashes are kept, any
    other positive number collapses to one. *)
Definition path_root (s : string) : string :=
  match s with
  | String "/" (String "/" (String "/" _)) => "/"
  | String "/" (String "/" _) => "//"
  | String "/" _ => "/"
  | _ => ""
  end.

(** [Path(s).name]. *)
Definition path_name (s : string) : string := List.last (path_parts s) "".

(** [PurePath.suffix] of a name: [i = name.rfind('.')], and the suffix is
    [name[i:]] when [0 < i < len(name) - 1]. *)
Definition name_suffix (name : string) : string :=
  match rfind "." name with
  | Some i =>
      if (0 <? i)%nat && (i <? String.length name - 1)%nat
      then substring i (String.length name - i) name
      else ""
  | None => ""
  end.

Definition name_stem (name : string) : string :=
  match rfind "." name with
  | Some i =>
      if (0 <? i)%nat && (i <? String.length name - 1)%nat
      then substring 0 i name
      else name
  | None => name
  end.

(** [Path(s).suffix] and [Path(s).stem]. *)
Definition path_suffix (s : string) : string := name_suffix (path_name s).
Definition path_stem (s : string) : string := name_stem (path_name s).

(** [str(Path(s))]. *)
Definition path_str (s : string) : string :=
  match path_root s, path_parts s with
  | "", [] => "."
  | r, ps => r ++ join "/" ps
  end.

(** [str(Path(s).with_suffix(suf))]: a path without a name raises
    ValueError. *)
Definition with_suffix (s suf : string) : result string :=
  match List.rev (path_parts s) with
  | [] => Raise (ValueError "has an empty name")
  | name :: rest =>
      Return (path_root s ++ join "/" (List.rev rest ++ [name_stem name ++ suf]))
  end.

Example suffix_simple : path_suffix "report.PDF" = ".PDF".
Proof. reflexivity. Qed.
Example suffix_hidden : path_suffix "dir/.pdf" = "".
Proof. reflexivity. Qed.
Example suffix_trailing_dot : path_suffix "a.pdf." = "".
Proof. reflexivity. Qed.
Example suffix_trailing_slash : path_suffix "a.b/c.tar.gz/" = ".gz".
Proof. reflexivity. Qed.
Example stem_simple : path_stem "uploads/pdf/scan.v2.pdf" = "scan.v2".
Proof. reflexivity. Qed.
Example with_suffix_simple :
  with_suffix "./uploads//pdf/scan.pdf" ".docx" = Return "uploads/pdf/scan.docx".
Proof. reflexivity. Qed.
Example with_suffix_no_name : returns (with_suffix "/" ".docx") = false.
Proof. reflexivity. Qed.

End PyStr.

(** ** The file system the handlers see

    A file is known by the components of its path ([pathlib] and the
    kernel both ignore empty components and "."), relative to the working
    directory of the server.  A file whose [deletable] flag is off is one
    the operating system refuses to unlink (a read-only directory, a file
    still held open on Windows): [os.remove] raises on it. *)
Module OS.

Record file_meta : Type := {
  st_size : Z;
  st_mtime : Q;
  deletable : bool
}.

Abbreviation key := (list string).

Record fs : Type := {
  files : gmap (list string) file_meta;
  dirs : gset (list string)
}.

Definition path_key (p : string) : key :=
  PyStr.path_root p :: PyStr.path_parts p.

Definition lookup_file (k : key) (s : fs) : option file_meta := files s !! k.

Definition key_exists (k : key) (s : fs) : bool :=
  bool_decide (is_Some (files s !! k)) || bool_decide (k ∈ dirs s).

(** [os.path.exists(p)]. *)
Definition os_path_exists (p : string) (s : fs) : bool :=
  key_exists (path_key p) s.

(** [os.remove] on a key: a missing file, a directory and a file the
    system will not let go all raise and leave the file system as it is. *)
Definition remove_key (k : key) (s : fs) : fs * result unit :=
  match files s !! k with
  | Some m =>
      if deletable m
      then ({| files := delete k (files s); dirs := dirs s |}, Return tt)
      else (s, Raise (OSError "Permission denied"))
  | None =>
      if bool_decide (k ∈ dirs s)
      then (s, Raise (OSError "Is a directory"))
      else (s, Raise (FileNotFoundError (PyStr.join "/" k)))
  end.

(** [os.remove(p)]. *)
Definition os_remove (p : string) (s : fs) : fs * result unit :=
  remove_key (path_key p) s.

(** [os.path.getmtime] on a key. *)
Definition getmtime_key (k : key) (s : fs) : result Q :=
  match files s !! k with
  | Some m => Return (st_mtime m)
  | None => Raise (FileNotFoundError (PyStr.join "/" k))
  end.

(** [Path(p).stat().st_size]. *)
Definition stat_size (p : string) (s : fs) : result Z :=
  match files s !! path_key p with
  | Some m => Return (st_size m)
  | None => Raise (FileNotFoundError p)
  end.

(** Writing [size] bytes at [p] at time [now]; the new file can be
    removed again. *)
Definition write_file (p : string) (size : Z) (now : Q) (s : fs) : fs :=
  {| files := <[path_key p := {| st_size := size; st_mtime := now; deletable := true |}]> (files s);
     dirs := dirs s |}.

(** Is [k] a path strictly below the directory [d]? *)
Fixpoint is_prefix (d k : key) : bool :=
  match d, k with
  | [], _ :: _ => true
  | x :: d', y :: k' => String.eqb x y && is_prefix d' k'
  | _, _ => false
  end.

(** The files [os.walk(d)] reaches, as full paths. *)
Definition walk_files (d : key) (s : fs) : list key :=
  filter (fun k => Is_true (is_prefix d k)) (elements (dom (files s))).

End OS.

(** ** app/utils/file.py *)
Module FileUtil.
Import PyStr OS.

Record UploadFile : Type := {
  filename : option string;
  content_size : Z
}.

(** [file.filename or default]. *)
Definition filename_or (file : UploadFile) (default : string) : string :=
  match filename file with
  | Some fn => if String.eqb fn "" then default else fn
  | None => default
  end.

(** [Path(filename).suffix.lower()]. *)
Definition get_file_extension (fname : string) : string :=
  lower (path_suffix fname).

Definition valid_image_extensions : list string :=
  [".png"; ".jpg"; ".jpeg"; ".webp"; ".gif"; ".bmp"; ".tiff"].

(** [ext in l] on strings. *)
Definition str_in (x : string) (l : list string) : bool :=
  existsb (String.eqb x) l.

Definition validate_pdf_file (file : UploadFile) : result unit :=
  match filename file with
  | None => Raise (HTTPException 400 "No filename provided")
  | Some fn =>
      if String.eqb fn "" then Raise (HTTPException 400 "No filename provided")
      else
        let ext := get_file_extension fn in
        if negb (String.eqb ext ".pdf")
        then Raise (HTTPException 400 "File must be a PDF")
        else Return tt
  end.

Definition validate_image_file (file : UploadFile) : result unit :=
  match filename file with
  | None => Raise (HTTPException 400 "No filename provided")
  | Some fn =>
      if String.eqb fn "" then Raise (HTTPException 400 "No filename provided")
      else
        let ext := get_file_extension fn in
        if negb (str_in ext valid_image_extensions)
        then Raise (HTTPException 400
               ("Invalid image format. Supported: " ++ join ", " valid_image_extensions))
        else Return tt
  end.

Definition validate_document_file (file : UploadFile) (allowed : list string)
  : result unit :=
  match filename file with
  | None => Raise (HTTPException 400 "No filename provided")
  | Some fn =>
      if String.eqb fn "" then Raise (HTTPException 400 "No filename provided")
      else
        let ext := get_file_extension fn in
        if negb (str_in ext allowed)
        then Raise (HTTPException 400
               ("Invalid file format. Supported: " ++ join ", " allowed))
        else Return tt
  end.

(** [cleanup_file]: the body of the [try] and the [except Exception: pass]
    around it. *)
Definition cleanup_file (file_path : string) (s : fs) : fs * result unit :=
  let attempt :=
    if os_path_exists file_path s then os_remove file_path s
    else (s, Return tt) in
  match attempt with
  | (s', Return _) => (s', Return tt)
  | (s', Raise _) => (s', Return tt)
  end.

Fixpoint cleanup_files (file_paths : list string) (s : fs) : fs * result unit :=
  match file_paths with
  | [] => (s, Return tt)
  | p :: rest =>
      match cleanup_file p s with
      | (s', Return _) => cleanup_files rest s'
      | (s', Raise e) => (s', Raise e)
      end
  end.

(** The filename is "missing" when [not file.filename]: absent or empty. *)
Definition filename_missing (file : UploadFile) : Prop :=
  filename file = None \/ filename file = Some "".

Example pdf_upper_ok :
  validate_pdf_file {| filename := Some "Report.PDF"; content_size := 10 |} = Return tt.
Proof. reflexivity. Qed.
Example pdf_hidden_rejected :
  validate_pdf_file {| filename := Some ".pdf"; content_size := 10 |}
  = Raise (HTTPException 400 "File must be a PDF").
Proof. reflexivity. Qed.
Example image_jpeg_ok :
  validate_image_file {| filename := Some "a/b/Face.JpEg"; content_size := 1 |} = Return tt.
Proof. reflexivity. Qed.

Lemma str_in_In (x : string) (l : list string) : str_in x l = true <-> In x l.
Proof.
  unfold str_in. rewrite existsb_exists. split.
  - intros (y & Hy & He). apply String.eqb_eq in He. now subst.
  - intros H. exists x. split; [assumption | apply String.eqb_refl].
Qed.

(** C6.  [validate_pdf_file] raises HTTPException(400) exactly when the
    filename is missing or its lower-cased extension is not ".pdf";
    [validate_image_file] raises HTTPException(400) exactly when the
    filename is missing or its lower-cased extension is none of .png, .jpg,
    .jpeg, .webp, .gif, .bmp, .tiff; in every other case each returns
    normally (the validators are pure: they take the upload and return
    nothing), and neither ever raises anything but a 400. *)
Theorem validate_upload_spec (file : UploadFile) :
  ((exists d, validate_pdf_file file = Raise (HTTPException 400 d)) <->
     (filename_missing file \/
      exists fn, filename file = Some fn /\ lower (path_suffix fn) <> ".pdf"))
  /\ (validate_pdf_file file = Return tt \/
      exists d, validate_pdf_file file = Raise (HTTPException 400 d))
  /\ ((exists d, validate_image_file file = Raise (HTTPException 400 d)) <->
     (filename_missing file \/
      exists fn, filename file = Some fn /\
        ~ In (lower (path_suffix fn))
             [".png"; ".jpg"; ".jpeg"; ".webp"; ".gif"; ".bmp"; ".tiff"]))
  /\ (validate_image_file file = Return tt \/
      exists d, validate_image_file file = Raise (HTTPException 400 d)).
Proof.
  unfold validate_pdf_file, validate_image_file, filename_missing, get_file_extension.
  destruct file as [[fn|] sz]; cbn [filename].
  - destruct (String.eqb fn "") eqn:Hfn.
    + apply String.eqb_eq in Hfn. subst fn.
      repeat split; eauto.
    + assert (Hne : fn <> "") by (now apply String.eqb_neq).
      destruct (String.eqb_spec (lower (path_suffix fn)) ".pdf") as [Hp|Hp];
      destruct (str_in (lower (path_suffix fn)) valid_image_extensions) eqn:Hi;
      cbn [negb].
      all: try (apply str_in_In in Hi).
      all: try (assert (Hni : ~ In (lower (path_suffix fn)) valid_image_extensions)
                  by (rewrite <- str_in_In; congruence)).
      all: repeat split; eauto.
      all: try (intros [d Hd]; discriminate).
      all: try (intros [[?|?] | (fn' & Hfn' & Hx)]; try congruence;
                injection Hfn' as <-; contradiction).
  - repeat split; eauto.
Qed.

End FileUtil.

(** ** app/services/pdf/convert.py: [analyze_pdf_type] *)
Module Analyze.
#[local] Open Scope Z_scope.

(** Page text is a Python [str]: a list of code points. *)
Abbreviation pystr := (list N).

(** The characters [str.strip()] removes: those for which Python's
    [str.isspace] holds. *)
Definition is_space (c : N) : bool :=
  ((9 <=? c) && (c <=? 13) || (28 <=? c) && (c <=? 32) || (c =? 133) || (c =? 160)
   || (c =? 5760) || (8192 <=? c) && (c <=? 8202) || (c =? 8232) || (c =? 8233)
   || (c =? 8239) || (c =? 8287) || (c =? 12288))%N.

Fixpoint lstrip (s : pystr) : pystr :=
  match s with
  | c :: s' => if is_space c then lstrip s' else s
  | [] => []
  end.

Definition rstrip (s : pystr) : pystr := rev (lstrip (rev s)).

Definition strip (s : pystr) : pystr := rstrip (lstrip s).

Definition len {A : Type} (l : list A) : Z := Z.of_nat (length l).

(** What the analysis reads of a page: [page.get_text()] and
    [page.get_images()] (one entry per image, here its xref). *)
Record page : Type := {
  get_text : pystr;
  get_images : list Z
}.

(** An opened document: its pages in order; [None] is a page whose
    reading raises. *)
Abbreviation document := (list (option page)).

Record analysis : Type := {
  is_scanned : bool;
  is_complex : bool;
  has_text : bool;
  image_count : Z;
  text_length : Z;
  page_count : Z;
  recommendation : string
}.

(** The dictionary of the [except] branch. *)
Definition analysis_error : analysis :=
  {| is_scanned := false; is_complex := true; has_text := false;
     image_count := 0; text_length := 0; page_count := 0;
     recommendation := "image" |}.

(** The loop over the pages read: the running totals, or [None] as soon
    as a page raises. *)
Fixpoint scan_pages (ps : document) (total_text_length total_images : Z)
  : option (Z * Z) :=
  match ps with
  | [] => Some (total_text_length, total_images)
  | None :: _ => None
  | Some p :: rest =>
      scan_pages rest (total_text_length + len (strip (get_text p)))
                      (total_images + len (get_images p))
  end.

(** The pages the loop visits: [range(min(10, page_count))]. *)
Definition sampled (doc : document) : document :=
  firstn (Nat.min 10%nat (length doc)) doc.

(** [analyze_pdf_type], on what [fitz.open(pdf_path)] gives: [None] when it
    raises. *)
Definition analyze_pdf_type (opened : option document) : analysis :=
  match opened with
  | None => analysis_error
  | Some pdf_doc =>
      let page_count := len pdf_doc in
      match scan_pages (sampled pdf_doc) 0 0 with
      | None => analysis_error
      | Some (total_text_length, total_images) =>
          let has_text := total_text_length >? 100 in
          let has_many_images := total_images >=? page_count in
          let is_scanned := (total_text_length <? 100) && (total_images >? 0) in
          let is_complex := has_text && has_many_images in
          let recommendation :=
            if is_scanned then "ocr"
            else if is_complex then "hybrid"
            else if has_text && negb has_many_images then "text"
            else "image" in
          {| is_scanned := is_scanned; is_complex := is_complex;
             has_text := has_text; image_count := total_images;
             text_length := total_text_length; page_count := page_count;
             recommendation := recommendation |}
      end
  end.

(** [is_image_based_pdf]. *)
Definition is_image_based_pdf (opened : option document) : bool :=
  is_scanned (analyze_pdf_type opened).

(** The quantities the thresholds are stated on: the total stripped text
    length and the total image count of the sampled pages. *)
Definition page_text_length (p : option page) : Z :=
  match p with Some p => len (strip (get_text p)) | None => 0 end.
Definition page_image_count (p : option page) : Z :=
  match p with Some p => len (get_images p) | None => 0 end.
Definition sum_Z (l : list Z) : Z := fold_right Z.add 0 l.
Definition total_text (doc : document) : Z :=
  sum_Z (map page_text_length (sampled doc)).
Definition total_imgs (doc : document) : Z :=
  sum_Z (map page_image_count (sampled doc)).

Definition readable (doc : document) : Prop :=
  Forall (fun p => p <> None) (sampled doc).

(** Sample documents. *)
Definition text_of (s : string) : pystr :=
  map (fun a => N.of_nat (nat_of_ascii a)) (list_ascii_of_string s).
Definition scanned_page : page :=
  {| get_text := text_of "  p. 1 "; get_images := [7] |}.
Definition long_text : pystr := repeat 120%N 150%nat.
Definition exactly_100 : pystr := repeat 120%N 100%nat.

Example strip_both_ends : strip (text_of "	 a b 
") = text_of "a b".
Proof. reflexivity. Qed.
Example scanned_is_ocr :
  recommendation (analyze_pdf_type (Some [Some scanned_page])) = "ocr".
Proof. reflexivity. Qed.
Example text_only_is_text :
  recommendation (analyze_pdf_type
    (Some [Some {| get_text := long_text; get_images := [] |}])) = "text".
Proof. reflexivity. Qed.
Example text_and_image_is_hybrid :
  recommendation (analyze_pdf_type
    (Some [Some {| get_text := long_text; get_images := [3] |}])) = "hybrid".
Proof. reflexivity. Qed.
Example boundary_100_is_image :
  recommendation (analyze_pdf_type
    (Some [Some {| get_text := exactly_100; get_images := [3] |}])) = "image".
Proof. reflexivity. Qed.
Example empty_document_is_image :
  recommendation (analyze_pdf_type (Some [])) = "image".
Proof. reflexivity. Qed.
Example unreadable_is_error : analyze_pdf_type None = analysis_error.
Proof. reflexivity. Qed.
Example page_eleven_is_not_read :
  recommendation (analyze_pdf_type
    (Some (repeat (Some scanned_page) 10%nat ++ [None])%list)) = "ocr".
Proof. reflexivity. Qed.

Lemma scan_pages_totals (ps : document) (t i : Z) :
  Forall (fun p => p <> None) ps ->
  scan_pages ps t i =
  Some (t + sum_Z (map page_text_length ps), i + sum_Z (map page_image_count ps)).
Proof.
  intros H. revert t i. induction H as [|p ps Hp _ IH]; intros t i; cbn.
  - now rewrite !Z.add_0_r.
  - destruct p as [p|]; [|congruence].
    rewrite IH. unfold sum_Z. cbn. f_equal. f_equal; lia.
Qed.

(** On a document that opens and whose sampled pages read, the result is
    computed from the two totals. *)
Lemma analyze_readable (doc : document) :
  readable doc ->
  analyze_pdf_type (Some doc) =
  let L := total_text doc in
  let I := total_imgs doc in
  let n := len doc in
  {| is_scanned := (L <? 100) && (I >? 0);
     is_complex := (L >? 100) && (I >=? n);
     has_text := L >? 100;
     image_count := I; text_length := L; page_count := n;
     recommendation :=
       if (L <? 100) && (I >? 0) then "ocr"
       else if (L >? 100) && (I >=? n) then "hybrid"
       else if (L >? 100) && negb (I >=? n) then "text"
       else "image" |}.
Proof.
  intros H. unfold analyze_pdf_type.
  rewrite (scan_pages_totals _ 0 0 H). reflexivity.
Qed.

(** The thresholds, on a document that opens and whose sampled pages
    read. *)
Lemma readable_thresholds (doc : document) :
  readable doc ->
  let a := analyze_pdf_type (Some doc) in
  let L := total_text doc in
  let I := total_imgs doc in
  let n := len doc in
  (recommendation a = "ocr" <-> (L < 100 /\ I > 0))
  /\ (recommendation a = "hybrid" <->
        (~ (L < 100 /\ I > 0) /\ L > 100 /\ I >= n))
  /\ (recommendation a = "text" <->
        (~ (L < 100 /\ I > 0) /\ ~ (L > 100 /\ I >= n) /\ L > 100 /\ I < n))
  /\ (recommendation a = "image" <->
        (~ (L < 100 /\ I > 0) /\ ~ (L > 100 /\ I >= n) /\ ~ (L > 100 /\ I < n)))
  /\ (L = 100 -> recommendation a = "image")
  /\ has_text a = (L >? 100)
  /\ is_scanned a = ((L <? 100) && (I >? 0))
  /\ is_complex a = (has_text a && (I >=? n))
  /\ text_length a = L /\ image_count a = I /\ page_count a = n.
Proof.
  intros H a L I n. subst a. rewrite (analyze_readable doc H).
  fold L I n. cbn [recommendation has_text is_scanned is_complex text_length
                   image_count page_count].
  clearbody L I n. clear H.
  destruct (Z.ltb_spec L 100) as [H1|H1];
  destruct (Z.gtb_spec I 0) as [H2|H2];
  destruct (Z.gtb_spec L 100) as [H3|H3];
  destruct (Z.geb_spec I n) as [H4|H4]; cbn.
  all: repeat split; try reflexivity; try discriminate; try lia.
  all: try (intros; exfalso; lia).
  all: try (intros (? & ?); exfalso; lia).
  all: try (intros (? & ? & ?); exfalso; lia).
  all: try (intros (? & ? & ? & ?); exfalso; lia).
  all: try (intros (Ha & Hb & Hc); exfalso; first [apply Ha | apply Hb | apply Hc]; lia).
Qed.

(** The loop stops at the first page that raises. *)
Lemma scan_pages_raises (ps : document) (t i : Z) :
  ~ Forall (fun p => p <> None) ps -> scan_pages ps t i = None.
Proof.
  revert t i. induction ps as [|[p|] ps IH]; intros t i H; cbn.
  - exfalso. apply H. constructor.
  - apply IH. intros Hps. apply H. constructor; [discriminate | exact Hps].
  - reflexivity.
Qed.

(** C1, as amended.  For a PDF that opens and whose first
    [min(10, page_count)] pages read, with [L] the total stripped text
    length and [I] the total image count over those pages: the
    recommendation is "ocr" exactly when [L < 100] and [I > 0]; otherwise
    "hybrid" exactly when [L > 100] and [I >= page_count]; otherwise "text"
    exactly when [L > 100] and [I < page_count]; and "image" in every
    remaining case, among them [L = 100]; and [has_text = (L > 100)],
    [is_scanned = (L < 100 and I > 0)], [is_complex = (has_text and
    I >= page_count)].  For a PDF that does not open, or one of whose
    first [min(10, page_count)] pages does not read, the function returns
    the dictionary of its [except] branch: [is_scanned] False, [is_complex]
    True, [has_text] False, both counts and the page count 0, and the
    recommendation "image". *)
Theorem analyze_pdf_type_outcomes (opened : option document) :
  (forall doc,
     opened = Some doc -> readable doc ->
     let a := analyze_pdf_type opened in
     let L := total_text doc in
     let I := total_imgs doc in
     let n := len doc in
     (recommendation a = "ocr" <-> (L < 100 /\ I > 0))
     /\ (recommendation a = "hybrid" <->
           (~ (L < 100 /\ I > 0) /\ L > 100 /\ I >= n))
     /\ (recommendation a = "text" <->
           (~ (L < 100 /\ I > 0) /\ ~ (L > 100 /\ I >= n) /\ L > 100 /\ I < n))
     /\ (recommendation a = "image" <->
           (~ (L < 100 /\ I > 0) /\ ~ (L > 100 /\ I >= n) /\ ~ (L > 100 /\ I < n)))
     /\ (L = 100 -> recommendation a = "image")
     /\ has_text a = (L >? 100)
     /\ is_scanned a = ((L <? 100) && (I >? 0))
     /\ is_complex a = (has_text a && (I >=? n))
     /\ text_length a = L /\ image_count a = I /\ page_count a = n)
  /\ ((opened = None \/ exists doc, opened = Some doc /\ ~ readable doc) ->
      analyze_pdf_type opened
      = {| is_scanned := false; is_complex := true; has_text := false;
           image_count := 0; text_length := 0; page_count := 0;
           recommendation := "image" |}).
Proof.
  split.
  - intros doc -> H. exact (readable_thresholds doc H).
  - intros [->|(doc & -> & H)]; [reflexivity|].
    unfold analyze_pdf_type. now rewrite (scan_pages_raises _ 0 0 H).
Qed.

Lemma analyze_pdf_type_outcomes_witness :
  readable [Some scanned_page] /\
  recommendation (analyze_pdf_type (Some [Some scanned_page])) = "ocr".
Proof.
  assert (R : readable [Some scanned_page]).
  { unfold readable. cbn. repeat constructor; discriminate. }
  split; [exact R|].
  apply (proj1 (proj1 (analyze_pdf_type_outcomes (Some [Some scanned_page]))
                  [Some scanned_page] eq_refl R)).
  vm_compute. split; reflexivity.
Defined.

(** The fallback of the [except] branch does not follow the thresholds: it
    reports a complex document without text. *)
Lemma analyze_error_fields :
  is_complex (analyze_pdf_type None) = true /\
  has_text (analyze_pdf_type None) = false /\
  recommendation (analyze_pdf_type None) = "image".
Proof. repeat split. Qed.

(** C1, the claim as stated, refuted.  A PDF that does not open, and a
    one-page PDF whose page does not read, are analysed as well.  For the
    second one [L = 0], [I = 0] and [page_count = 1], so that
    [has_text and I >= page_count] is False; yet the dictionary returned
    has [is_complex] True with [has_text] False, and its [page_count] is 0.
    For the first one no [I] makes [is_complex = (has_text and
    I >= page_count)] true. *)
Lemma fallback_is_complex_without_text :
  let a := analyze_pdf_type (Some [None]) in
  let b := analyze_pdf_type None in
  total_text [None] = 0 /\ total_imgs [None] = 0 /\ len [@None page] = 1
  /\ has_text a = (total_text [None] >? 100)
  /\ is_complex a = true
  /\ is_complex a <> (has_text a && (total_imgs [None] >=? len [@None page]))
  /\ page_count a <> len [@None page]
  /\ is_complex b = true /\ has_text b = false
  /\ (forall I n, is_complex b <> (has_text b && (I >=? n))).
Proof.
  cbn zeta. repeat split; try reflexivity; try discriminate.
Qed.

End Analyze.

(** ** app/services/pdf/convert.py: [pdf_to_word] and the converters it
    dispatches to *)
Module Convert.
Import PyStr.

(** The functions [pdf_to_word] can enter, with the arguments they get. *)
Inductive call : Type :=
| Pdf2docx (pdf_path output_path : string)
| Advanced (pdf_path output_path : string)
| WithOcr (pdf_path output_path : string)
| HybridMode (pdf_path output_path : string)
| ImageMode (pdf_path output_path : string).

(** A computation that records the converters it enters, in order. *)
Definition traced (A : Type) : Type := (list call * result A)%type.

#[global] Instance traced_ret : MRet traced := fun A a => ([], Return a).
#[global] Instance traced_bind : MBind traced := fun A B k m =>
  match m with
  | (t, Return a) => let (t', r) := k a in (app t t', r)
  | (t, Raise e) => (t, Raise e)
  end.

Definition enter (c : call) : traced unit := ([c], Return tt).
Definition lift {A : Type} (r : result A) : traced A := ([], r).

(** [try: body except Exception: handler]. *)
Definition try_except {A : Type} (body : traced A) (handler : traced A) : traced A :=
  match body with
  | (t, Return a) => (t, Return a)
  | (t, Raise _) => let (t', r) := handler in (app t t', r)
  end.

(** [if output_path is None: output_path = str(Path(pdf_path).with_suffix('.docx'))]. *)
Definition default_output (pdf_path : string) (output_path : option string)
  : result string :=
  match output_path with
  | Some o => Return o
  | None => with_suffix pdf_path ".docx"
  end.

Section Converters.

(** What the libraries do on a given input: [fitz.open], the pdf2docx
    converter ([PDFToDocxConverter(pdf_path)], [convert], [close]) and the
    page-by-page work of each converter of this module, each of which either
    completes or raises. *)
Variable fitz_open : string -> option Analyze.document.
Variable pdf2docx_convert : string -> string -> result unit.
Variable advanced_work : string -> string -> result unit.
Variable ocr_work : string -> string -> result unit.
Variable hybrid_work : string -> string -> result unit.
Variable image_work : string -> string -> result unit.

Definition analyze_pdf_type (pdf_path : string) : Analyze.analysis :=
  Analyze.analyze_pdf_type (fitz_open pdf_path).

Definition is_image_based_pdf (pdf_path : string) : bool :=
  Analyze.is_scanned (analyze_pdf_type pdf_path).

Definition pdf_to_word_image_mode (pdf_path : string) (output_path : option string)
  : traced string :=
  output_path ← lift (default_output pdf_path output_path);
  enter (ImageMode pdf_path output_path);;
  lift (image_work pdf_path output_path);;
  mret output_path.

Definition pdf_to_word_hybrid_mode (pdf_path : string) (output_path : option string)
  : traced string :=
  output_path ← lift (default_output pdf_path output_path);
  enter (HybridMode pdf_path output_path);;
  lift (hybrid_work pdf_path output_path);;
  mret output_path.

Definition pdf_to_word_advanced (pdf_path : string) (output_path : option string)
  : traced string :=
  output_path ← lift (default_output pdf_path output_path);
  enter (Advanced pdf_path output_path);;
  lift (advanced_work pdf_path output_path);;
  mret output_path.

Definition pdf_to_word_with_ocr (pdf_path : string) (output_path : option string)
  : traced string :=
  output_path ← lift (default_output pdf_path output_path);
  enter (WithOcr pdf_path output_path);;
  if is_image_based_pdf pdf_path then
    lift (ocr_work pdf_path output_path);;
    mret output_path
  else
    pdf_to_word_advanced pdf_path (Some output_path).

(** The [try] around the pdf2docx converter, with its fallback. *)
Definition convert_text (pdf_path output_path : string) : traced string :=
  try_except
    (enter (Pdf2docx pdf_path output_path);;
     lift (pdf2docx_convert pdf_path output_path);;
     mret output_path)
    (pdf_to_word_advanced pdf_path (Some output_path)).

Definition pdf_to_word (pdf_path : string) (output_path : option string)
  (mode : string) : traced string :=
  output_path ← lift (default_output pdf_path output_path);
  if String.eqb mode "auto" then
    let analysis := analyze_pdf_type pdf_path in
    let recommendation := Analyze.recommendation analysis in
    if String.eqb recommendation "text" then
      convert_text pdf_path output_path
    else if String.eqb recommendation "ocr" then
      pdf_to_word_with_ocr pdf_path (Some output_path)
    else if String.eqb recommendation "hybrid" then
      pdf_to_word_hybrid_mode pdf_path (Some output_path)
    else
      pdf_to_word_image_mode pdf_path (Some output_path)
  else if String.eqb mode "hybrid" then
    pdf_to_word_hybrid_mode pdf_path (Some output_path)
  else if String.eqb mode "image" then
    pdf_to_word_image_mode pdf_path (Some output_path)
  else if String.eqb mode "ocr" then
    pdf_to_word_with_ocr pdf_path (Some output_path)
  else if String.eqb mode "text" then
    convert_text pdf_path output_path
  else
    pdf_to_word_hybrid_mode pdf_path (Some output_path).

(** The documented choice, in the words of the docstring: what each mode
    selects, [auto] going by the recommendation. *)
Inductive choice : Type :=
| UseText | UseOcr | UseHybrid | UseImage.

Definition documented_choice (mode recommendation : string) : choice :=
  if String.eqb mode "auto" then
    if String.eqb recommendation "text" then UseText
    else if String.eqb recommendation "ocr" then UseOcr
    else if String.eqb recommendation "hybrid" then UseHybrid
    else UseImage
  else if String.eqb mode "hybrid" then UseHybrid
  else if String.eqb mode "image" then UseImage
  else if String.eqb mode "ocr" then UseOcr
  else if String.eqb mode "text" then UseText
  else UseHybrid.

(** What running a choice means: the function entered first, the fallback
    of the text choice, and the value returned. *)
Definition run_choice (c : choice) (pdf_path output_path : string) : traced string :=
  match c with
  | UseText =>
      match pdf2docx_convert pdf_path output_path with
      | Return _ => ([Pdf2docx pdf_path output_path], Return output_path)
      | Raise _ =>
          let (t, r) := pdf_to_word_advanced pdf_path (Some output_path) in
          (Pdf2docx pdf_path output_path :: t, r)
      end
  | UseOcr => pdf_to_word_with_ocr pdf_path (Some output_path)
  | UseHybrid => pdf_to_word_hybrid_mode pdf_path (Some output_path)
  | UseImage => pdf_to_word_image_mode pdf_path (Some output_path)
  end.

(** The first function a choice enters. *)
Definition entry_of (c : choice) (pdf_path output_path : string) : call :=
  match c with
  | UseText => Pdf2docx pdf_path output_path
  | UseOcr => WithOcr pdf_path output_path
  | UseHybrid => HybridMode pdf_path output_path
  | UseImage => ImageMode pdf_path output_path
  end.

(** The library work a choice depends on all completes. *)
Definition work_completes (c : choice) (pdf_path output_path : string) : Prop :=
  match c with
  | UseText =>
      returns (pdf2docx_convert pdf_path output_path) = true \/
      returns (advanced_work pdf_path output_path) = true
  | UseOcr =>
      if is_image_based_pdf pdf_path
      then returns (ocr_work pdf_path output_path) = true
      else returns (advanced_work pdf_path output_path) = true
  | UseHybrid => returns (hybrid_work pdf_path output_path) = true
  | UseImage => returns (image_work pdf_path output_path) = true
  end.

Lemma helper_returns_output (work : string -> string -> result unit)
  (mk : string -> string -> call) (pdf_path out : string) :
  forall v,
    snd (output_path ← lift (default_output pdf_path (Some out));
         enter (mk pdf_path output_path);;
         lift (work pdf_path output_path);;
         mret output_path) = Return v -> v = out.
Proof.
  intros v. cbn. destruct (work pdf_path out); cbn; congruence.
Qed.

Lemma advanced_value (pdf_path out v : string) :
  snd (pdf_to_word_advanced pdf_path (Some out)) = Return v -> v = out.
Proof. apply (helper_returns_output advanced_work Advanced). Qed.

Lemma with_ocr_value (pdf_path out v : string) :
  snd (pdf_to_word_with_ocr pdf_path (Some out)) = Return v -> v = out.
Proof.
  unfold pdf_to_word_with_ocr. cbn.
  destruct (is_image_based_pdf pdf_path); cbn.
  - destruct (ocr_work pdf_path out); cbn; congruence.
  - destruct (advanced_work pdf_path out); cbn; congruence.
Qed.

Lemma run_choice_value (c : choice) (pdf_path out v : string) :
  snd (run_choice c pdf_path out) = Return v -> v = out.
Proof.
  destruct c; cbn [run_choice].
  - destruct (pdf2docx_convert pdf_path out); cbn; [congruence|].
    destruct (advanced_work pdf_path out); cbn; congruence.
  - apply with_ocr_value.
  - apply (helper_returns_output hybrid_work HybridMode).
  - apply (helper_returns_output image_work ImageMode).
Qed.

Lemma run_choice_entry (c : choice) (pdf_path out : string) :
  head (fst (run_choice c pdf_path out)) = Some (entry_of c pdf_path out).
Proof.
  destruct c; cbn.
  - destruct (pdf2docx_convert pdf_path out); cbn; [reflexivity|].
    destruct (advanced_work pdf_path out); reflexivity.
  - destruct (is_image_based_pdf pdf_path); cbn.
    + destruct (ocr_work pdf_path out); reflexivity.
    + destruct (advanced_work pdf_path out); reflexivity.
  - destruct (hybrid_work pdf_path out); reflexivity.
  - destruct (image_work pdf_path out); reflexivity.
Qed.

Lemma run_choice_completes (c : choice) (pdf_path out : string) :
  work_completes c pdf_path out ->
  snd (run_choice c pdf_path out) = Return out.
Proof.
  destruct c; cbn.
  - destruct (pdf2docx_convert pdf_path out); cbn; [reflexivity|].
    intros [H|H]; [discriminate|].
    destruct (advanced_work pdf_path out); [reflexivity | discriminate].
  - destruct (is_image_based_pdf pdf_path); cbn.
    + destruct (ocr_work pdf_path out); [reflexivity | discriminate].
    + destruct (advanced_work pdf_path out); [reflexivity | discriminate].
  - destruct (hybrid_work pdf_path out); [reflexivity | discriminate].
  - destruct (image_work pdf_path out); [reflexivity | discriminate].
Qed.

Lemma convert_text_run (pdf_path out : string) :
  convert_text pdf_path out = run_choice UseText pdf_path out.
Proof.
  unfold convert_text. cbn.
  destruct (pdf2docx_convert pdf_path out); cbn; [reflexivity|].
  destruct (advanced_work pdf_path out); reflexivity.
Qed.

Lemma pdf_to_word_runs_choice (pdf_path : string) (output_path : option string)
  (mode out : string) :
  default_output pdf_path output_path = Return out ->
  pdf_to_word pdf_path output_path mode =
  run_choice
    (documented_choice mode (Analyze.recommendation (analyze_pdf_type pdf_path)))
    pdf_path out.
Proof.
  intros Hout. unfold pdf_to_word, documented_choice. rewrite Hout.
  cbn [lift mbind traced_bind].
  set (body := if String.eqb mode "auto" then _ else _).
  assert (Hb : body = run_choice
     (if String.eqb mode "auto" then
        if String.eqb (Analyze.recommendation (analyze_pdf_type pdf_path)) "text"
        then UseText
        else if String.eqb (Analyze.recommendation (analyze_pdf_type pdf_path)) "ocr"
        then UseOcr
        else if String.eqb (Analyze.recommendation (analyze_pdf_type pdf_path)) "hybrid"
        then UseHybrid else UseImage
      else if String.eqb mode "hybrid" then UseHybrid
      else if String.eqb mode "image" then UseImage
      else if String.eqb mode "ocr" then UseOcr
      else if String.eqb mode "text" then UseText
      else UseHybrid) pdf_path out).
  { subst body.
    repeat match goal with
           | |- context [if ?b then _ else _] => destruct b
           end; try reflexivity; apply convert_text_run. }
  rewrite Hb. now destruct (run_choice _ pdf_path out).
Qed.

(** C2.  [pdf_to_word] dispatches as documented.  With [out] the output
    path (the one given, or the input path with its suffix replaced by
    ".docx"): mode "auto" goes by the recommendation of [analyze_pdf_type]
    ("text": the pdf2docx converter, and [pdf_to_word_advanced] if that
    raises; "ocr": [pdf_to_word_with_ocr]; "hybrid":
    [pdf_to_word_hybrid_mode]; anything else: [pdf_to_word_image_mode]);
    modes "hybrid", "image", "ocr" and "text" select the corresponding
    function; any other mode selects hybrid mode; whatever is returned is
    [out], and [out] is returned whenever the selected converter's work
    completes. *)
Theorem pdf_to_word_dispatch (pdf_path : string) (output_path : option string)
  (mode out : string) :
  default_output pdf_path output_path = Return out ->
  let c := documented_choice mode
             (Analyze.recommendation (analyze_pdf_type pdf_path)) in
  let run := pdf_to_word pdf_path output_path mode in
  run = run_choice c pdf_path out
  /\ head (fst run) = Some (entry_of c pdf_path out)
  /\ (c = UseText -> returns (pdf2docx_convert pdf_path out) = false ->
      fst run = [Pdf2docx pdf_path out; Advanced pdf_path out])
  /\ (forall v, snd run = Return v -> v = out)
  /\ (work_completes c pdf_path out -> snd run = Return out).
Proof.
  intros Hout c run. subst run.
  rewrite (pdf_to_word_runs_choice _ _ _ _ Hout). fold c.
  split; [reflexivity|]. split; [apply run_choice_entry|].
  split; [|split].
  - intros -> Hr. cbn.
    destruct (pdf2docx_convert pdf_path out); [discriminate|]. cbn.
    destruct (advanced_work pdf_path out); reflexivity.
  - intros v. apply run_choice_value.
  - apply run_choice_completes.
Qed.

(** Without a name to put the suffix on, nothing is converted. *)
Lemma pdf_to_word_no_name (pdf_path mode : string) (e : exn) :
  with_suffix pdf_path ".docx" = Raise e ->
  pdf_to_word pdf_path None mode = ([], Raise e).
Proof. intros H. unfold pdf_to_word. cbn. now rewrite H. Qed.

End Converters.

(** A run on concrete libraries: a one-page scan, every converter
    completing. *)
Definition sample_open (_ : string) : option Analyze.document :=
  Some [Some Analyze.scanned_page].
Definition completes (_ _ : string) : result unit := Return tt.
Definition fails (_ _ : string) : result unit := Raise (LibraryError "pdf2docx").

Example auto_scan_uses_ocr :
  pdf_to_word sample_open completes completes completes completes completes
    "uploads/pdf/scan.pdf" None "auto"
  = ([WithOcr "uploads/pdf/scan.pdf" "uploads/pdf/scan.docx"],
     Return "uploads/pdf/scan.docx").
Proof. reflexivity. Qed.

Example text_mode_falls_back :
  pdf_to_word sample_open fails completes completes completes completes
    "a.pdf" (Some "downloads/a.docx") "text"
  = ([Pdf2docx "a.pdf" "downloads/a.docx"; Advanced "a.pdf" "downloads/a.docx"],
     Return "downloads/a.docx").
Proof. reflexivity. Qed.

Example unknown_mode_is_hybrid :
  pdf_to_word sample_open completes completes completes completes completes
    "a.pdf" (Some "o.docx") "fast"
  = ([HybridMode "a.pdf" "o.docx"], Return "o.docx").
Proof. reflexivity. Qed.

Lemma pdf_to_word_dispatch_witness :
  default_output "uploads/pdf/scan.pdf" None = Return "uploads/pdf/scan.docx" /\
  head (fst (pdf_to_word sample_open completes completes completes completes
               completes "uploads/pdf/scan.pdf" None "auto"))
  = Some (WithOcr "uploads/pdf/scan.pdf" "uploads/pdf/scan.docx").
Proof.
  split; [reflexivity|].
  exact (proj1 (proj2 (pdf_to_word_dispatch sample_open completes completes
    completes completes completes "uploads/pdf/scan.pdf" None "auto"
    "uploads/pdf/scan.docx" eq_refl))).
Defined.

End Convert.

(** ** app/services/pdf/editor.py: [PDFEditor.replace_text] and
    [PDFEditor.redact_text] *)
Module Editor.
#[local] Open Scope Z_scope.

(** A [fitz.Rect]. *)
Record rect : Type := { x0 : Q; y0 : Q; x1 : Q; y1 : Q }.

(** A span of [page.get_text("dict")]: the fields the editor reads. *)
Record span : Type := {
  span_text : string;
  span_font : string;
  span_size : Q;
  span_color : Z
}.

Record line : Type := { spans : list span }.

(** A block has type 0 (text, with lines) or 1 (image). *)
Record block : Type := { block_type : Z; lines : list line }.

(** An RGB colour with components in [0, 1]. *)
Abbreviation rgb := (Q * Q * Q)%type.

(** The calls that change the document, as the editor makes them: the page
    number, then the arguments; an argument the call site leaves out is
    [None] and takes the library's default. *)
Inductive event : Type :=
| AddRedactAnnot (page_num : Z) (quad : rect) (fill : option rgb)
| ApplyRedactions (page_num : Z)
| InsertText (page_num : Z) (point : Q * Q) (text : string)
    (fontname : option string) (fontsize : Q) (color : rgb).

(** [needle in haystack]. *)
Fixpoint starts_with (needle haystack : string) : bool :=
  match needle, haystack with
  | EmptyString, _ => true
  | String a n', String b h' => Ascii.eqb a b && starts_with n' h'
  | String _ _, EmptyString => false
  end.

Fixpoint contains (needle haystack : string) : bool :=
  starts_with needle haystack ||
  match haystack with
  | EmptyString => false
  | String _ h' => contains needle h'
  end.

(** The formatting the replacement is given: the three locals
    [font_name], [font_size] and [color]. *)
Record formatting : Type := {
  font_name : string;
  font_size : Q;
  color : rgb
}.

Definition default_formatting : formatting :=
  {| font_name := "helv"; font_size := 12; color := (0, 0, 0)%Q |}.

(** [((c >> 16) / 255, ((c >> 8) & 0xFF) / 255, (c & 0xFF) / 255)]; the
    quotients are the exact ones, of which Python holds the nearest
    doubles. *)
Definition color_of_int (c : Z) : rgb :=
  (inject_Z (Z.shiftr c 16) / 255,
   inject_Z (Z.land (Z.shiftr c 8) 255) / 255,
   inject_Z (Z.land c 255) / 255)%Q.

Definition formatting_of (s : span) : formatting :=
  {| font_name := span_font s; font_size := span_size s;
     color := color_of_int (span_color s) |}.

(** [for span in line["spans"]]: the first span containing [old_text] sets
    the locals, and [break] leaves this loop only. *)
Fixpoint scan_spans (old_text : string) (l : list span) (f : formatting)
  : formatting :=
  match l with
  | [] => f
  | s :: rest =>
      if contains old_text (span_text s) then formatting_of s
      else scan_spans old_text rest f
  end.

(** [for line in block["lines"]]. *)
Definition scan_lines (old_text : string) (ls : list line) (f : formatting)
  : formatting :=
  fold_left (fun f l => scan_spans old_text (spans l) f) ls f.

(** [for block in blocks: if block["type"] == 0: ...]. *)
Definition scan_blocks (old_text : string) (bs : list block) (f : formatting)
  : formatting :=
  fold_left (fun f b => if block_type b =? 0 then scan_lines old_text (lines b) f
                        else f) bs f.

(** [range(n)]. *)
Definition range (n : nat) : list Z := map Z.of_nat (seq 0 n).

Section Library.

(** PyMuPDF, over a document state [D]: the page count, whether
    [doc[page_num]] yields a page (it raises IndexError otherwise), the two
    queries and the three changes. *)
Variable D : Type.
Variable page_count : D -> nat.
Variable has_page : D -> Z -> bool.
Variable search_for : D -> Z -> string -> list rect.
Variable get_text_dict : D -> Z -> list block.
Variable add_redact_annot : D -> Z -> rect -> option rgb -> D.
Variable apply_redactions : D -> Z -> D.
Variable insert_text : D -> Z -> Q * Q -> string -> option string -> Q -> rgb -> D.

(** The editor's state while a method runs: the document, the calls made
    so far (newest last) and the counter. *)
Record run : Type := { doc : D; log : list event; count : Z }.

(** [pages = page_nums if page_nums else range(len(self.doc))]: [None] and
    the empty list are both falsy. *)
Definition selected_pages (page_nums : option (list Z)) (d : D) : list Z :=
  match page_nums with
  | Some (p :: ps) => p :: ps
  | Some [] => range (page_count d)
  | None => range (page_count d)
  end.

(** The body of [for inst in text_instances] in [replace_text]. *)
Definition replace_instance (old_text new_text : string) (page_num : Z)
  (r : run) (inst : rect) : run :=
  let blocks := get_text_dict (doc r) page_num in
  let f := scan_blocks old_text blocks default_formatting in
  let d1 := add_redact_annot (doc r) page_num inst None in
  let d2 := apply_redactions d1 page_num in
  let d3 := insert_text d2 page_num (x0 inst, y1 inst) new_text None
              (font_size f) (color f) in
  {| doc := d3;
     log := (log r ++ [AddRedactAnnot page_num inst None;
                       ApplyRedactions page_num;
                       InsertText page_num (x0 inst, y1 inst) new_text None
                         (font_size f) (color f)])%list;
     count := count r + 1 |}.

(** [for page_num in pages] in [replace_text]; an IndexError ends the
    method with what was done so far left in the document. *)
Fixpoint replace_pages (old_text new_text : string) (pages : list Z) (r : run)
  : run * result unit :=
  match pages with
  | [] => (r, Return tt)
  | page_num :: rest =>
      if has_page (doc r) page_num then
        let text_instances := search_for (doc r) page_num old_text in
        let r' := fold_left (replace_instance old_text new_text page_num)
                    text_instances r in
        replace_pages old_text new_text rest r'
      else (r, Raise (IndexError "page not in document"))
  end.

Definition replace_text (old_text new_text : string)
  (page_nums : option (list Z)) (d : D) : run * result Z :=
  let pages := selected_pages page_nums d in
  match replace_pages old_text new_text pages {| doc := d; log := []; count := 0 |} with
  | (r, Return _) => (r, Return (count r))
  | (r, Raise e) => (r, Raise e)
  end.

(** The body of [for inst in instances] in [redact_text]. *)
Definition redact_instance (fill_color : rgb) (page_num : Z) (r : run)
  (inst : rect) : run :=
  {| doc := add_redact_annot (doc r) page_num inst (Some fill_color);
     log := (log r ++ [AddRedactAnnot page_num inst (Some fill_color)])%list;
     count := count r + 1 |}.

Fixpoint redact_pages (search_text : string) (fill_color : rgb)
  (pages : list Z) (r : run) : run * result unit :=
  match pages with
  | [] => (r, Return tt)
  | page_num :: rest =>
      if has_page (doc r) page_num then
        let instances := search_for (doc r) page_num search_text in
        let r1 := fold_left (redact_instance fill_color page_num) instances r in
        let r2 :=
          match instances with
          | [] => r1
          | _ :: _ =>
              {| doc := apply_redactions (doc r1) page_num;
                 log := (log r1 ++ [ApplyRedactions page_num])%list;
                 count := count r1 |}
          end in
        redact_pages search_text fill_color rest r2
      else (r, Raise (IndexError "page not in document"))
  end.

Definition redact_text (search_text : string) (page_nums : option (list Z))
  (fill_color : rgb) (d : D) : run * result Z :=
  let pages := selected_pages page_nums d in
  match redact_pages search_text fill_color pages
          {| doc := d; log := []; count := 0 |} with
  | (r, Return _) => (r, Return (count r))
  | (r, Raise e) => (r, Raise e)
  end.

(** The font name an [InsertText] call names, if it is one. *)
Definition names_no_font (e : event) : Prop :=
  match e with
  | InsertText _ _ _ fontname _ _ => fontname = None
  | _ => True
  end.

(** Every step of [replace_text] adds its three calls to the log, and none
    of the [insert_text] calls names a font. *)
Lemma replace_instance_no_font (old_text new_text : string) (page_num : Z)
  (r : run) (inst : rect) :
  Forall names_no_font (log r) ->
  Forall names_no_font (log (replace_instance old_text new_text page_num r inst)).
Proof.
  intros H. cbn. apply Forall_app. split; [exact H|].
  repeat constructor.
Qed.

Lemma replace_instances_no_font (old_text new_text : string) (page_num : Z)
  (insts : list rect) (r : run) :
  Forall names_no_font (log r) ->
  Forall names_no_font
    (log (fold_left (replace_instance old_text new_text page_num) insts r)).
Proof.
  revert r. induction insts as [|i insts IH]; intros r H; cbn; [exact H|].
  apply IH. now apply replace_instance_no_font.
Qed.

Lemma replace_pages_no_font (old_text new_text : string) (pages : list Z)
  (r : run) :
  Forall names_no_font (log r) ->
  Forall names_no_font (log (fst (replace_pages old_text new_text pages r))).
Proof.
  revert r. induction pages as [|p pages IH]; intros r H; cbn; [exact H|].
  destruct (has_page (doc r) p); cbn; [|exact H].
  apply IH. now apply replace_instances_no_font.
Qed.

(** Whatever the document and the pages, [replace_text] never passes a
    font name to [insert_text]: the replacement is set in the library's
    default font. *)
Lemma replace_text_never_names_font (old_text new_text : string)
  (page_nums : option (list Z)) (d : D) :
  Forall names_no_font (log (fst (replace_text old_text new_text page_nums d))).
Proof.
  unfold replace_text.
  pose proof (replace_pages_no_font old_text new_text
                (selected_pages page_nums d)
                {| doc := d; log := []; count := 0 |} (List.Forall_nil _)) as H.
  destruct (replace_pages _ _ _ _) as [r [u|e]]; exact H.
Qed.

(** The counter goes up by one per occurrence handled. *)
Lemma replace_instances_count (old_text new_text : string) (page_num : Z)
  (insts : list rect) (r : run) :
  count (fold_left (replace_instance old_text new_text page_num) insts r)
  = count r + Z.of_nat (length insts).
Proof.
  revert r. induction insts as [|i insts IH]; intros r.
  - cbn. lia.
  - cbn [fold_left length]. rewrite IH. cbn [replace_instance count]. lia.
Qed.


End Library.

Arguments doc {D} _.
Arguments log {D} _.
Arguments count {D} _.

(** A stand-in for the library that answers the two queries from a table
    and leaves the document as it is. *)
Record mock_page : Type := {
  mock_blocks : list block;
  mock_hits : string -> list rect
}.

Definition mock_doc : Type := list mock_page.

Definition mock_page_count (d : mock_doc) : nat := length d.
Definition mock_has_page (d : mock_doc) (n : Z) : bool :=
  (0 <=? n) && (n <? Z.of_nat (length d)).
Definition mock_search_for (d : mock_doc) (n : Z) (needle : string) : list rect :=
  match nth_error d (Z.to_nat n) with
  | Some p => mock_hits p needle
  | None => []
  end.
Definition mock_get_text_dict (d : mock_doc) (n : Z) : list block :=
  match nth_error d (Z.to_nat n) with
  | Some p => mock_blocks p
  | None => []
  end.
Definition mock_add_redact_annot (d : mock_doc) (_ : Z) (_ : rect) (_ : option rgb)
  : mock_doc := d.
Definition mock_apply_redactions (d : mock_doc) (_ : Z) : mock_doc := d.
Definition mock_insert_text (d : mock_doc) (_ : Z) (_ : Q * Q) (_ : string)
  (_ : option string) (_ : Q) (_ : rgb) : mock_doc := d.

Definition mock_replace_text :=
  replace_text mock_doc mock_page_count mock_has_page mock_search_for
    mock_get_text_dict mock_add_redact_annot mock_apply_redactions
    mock_insert_text.

Definition mock_redact_text :=
  redact_text mock_doc mock_page_count mock_has_page mock_search_for
    mock_add_redact_annot mock_apply_redactions.

(** A page with the word "Hello" set in 14 pt red Times. *)
Definition hello_box : rect := {| x0 := 72; y0 := 100; x1 := 110; y1 := 114 |}.
Definition hello_span : span :=
  {| span_text := "Hello world"; span_font := "Times-Roman";
     span_size := 14; span_color := 16711680 |}.
Definition hello_page : mock_page :=
  {| mock_blocks := [{| block_type := 0; lines := [{| spans := [hello_span] |}] |}];
     mock_hits := fun needle => if String.eqb needle "Hello" then [hello_box] else [] |}.

(** A page where "Hello" occurs twice, in two lines of different size. *)
Definition title_box : rect := {| x0 := 72; y0 := 40; x1 := 200; y1 := 70 |}.
Definition title_span : span :=
  {| span_text := "Hello"; span_font := "Helvetica-Bold";
     span_size := 30; span_color := 0 |}.
Definition two_hello_page : mock_page :=
  {| mock_blocks := [{| block_type := 0;
                        lines := [{| spans := [title_span] |};
                                  {| spans := [hello_span] |}] |}];
     mock_hits := fun needle =>
       if String.eqb needle "Hello" then [title_box; hello_box] else [] |}.

(** C3, at the failing input.  Replacing "Hello" on the page above redacts
    the box and inserts "Bye" at its lower-left corner in the span's size
    and colour, but without a font name: the span is set in Times-Roman and
    the replacement in the library's default font. *)
Theorem replace_text_drops_font_name :
  span_font hello_span = "Times-Roman"
  /\ log (fst (mock_replace_text "Hello" "Bye" None [hello_page]))
     = [AddRedactAnnot 0 hello_box None;
        ApplyRedactions 0;
        InsertText 0 (x0 hello_box, y1 hello_box) "Bye" None
          (span_size hello_span) (color_of_int (span_color hello_span))]
  /\ snd (mock_replace_text "Hello" "Bye" None [hello_page]) = Return 1.
Proof. repeat split. Qed.

(** With two occurrences in differently set lines, both replacements take
    the formatting of the last line that contains the text. *)
Example replace_text_uses_last_matching_line :
  log (fst (mock_replace_text "Hello" "Bye" None [two_hello_page]))
  = [AddRedactAnnot 0 title_box None;
     ApplyRedactions 0;
     InsertText 0 (x0 title_box, y1 title_box) "Bye" None
       (span_size hello_span) (color_of_int (span_color hello_span));
     AddRedactAnnot 0 hello_box None;
     ApplyRedactions 0;
     InsertText 0 (x0 hello_box, y1 hello_box) "Bye" None
       (span_size hello_span) (color_of_int (span_color hello_span))].
Proof. reflexivity. Qed.

Example redact_empty_list_all_pages :
  mock_redact_text "Hello" (Some []) (0, 0, 0)%Q [hello_page; hello_page]
  = mock_redact_text "Hello" None (0, 0, 0)%Q [hello_page; hello_page]
  /\ snd (mock_redact_text "Hello" (Some []) (0, 0, 0)%Q [hello_page; hello_page])
     = Return 2.
Proof. split; reflexivity. Qed.

End Editor.

(** ** app/services/pdf/operations.py: [split_pdf] *)
Module Split.
#[local] Open Scope Z_scope.

(** [str(n)] for an integer. *)
Definition digit_char (d : N) : ascii := ascii_of_N (48 + d).

Fixpoint digits (fuel : nat) (n : N) (acc : string) : string :=
  match fuel with
  | O => acc
  | S fuel' =>
      let acc' := String (digit_char (n mod 10)) acc in
      if (n <? 10)%N then acc' else digits fuel' (n / 10) acc'
  end.

Definition str_of_N (n : N) : string := digits (S (N.to_nat (N.log2 n))) n "".

Definition str_of_Z (z : Z) : string :=
  if z <? 0 then String "-" (str_of_N (Z.abs_N z)) else str_of_N (Z.to_N z).

(** [range(a, b)]. *)
Definition py_range (a b : Z) : list Z :=
  map (fun k => a + Z.of_nat k) (seq 0 (Z.to_nat (b - a))).

(** [l[i]] with Python's indexing: a negative index counts from the end,
    and an index outside the list raises IndexError. *)
Definition py_getitem {A : Type} (l : list A) (i : Z) : result A :=
  let n := Z.of_nat (length l) in
  let j := if i <? 0 then n + i else i in
  if (j <? 0) || (n <=? j) then Raise (IndexError "sequence index out of range")
  else match nth_error l (Z.to_nat j) with
       | Some x => Return x
       | None => Raise (IndexError "sequence index out of range")
       end.

(** [for i in idx: writer.add_page(reader.pages[i])]. *)
Fixpoint add_pages {A : Type} (pages : list A) (idx : list Z) : result (list A) :=
  match idx with
  | [] => Return []
  | i :: rest =>
      p ← py_getitem pages i;
      ps ← add_pages pages rest;
      mret (p :: ps)
  end.

(** An optional integer is truthy when it is given and not zero. *)
Definition truthy_int (o : option Z) : bool :=
  match o with Some z => negb (z =? 0) | None => false end.

(** An optional list is truthy when it is given and not empty. *)
Definition truthy_list {A : Type} (o : option (list A)) : bool :=
  match o with Some (_ :: _) => true | _ => false end.

Definition in_document (total_pages page_num : Z) : bool :=
  (1 <=? page_num) && (page_num <=? total_pages).

(** The loop of mode "all": one output per page, named by the page's
    number. *)
Fixpoint split_each {A : Type} (reader_pages : list A) (output_dir base_name : string)
  (idx : list Z) : result (list (string * list A)) :=
  match idx with
  | [] => Return []
  | i :: rest =>
      p ← py_getitem reader_pages i;
      more ← split_each reader_pages output_dir base_name rest;
      mret ((output_dir ++ "/" ++ base_name ++ "_page_" ++ str_of_Z (i + 1) ++ ".pdf",
             [p]) :: more)
  end.

(** What [split_pdf] writes, in order: each output path with the pages put
    into it.  [reader_pages] is [PdfReader(pdf_path).pages]. *)
Definition split_pdf {A : Type} (reader_pages : list A) (pdf_path output_dir : string)
  (mode : string) (start_page end_page : option Z) (pages : option (list Z))
  : result (list (string * list A)) :=
  let total_pages := Z.of_nat (length reader_pages) in
  let base_name := PyStr.path_stem pdf_path in
  if String.eqb mode "all" then
    split_each reader_pages output_dir base_name (py_range 0 total_pages)
  else if String.eqb mode "range" && truthy_int start_page && truthy_int end_page then
    let start_page := default 0 start_page in
    let end_page := default 0 end_page in
    written ← add_pages reader_pages
                (py_range (start_page - 1) (Z.min end_page total_pages));
    mret [(output_dir ++ "/" ++ base_name ++ "_pages_" ++ str_of_Z start_page
             ++ "-" ++ str_of_Z end_page ++ ".pdf", written)]
  else if String.eqb mode "extract" && truthy_list pages then
    let pages := default [] pages in
    written ← add_pages reader_pages
                (map (fun page_num => page_num - 1)
                     (filter (fun page_num => Is_true (in_document total_pages page_num))
                             pages));
    let pages_str := PyStr.join "_" (map str_of_Z (firstn 5 pages)) in
    let pages_str := if (5 <? Z.of_nat (length pages)) then pages_str ++ "_etc"
                     else pages_str in
    mret [(output_dir ++ "/" ++ base_name ++ "_extracted_" ++ pages_str ++ ".pdf",
           written)]
  else mret [].

(** The pages of [pages] that lie in the document, in the order asked
    for: what an "extract" split keeps. *)
Definition pages_kept {A : Type} (reader_pages : list A) (pages : list Z) : list A :=
  flat_map (fun page_num =>
              if in_document (Z.of_nat (length reader_pages)) page_num
              then match nth_error reader_pages (Z.to_nat (page_num - 1)) with
                   | Some p => [p]
                   | None => []
                   end
              else []) pages.

(** The name of the output of an "extract" split. *)
Definition extract_name (pages : list Z) : string :=
  let pages_str := PyStr.join "_" (map str_of_Z (firstn 5 pages)) in
  if (5 <? Z.of_nat (length pages)) then pages_str ++ "_etc" else pages_str.

Example str_of_Z_examples :
  str_of_Z 0 = "0" /\ str_of_Z 1700000000 = "1700000000" /\ str_of_Z (-12) = "-12".
Proof. repeat split. Qed.

Example split_range_clamps :
  split_pdf ["p1"; "p2"; "p3"] "uploads/split/doc_1_ab.pdf" "out" "range"
    (Some 2) (Some 5) None
  = Return [("out/doc_1_ab_pages_2-5.pdf", ["p2"; "p3"])].
Proof. reflexivity. Qed.

Example split_extract_skips :
  split_pdf ["p1"; "p2"; "p3"] "doc.pdf" "out" "extract" None None
    (Some [3; 7; 0; 1])
  = Return [("out/doc_extracted_3_7_0_1.pdf", ["p3"; "p1"])].
Proof. reflexivity. Qed.

Example split_all :
  split_pdf ["p1"; "p2"] "doc.pdf" "out" "all" None None None
  = Return [("out/doc_page_1.pdf", ["p1"]); ("out/doc_page_2.pdf", ["p2"])].
Proof. reflexivity. Qed.

Example split_range_start_zero_writes_nothing :
  split_pdf ["p1"; "p2"] "doc.pdf" "out" "range" (Some 0) (Some 2) None = Return [].
Proof. reflexivity. Qed.

Lemma py_range_cons (a b : Z) :
  a < b -> py_range a b = a :: py_range (a + 1) b.
Proof.
  intros H. unfold py_range.
  replace (Z.to_nat (b - a)) with (S (Z.to_nat (b - (a + 1)))) by lia.
  cbn [seq map]. f_equal; [lia|].
  rewrite <- seq_shift, map_map. apply map_ext. intros k. lia.
Qed.

Lemma py_range_empty (a b : Z) : b <= a -> py_range a b = [].
Proof.
  intros H. unfold py_range. replace (Z.to_nat (b - a)) with 0%nat by lia.
  reflexivity.
Qed.

Lemma py_getitem_in_range {A : Type} (l : list A) (i : Z) (x : A) :
  0 <= i -> nth_error l (Z.to_nat i) = Some x -> py_getitem l i = Return x.
Proof.
  intros Hi Hx. unfold py_getitem.
  assert (Hlt : (Z.to_nat i < length l)%nat)
    by (apply nth_error_Some; congruence).
  destruct (Z.ltb_spec i 0); [lia|].
  destruct (Z.ltb_spec i 0); [lia|].
  destruct (Z.leb_spec (Z.of_nat (length l)) i); [lia|].
  cbn. now rewrite Hx.
Qed.

(** Adding the pages [a .. a + k - 1] of a document that has them. *)
Lemma add_pages_range {A : Type} (l : list A) (k : nat) (a : Z) :
  0 <= a -> a + Z.of_nat k <= Z.of_nat (length l) ->
  add_pages l (py_range a (a + Z.of_nat k))
  = Return (firstn k (skipn (Z.to_nat a) l)).
Proof.
  revert a. induction k as [|k IH]; intros a Ha Hb.
  - rewrite py_range_empty by lia. reflexivity.
  - rewrite py_range_cons by lia. cbn [add_pages].
    destruct (nth_error l (Z.to_nat a)) as [x|] eqn:Hx.
    2:{ apply nth_error_None in Hx. lia. }
    rewrite (py_getitem_in_range l a x Ha Hx).
    replace (a + Z.of_nat (S k)) with ((a + 1) + Z.of_nat k) by lia.
    cbn [mbind result_bind].
    rewrite IH by lia. cbn [mbind result_bind mret result_ret].
    replace (Z.to_nat (a + 1)) with (S (Z.to_nat a)) by lia.
    f_equal.
    assert (Hd : skipn (Z.to_nat a) l = x :: skipn (S (Z.to_nat a)) l).
    { clear -Hx. revert Hx. generalize (Z.to_nat a) as n.
      induction l as [|y l IHl]; intros [|n] H; try discriminate.
      - cbn in H. injection H as ->. reflexivity.
      - cbn in H. cbn [skipn]. now apply IHl. }
    rewrite Hd. reflexivity.
Qed.

(** A range whose end lies beyond the document is cut at its last page. *)
Lemma add_pages_clamped {A : Type} (l : list A) (start_page end_page : Z) :
  1 <= start_page -> Z.of_nat (length l) < end_page ->
  add_pages l (py_range (start_page - 1) (Z.min end_page (Z.of_nat (length l))))
  = Return (skipn (Z.to_nat (start_page - 1)) l).
Proof.
  intros Hs He. rewrite Z.min_r by lia.
  destruct (Z.le_gt_cases (start_page - 1) (Z.of_nat (length l))) as [Hin|Hout].
  - replace (Z.of_nat (length l))
      with ((start_page - 1) + Z.of_nat (length l - Z.to_nat (start_page - 1))) at 1
      by lia.
    rewrite add_pages_range by lia. f_equal.
    apply firstn_all2. rewrite length_skipn. lia.
  - rewrite py_range_empty by lia. cbn.
    rewrite skipn_all2 by lia. reflexivity.
Qed.

(** The pages an "extract" split adds are those in the document. *)
Lemma add_pages_in_document {A : Type} (l : list A) (pages : list Z) :
  add_pages l (map (fun page_num => page_num - 1)
                 (filter (fun page_num =>
                            Is_true (in_document (Z.of_nat (length l)) page_num))
                         pages))
  = Return (pages_kept l pages).
Proof.
  induction pages as [|p pages IH]; [reflexivity|].
  unfold pages_kept. cbn [flat_map]. fold (pages_kept l pages).
  rewrite filter_cons.
  destruct (in_document (Z.of_nat (length l)) p) eqn:Hp.
  - destruct (decide (Is_true true)) as [_|n]; [|exfalso; apply n; exact I].
    cbn [map add_pages].
    unfold in_document in Hp. apply andb_true_iff in Hp as [H1 H2].
    apply Z.leb_le in H1, H2.
    destruct (nth_error l (Z.to_nat (p - 1))) as [x|] eqn:Hx.
    2:{ apply nth_error_None in Hx. lia. }
    rewrite (py_getitem_in_range l (p - 1) x) by (lia || assumption).
    cbn [mbind result_bind]. rewrite IH. reflexivity.
  - destruct (decide (Is_true false)) as [n|_]; [destruct n|].
    exact IH.
Qed.

(** Out-of-range page values in [split_pdf]: a "range" split from
    [start_page >= 1] whose [end_page] lies beyond the document returns
    normally, with one output that holds the pages from [start_page] to the
    last one; an "extract" split of a non-empty page list returns normally,
    with one output that holds the listed pages that lie in
    [1 .. total_pages], in the order listed, the others being skipped. *)
Lemma split_pdf_clamps {A : Type} (reader_pages : list A)
  (pdf_path output_dir : string) (start_page end_page : Z)
  (s e : option Z) (ps : option (list Z)) (pages : list Z) :
  (1 <= start_page -> Z.of_nat (length reader_pages) < end_page ->
   split_pdf reader_pages pdf_path output_dir "range"
     (Some start_page) (Some end_page) ps
   = Return [(output_dir ++ "/" ++ PyStr.path_stem pdf_path ++ "_pages_"
                ++ str_of_Z start_page ++ "-" ++ str_of_Z end_page ++ ".pdf",
              skipn (Z.to_nat (start_page - 1)) reader_pages)])
  /\ (pages <> [] ->
      split_pdf reader_pages pdf_path output_dir "extract" s e (Some pages)
      = Return [(output_dir ++ "/" ++ PyStr.path_stem pdf_path ++ "_extracted_"
                   ++ extract_name pages ++ ".pdf",
                 pages_kept reader_pages pages)]).
Proof.
  split.
  - intros Hs He. unfold split_pdf. cbn [String.eqb Ascii.eqb Bool.eqb andb].
    unfold truthy_int.
    destruct (Z.eqb_spec start_page 0); [lia|].
    destruct (Z.eqb_spec end_page 0); [lia|].
    cbn [negb andb default].
    rewrite add_pages_clamped by assumption. reflexivity.
  - intros Hne. unfold split_pdf. cbn [String.eqb Ascii.eqb Bool.eqb andb].
    destruct pages as [|p pages]; [congruence|].
    cbn [truthy_list andb default].
    rewrite add_pages_in_document. reflexivity.
Qed.

(** [split_pdf] raises nothing but the IndexError of a page lookup. *)
Lemma py_getitem_error {A : Type} (l : list A) (i : Z) (e : exn) :
  py_getitem l i = Raise e -> ~ is_http e.
Proof.
  unfold py_getitem. destruct (_ || _); [intros [= <-]; exact id|].
  destruct (nth_error _ _); [discriminate | intros [= <-]; exact id].
Qed.

Lemma add_pages_error {A : Type} (l : list A) (idx : list Z) (e : exn) :
  add_pages l idx = Raise e -> ~ is_http e.
Proof.
  induction idx as [|i idx IH]; cbn [add_pages]; [discriminate|].
  destruct (py_getitem l i) as [p|e'] eqn:Hp; cbn [mbind result_bind].
  - destruct (add_pages l idx) as [ps|e'']; cbn [mbind result_bind];
      [discriminate|].
    intros [= <-]. now apply IH.
  - intros [= <-]. now apply (py_getitem_error l i).
Qed.

Lemma split_each_error {A : Type} (l : list A) (output_dir base_name : string)
  (idx : list Z) (e : exn) :
  split_each l output_dir base_name idx = Raise e -> ~ is_http e.
Proof.
  induction idx as [|i idx IH]; cbn [split_each]; [discriminate|].
  destruct (py_getitem l i) as [p|e'] eqn:Hp; cbn [mbind result_bind].
  - destruct (split_each l output_dir base_name idx) as [ps|e''];
      cbn [mbind result_bind]; [discriminate|].
    intros [= <-]. now apply IH.
  - intros [= <-]. now apply (py_getitem_error l i).
Qed.

Lemma split_pdf_error {A : Type} (reader_pages : list A)
  (pdf_path output_dir mode : string) (s e : option Z) (ps : option (list Z))
  (err : exn) :
  split_pdf reader_pages pdf_path output_dir mode s e ps = Raise err ->
  ~ is_http err.
Proof.
  unfold split_pdf.
  destruct (String.eqb mode "all"); [apply split_each_error|].
  destruct (_ && _).
  - destruct (add_pages _ _) as [w|e'] eqn:Ha; cbn [mbind result_bind];
      [discriminate|].
    intros [= <-]. now apply add_pages_error in Ha.
  - destruct (_ && _); [|discriminate].
    destruct (add_pages _ _) as [w|e'] eqn:Ha; cbn [mbind result_bind];
      [discriminate|].
    intros [= <-]. now apply add_pages_error in Ha.
Qed.

End Split.

(** ** app/api/v1: the request handlers *)
Module Api.
Import PyStr OS FileUtil.
#[local] Open Scope Z_scope.

(** JSON values of the responses. *)
#[warnings="-register-all"]
Inductive json : Type :=
| JNull
| JBool (b : bool)
| JInt (z : Z)
| JFloat (q : Q)
| JStr (s : string)
| JList (l : list json)
| JObj (fields : list (string * json)).

(** [obj[k]] on a JSON object. *)
Fixpoint assoc (k : string) (fields : list (string * json)) : option json :=
  match fields with
  | [] => None
  | (k', v) :: rest => if String.eqb k k' then Some v else assoc k rest
  end.

Definition field (k : string) (j : json) : option json :=
  match j with JObj fields => assoc k fields | _ => None end.

(** The settings of app/config.py. *)
Definition UPLOAD_DIR : string := "./uploads".
Definition DOWNLOAD_DIR : string := "./downloads".

(** What a request can see change: the file system, how many times the
    clock was read and how many UUIDs were drawn. *)
Record world : Type := {
  w_fs : fs;
  w_ticks : nat;
  w_uuids : nat
}.

Definition set_fs (s : fs) (w : world) : world :=
  {| w_fs := s; w_ticks := w_ticks w; w_uuids := w_uuids w |}.

(** A handler step: it may change the world, and returns or raises. *)
Definition io (A : Type) : Type := world -> world * result A.

#[global] Instance io_ret : MRet io := fun A a w => (w, Return a).
#[global] Instance io_bind : MBind io := fun A B k m w =>
  match m w with
  | (w', Return a) => k a w'
  | (w', Raise e) => (w', Raise e)
  end.

Definition lift {A : Type} (r : result A) : io A := fun w => (w, r).

(** [try: body finally: final]: [final] runs however [body] ends; if it
    raises, its exception is the one that leaves. *)
Definition try_finally {A : Type} (body : io A) (final : io unit) : io A :=
  fun w =>
    let (w1, r) := body w in
    match final w1 with
    | (w2, Return _) => (w2, r)
    | (w2, Raise e) => (w2, Raise e)
    end.

(** [int(x)] on a float: truncation towards zero. *)
Definition int_of_float (q : Q) : Z := Z.quot (Qnum q) (Zpos (Qden q)).

(** Eight hexadecimal digits of a UUID. *)
Definition hex_char (d : N) : ascii :=
  if (d <? 10)%N then ascii_of_N (48 + d) else ascii_of_N (87 + d).

Fixpoint hex_digits (k : nat) (n : N) (acc : string) : string :=
  match k with
  | O => acc
  | S k' => hex_digits k' (n / 16) (String (hex_char (n mod 16)) acc)
  end.

Definition hex8 (n : N) : string := hex_digits 8 n "".

(** [Path(a) / b]: an absolute [b] replaces [a]. *)
Definition path_join (a b : string) : string :=
  if starts_with_slash b then b else a ++ "/" ++ b.

(** The directories [os.makedirs(d, exist_ok=True)] makes sure of. *)
Fixpoint ancestors (root : string) (acc parts : list string) : list (list string) :=
  match parts with
  | [] => []
  | x :: rest =>
      let here := (acc ++ [x])%list in
      (root :: here) :: ancestors root here rest
  end.

Definition makedirs (d : string) (s : fs) : fs :=
  {| files := files s;
     dirs := dirs s ∪ list_to_set (ancestors (path_root d) [] (path_parts d)) |}.

Section Handlers.

(** The environment of a run: the clock ([time.time()] at each reading)
    and the UUIDs drawn, and what the libraries behind the services do. *)
Variable clock : nat -> Q.
Variable uuid : nat -> N.

(** [time.time()]. *)
Definition time_time : io Q := fun w =>
  ({| w_fs := w_fs w; w_ticks := S (w_ticks w); w_uuids := w_uuids w |},
   Return (clock (w_ticks w))).

(** [uuid.uuid4().hex[:8]]. *)
Definition uuid4_hex8 : io string := fun w =>
  ({| w_fs := w_fs w; w_ticks := w_ticks w; w_uuids := S (w_uuids w) |},
   Return (hex8 (uuid (w_uuids w)))).

(** [generate_filename(original_name, extension)]. *)
Definition generate_filename (original_name : string) (extension : option string)
  : io string :=
  let base_name := path_stem original_name in
  let ext := match extension with
             | Some e => if String.eqb e "" then path_suffix original_name else e
             | None => path_suffix original_name
             end in
  unique_id ← uuid4_hex8;
  now ← time_time;
  let timestamp := int_of_float now in
  mret (base_name ++ "_" ++ Split.str_of_Z timestamp ++ "_" ++ unique_id ++ ext).

(** [os.makedirs(d, exist_ok=True)] and [Path(d).mkdir(parents=True,
    exist_ok=True)] as a step. *)
Definition make_directory (d : string) : io unit := fun w =>
  (set_fs (makedirs d (w_fs w)) w, Return tt).

(** Writing [size] bytes at [file_path]. *)
Definition write_bytes (file_path : string) (size : Z) : io unit := fun w =>
  (set_fs (write_file file_path size (clock (w_ticks w)) (w_fs w)) w, Return tt).

(** [save_upload_file(file, subdir)]: the upload is written below
    [UPLOAD_DIR] and its path returned. *)
Definition save_upload_file (file : UploadFile) (subdir : string) : io string :=
  let upload_dir := path_join UPLOAD_DIR subdir in
  make_directory upload_dir;;
  fname ← generate_filename (filename_or file "file") None;
  let file_path := path_join upload_dir fname in
  write_bytes (path_str file_path) (content_size file);;
  mret (path_str file_path).

Fixpoint save_upload_files (files : list UploadFile) (subdir : string)
  : io (list string) :=
  match files with
  | [] => mret []
  | file :: rest =>
      path ← save_upload_file file subdir;
      paths ← save_upload_files rest subdir;
      mret (path :: paths)
  end.

(** [cleanup_file] and [cleanup_files] as handler steps. *)
Definition cleanup_file (file_path : string) : io unit := fun w =>
  let (s, r) := FileUtil.cleanup_file file_path (w_fs w) in (set_fs s w, r).

Definition cleanup_files (file_paths : list string) : io unit := fun w =>
  let (s, r) := FileUtil.cleanup_files file_paths (w_fs w) in (set_fs s w, r).

(** [Path(p).stat().st_size]. *)
Definition path_stat_size (p : string) : io Z := fun w =>
  (w, stat_size p (w_fs w)).

(** [FileResponseModel(file_url=..., filename=..., file_size=...,
    processing_time=...)], with the model's default [success]. *)
Definition FileResponseModel (file_url fname : string) (file_size : Z)
  (processing_time : Q) : json :=
  JObj [("success", JBool true); ("file_url", JStr file_url);
        ("filename", JStr fname); ("file_size", JInt file_size);
        ("processing_time", JFloat processing_time)].

(** The [try] block shared by the single-output handlers: name the output
    after [name], run the service on the output path, measure the output. *)
Definition produce_file (name ext : string) (service : string -> io unit)
  (start_time : Q) : io json :=
  output_filename ← generate_filename name (Some ext);
  let output_path := DOWNLOAD_DIR ++ "/" ++ output_filename in
  service output_path;;
  file_size ← path_stat_size output_path;
  now ← time_time;
  let processing_time := (now - start_time)%Q in
  mret (FileResponseModel ("/downloads/" ++ output_filename) output_filename
          file_size processing_time).

(** A handler of one upload: validate, note the time, save the upload,
    run the [try] block, and clean the upload up in [finally]. *)
Definition single_upload_handler (validate : UploadFile -> result unit)
  (subdir : string) (file : UploadFile)
  (body : Q -> string -> io json) : io json :=
  lift (validate file);;
  start_time ← time_time;
  input_path ← save_upload_file file subdir;
  try_finally (body start_time input_path) (cleanup_file input_path).

(** A handler of several uploads ([/merge], [/from-images]). *)
Definition multi_upload_handler (precheck : result unit) (subdir : string)
  (files : list UploadFile) (body : Q -> list string -> io json) : io json :=
  lift precheck;;
  start_time ← time_time;
  input_paths ← save_upload_files files subdir;
  try_finally (body start_time input_paths) (cleanup_files input_paths).

(** [/add-image]: two uploads, both cleaned up. *)
Definition two_upload_handler (validate : UploadFile -> result unit)
  (subdir : string) (file image : UploadFile)
  (body : Q -> string -> string -> io json) : io json :=
  lift (validate file);;
  start_time ← time_time;
  input_path ← save_upload_file file subdir;
  image_path ← save_upload_file image subdir;
  try_finally (body start_time input_path image_path)
    (cleanup_file input_path;; cleanup_file image_path).

(** The conversion services of app/services/pdf/convert.py, by what they
    do to the world given the input and the output path. *)
Variable pdf_to_word_service : string -> string -> string -> io unit.
Variable pdf_to_excel_service : string -> string -> io unit.
Variable pdf_to_pptx_service : string -> string -> io unit.
Variable word_to_pdf_service : string -> string -> io unit.
Variable excel_to_pdf_service : string -> string -> io unit.
Variable pptx_to_pdf_service : string -> string -> io unit.
Variable image_to_pdf_service : list string -> string -> io unit.

(** A single-output conversion handler. *)
Definition conversion (validate : UploadFile -> result unit)
  (subdir default_name ext : string) (service : string -> string -> io unit)
  (file : UploadFile) : io json :=
  single_upload_handler validate subdir file
    (fun start_time input_path =>
       produce_file (filename_or file default_name) ext
         (service input_path) start_time).

(** The seven conversion routes of app/api/v1/pdf.py. *)
Definition pdf_to_word (file : UploadFile) (mode : string) : io json :=
  conversion validate_pdf_file "pdf" "document" ".docx"
    (fun i o => pdf_to_word_service i o mode) file.
Definition pdf_to_excel : UploadFile -> io json :=
  conversion validate_pdf_file "pdf" "document" ".xlsx" pdf_to_excel_service.
Definition pdf_to_ppt : UploadFile -> io json :=
  conversion validate_pdf_file "pdf" "document" ".pptx" pdf_to_pptx_service.
Definition word_to_pdf : UploadFile -> io json :=
  conversion (fun f => validate_document_file f [".docx"; ".doc"])
    "word" "document" ".pdf" word_to_pdf_service.
Definition excel_to_pdf : UploadFile -> io json :=
  conversion (fun f => validate_document_file f [".xlsx"; ".xls"])
    "excel" "document" ".pdf" excel_to_pdf_service.
Definition ppt_to_pdf : UploadFile -> io json :=
  conversion (fun f => validate_document_file f [".pptx"; ".ppt"])
    "ppt" "document" ".pdf" pptx_to_pdf_service.
Definition images_to_pdf (files : list UploadFile) : io json :=
  multi_upload_handler (Return tt) "images" files
    (fun start_time input_paths =>
       produce_file "images" ".pdf"
         (image_to_pdf_service input_paths) start_time).

(** PyPDF2 as [split_pdf] uses it: [PdfReader(path).pages] (or what it
    raises) and the size in bytes of a written document; and Python's
    [int(p.strip())]. *)
Variable PdfPage : Type.
Variable read_pdf : string -> fs -> result (list PdfPage).
Variable pdf_size : list PdfPage -> Z.
Variable py_int_strip : string -> result Z.

(** [PdfReader(pdf_path).pages]. *)
Definition read_pages (pdf_path : string) : io (list PdfPage) := fun w =>
  (w, read_pdf pdf_path (w_fs w)).

(** The writes of the outputs, in order. *)
Fixpoint write_outputs (l : list (string * list PdfPage)) : io (list string) :=
  match l with
  | [] => mret []
  | (path, written) :: rest =>
      write_bytes path (pdf_size written);;
      paths ← write_outputs rest;
      mret (path :: paths)
  end.

(** [pdf_ops.split_pdf] with its effect on the file system: the output
    directory is made, then every output is written. *)
Definition split_pdf_service (pdf_path output_dir mode : string)
  (start_page end_page : option Z) (pages : option (list Z)) : io (list string) :=
  reader_pages ← read_pages pdf_path;
  make_directory output_dir;;
  outputs ← lift (Split.split_pdf reader_pages pdf_path output_dir mode
                    start_page end_page pages);
  write_outputs outputs.

Inductive PDFSplitMode : Type := ALL | RANGE | EXTRACT.

Definition split_mode_value (m : PDFSplitMode) : string :=
  match m with ALL => "all" | RANGE => "range" | EXTRACT => "extract" end.

(** [[int(p.strip()) for p in pages.split(",")]]. *)
Fixpoint parse_ints (l : list string) : result (list Z) :=
  match l with
  | [] => Return []
  | p :: rest =>
      z ← py_int_strip p;
      zs ← parse_ints rest;
      mret (z :: zs)
  end.

(** [page_list = None; if pages: page_list = [...]]. *)
Definition parse_page_list (pages : option string) : result (option (list Z)) :=
  match pages with
  | None => Return None
  | Some s =>
      if String.eqb s "" then Return None
      else l ← parse_ints (split_on "," s); mret (Some l)
  end.

(** The loop that builds [files_info] in [/split]. *)
Fixpoint split_files_info (output_paths : list string) : io (list json) :=
  match output_paths with
  | [] => mret []
  | path :: rest =>
      let fname := path_name path in
      now ← time_time;
      file_size ← path_stat_size path;
      let entry := JObj [("file_url",
                          JStr ("/downloads/split_" ++ Split.str_of_Z (int_of_float now)
                                ++ "/" ++ fname));
                         ("filename", JStr fname);
                         ("file_size", JInt file_size)] in
      entries ← split_files_info rest;
      mret (entry :: entries)
  end.

(** The [/split] route. *)
Definition split_pdf (file : UploadFile) (mode : PDFSplitMode)
  (start_page end_page : option Z) (pages : option string) : io json :=
  single_upload_handler validate_pdf_file "split" file
    (fun start_time input_path =>
       now ← time_time;
       let output_dir := DOWNLOAD_DIR ++ "/split_" ++ Split.str_of_Z (int_of_float now) in
       make_directory output_dir;;
       page_list ← lift (parse_page_list pages);
       output_paths ← split_pdf_service input_path output_dir (split_mode_value mode)
                        start_page end_page page_list;
       now' ← time_time;
       let processing_time := (now' - start_time)%Q in
       files_info ← split_files_info output_paths;
       mret (JObj [("success", JBool true); ("files", JList files_info);
                   ("processing_time", JFloat processing_time)])).

(** *** The steps, run *)

Definition tick (w : world) : world :=
  {| w_fs := w_fs w; w_ticks := S (w_ticks w); w_uuids := w_uuids w |}.
Definition draw (w : world) : world :=
  {| w_fs := w_fs w; w_ticks := w_ticks w; w_uuids := S (w_uuids w) |}.

(** The name [generate_filename] makes up in world [w]. *)
Definition generated_name (original_name : string) (extension : option string)
  (w : world) : string :=
  path_stem original_name ++ "_"
  ++ Split.str_of_Z (int_of_float (clock (w_ticks w))) ++ "_"
  ++ hex8 (uuid (w_uuids w))
  ++ match extension with
     | Some e => if String.eqb e "" then path_suffix original_name else e
     | None => path_suffix original_name
     end.

(** The path [save_upload_file] saves the upload at in world [w], and the
    world it leaves. *)
Definition saved_path (file : UploadFile) (subdir : string) (w : world) : string :=
  path_str (path_join (path_join UPLOAD_DIR subdir)
              (generated_name (filename_or file "file") None w)).

Definition saved_world (file : UploadFile) (subdir : string) (w : world) : world :=
  set_fs (write_file (saved_path file subdir w) (content_size file)
            (clock (S (w_ticks w)))
            (makedirs (path_join UPLOAD_DIR subdir) (w_fs w)))
         (tick (draw w)).

Lemma time_time_run (w : world) :
  time_time w = (tick w, Return (clock (w_ticks w))).
Proof. reflexivity. Qed.

Lemma generate_filename_run (original_name : string) (extension : option string)
  (w : world) :
  generate_filename original_name extension w
  = (tick (draw w), Return (generated_name original_name extension w)).
Proof. reflexivity. Qed.

Lemma save_upload_file_run (file : UploadFile) (subdir : string) (w : world) :
  save_upload_file file subdir w
  = (saved_world file subdir w, Return (saved_path file subdir w)).
Proof. reflexivity. Qed.

(** The worlds and paths [save_upload_files] goes through. *)
Fixpoint saved_all (files : list UploadFile) (subdir : string) (w : world)
  : world * list string :=
  match files with
  | [] => (w, [])
  | file :: rest =>
      let (w', paths) := saved_all rest subdir (saved_world file subdir w) in
      (w', saved_path file subdir w :: paths)
  end.

Lemma save_upload_files_run (files : list UploadFile) (subdir : string) (w : world) :
  save_upload_files files subdir w
  = (fst (saved_all files subdir w), Return (snd (saved_all files subdir w))).
Proof.
  revert w. induction files as [|file rest IH]; intros w; [reflexivity|].
  cbn [save_upload_files saved_all].
  unfold mbind at 1, io_bind at 1. rewrite save_upload_file_run.
  unfold mbind at 1, io_bind at 1. rewrite IH.
  destruct (saved_all rest subdir (saved_world file subdir w)); reflexivity.
Qed.

(** *** Cleanup *)

(** The operating system lets [p] go: it is no directory, and if it is a
    file, it can be unlinked. *)
Definition removable (p : string) (s : fs) : Prop :=
  (path_key p ∉ dirs s) /\
  match files s !! path_key p with
  | Some m => deletable m = true
  | None => True
  end.

Lemma cleanup_file_returns (p : string) (s : fs) :
  snd (FileUtil.cleanup_file p s) = Return tt.
Proof.
  unfold FileUtil.cleanup_file.
  destruct (os_path_exists p s); [|reflexivity].
  destruct (os_remove p s) as [s' [u|e]]; reflexivity.
Qed.

Lemma cleanup_files_returns (ps : list string) (s : fs) :
  snd (FileUtil.cleanup_files ps s) = Return tt.
Proof.
  revert s. induction ps as [|p ps IH]; intros s; [reflexivity|].
  cbn [FileUtil.cleanup_files].
  pose proof (cleanup_file_returns p s) as H.
  destruct (FileUtil.cleanup_file p s) as [s' r]. cbn in H. subst r. apply IH.
Qed.

(** What [cleanup_file] does to the file system. *)
Lemma cleanup_file_effect (p : string) (s : fs) :
  fst (FileUtil.cleanup_file p s)
  = match files s !! path_key p with
    | Some m =>
        if deletable m
        then {| files := delete (path_key p) (files s); dirs := dirs s |}
        else s
    | None => s
    end.
Proof.
  unfold FileUtil.cleanup_file, os_path_exists, key_exists, os_remove, remove_key.
  destruct (files s !! path_key p) as [m|] eqn:Hm.
  - rewrite bool_decide_eq_true_2 by eauto. cbn [orb].
    destruct (deletable m); reflexivity.
  - rewrite bool_decide_eq_false_2 by (intros [? ?]; discriminate). cbn [orb].
    destruct (bool_decide (path_key p ∈ dirs s)); reflexivity.
Qed.

Lemma cleanup_file_dirs (p : string) (s : fs) :
  dirs (fst (FileUtil.cleanup_file p s)) = dirs s.
Proof.
  rewrite cleanup_file_effect.
  destruct (files s !! path_key p) as [m|]; [destruct (deletable m)|]; reflexivity.
Qed.

(** Only the file at [p] can go. *)
Lemma cleanup_file_other (p : string) (s : fs) (k : key) :
  k <> path_key p ->
  files (fst (FileUtil.cleanup_file p s)) !! k = files s !! k.
Proof.
  intros Hk. rewrite cleanup_file_effect.
  destruct (files s !! path_key p) as [m|]; [destruct (deletable m)|]; cbn;
    try reflexivity.
  now rewrite lookup_delete_ne.
Qed.

(** No file appears. *)
Lemma cleanup_file_none (p : string) (s : fs) (k : key) :
  files s !! k = None -> files (fst (FileUtil.cleanup_file p s)) !! k = None.
Proof.
  intros Hk. rewrite cleanup_file_effect.
  destruct (files s !! path_key p) as [m|]; [destruct (deletable m)|]; cbn;
    try assumption.
  destruct (decide (path_key p = k)) as [->|Hne].
  - apply lookup_delete_eq.
  - now rewrite lookup_delete_ne.
Qed.

Lemma not_exists_iff (p : string) (s : fs) :
  os_path_exists p s = false <->
  files s !! path_key p = None /\ path_key p ∉ dirs s.
Proof.
  unfold os_path_exists, key_exists. rewrite orb_false_iff.
  rewrite !bool_decide_eq_false. split.
  - intros [H1 H2]. split; [|assumption].
    destruct (files s !! path_key p) eqn:E; [|reflexivity].
    exfalso. apply H1. eauto.
  - intros [H1 H2]. split; [|assumption].
    rewrite H1. intros [? ?]. discriminate.
Qed.

(** A file the system lets go is gone after [cleanup_file]. *)
Lemma cleanup_file_gone (p : string) (s : fs) :
  removable p s -> os_path_exists p (fst (FileUtil.cleanup_file p s)) = false.
Proof.
  intros [Hd Hm]. apply not_exists_iff. rewrite cleanup_file_dirs.
  split; [|assumption].
  rewrite cleanup_file_effect.
  destruct (files s !! path_key p) as [m|] eqn:E.
  - rewrite Hm. cbn. apply lookup_delete_eq.
  - assumption.
Qed.

Lemma cleanup_file_keeps_removable (p q : string) (s : fs) :
  removable q s -> removable q (fst (FileUtil.cleanup_file p s)).
Proof.
  intros [Hd Hm]. split; [now rewrite cleanup_file_dirs|].
  destruct (decide (path_key q = path_key p)) as [Heq|Hne].
  - destruct (files (fst (FileUtil.cleanup_file p s)) !! path_key q) as [m'|] eqn:E;
      [|exact I].
    rewrite cleanup_file_effect in E. rewrite Heq in *.
    destruct (files s !! path_key p) as [m|] eqn:E'.
    + destruct (deletable m) eqn:Dm.
      * cbn in E. rewrite lookup_delete_eq in E. discriminate.
      * congruence.
    + congruence.
  - now rewrite cleanup_file_other.
Qed.

Lemma cleanup_file_keeps_gone (p q : string) (s : fs) :
  os_path_exists q s = false ->
  os_path_exists q (fst (FileUtil.cleanup_file p s)) = false.
Proof.
  rewrite !not_exists_iff. intros [H1 H2].
  split; [now apply cleanup_file_none | now rewrite cleanup_file_dirs].
Qed.

Lemma cleanup_files_keeps_gone (ps : list string) (q : string) (s : fs) :
  os_path_exists q s = false ->
  os_path_exists q (fst (FileUtil.cleanup_files ps s)) = false.
Proof.
  revert s. induction ps as [|p ps IH]; intros s H; [exact H|].
  cbn [FileUtil.cleanup_files].
  pose proof (cleanup_file_returns p s) as Hr.
  pose proof (cleanup_file_keeps_gone p q s H) as Hg.
  destruct (FileUtil.cleanup_file p s) as [s' r]. cbn in Hr, Hg. subst r.
  now apply IH.
Qed.

(** Every file of the list that the system lets go is gone after
    [cleanup_files]. *)
Lemma cleanup_files_gone (ps : list string) (s : fs) :
  Forall (fun p => removable p s) ps ->
  Forall (fun p => os_path_exists p (fst (FileUtil.cleanup_files ps s)) = false) ps.
Proof.
  revert s. induction ps as [|p ps IH]; intros s H; [constructor|].
  apply Forall_cons in H as [Hp Hps].
  cbn [FileUtil.cleanup_files].
  pose proof (cleanup_file_returns p s) as Hr.
  pose proof (cleanup_file_gone p s Hp) as Hg.
  assert (Hps' : Forall (fun q => removable q (fst (FileUtil.cleanup_file p s))) ps).
  { eapply List.Forall_impl; [|exact Hps]. intros q. apply cleanup_file_keeps_removable. }
  destruct (FileUtil.cleanup_file p s) as [s' r]. cbn in Hr, Hg, Hps'. subst r.
  constructor.
  - now apply cleanup_files_keeps_gone.
  - now apply IH.
Qed.

(** Only the files of the list can go. *)
Lemma cleanup_files_other (ps : list string) (s : fs) (k : key) :
  Forall (fun p => k <> path_key p) ps ->
  files (fst (FileUtil.cleanup_files ps s)) !! k = files s !! k.
Proof.
  revert s. induction ps as [|p ps IH]; intros s H; [reflexivity|].
  apply Forall_cons in H as [Hp Hps].
  cbn [FileUtil.cleanup_files].
  pose proof (cleanup_file_returns p s) as Hr.
  pose proof (cleanup_file_other p s k Hp) as Ho.
  destruct (FileUtil.cleanup_file p s) as [s' r]. cbn in Hr, Ho. subst r.
  rewrite IH by assumption. exact Ho.
Qed.

(** [finally: cleanup_file(p)] after any [try] block. *)
Lemma try_finally_cleanup_file {A : Type} (body : io A) (p : string) (w : world) :
  try_finally body (cleanup_file p) w
  = (set_fs (fst (FileUtil.cleanup_file p (w_fs (fst (body w))))) (fst (body w)),
     snd (body w)).
Proof.
  unfold try_finally, cleanup_file. destruct (body w) as [w1 r]. cbn [fst snd].
  pose proof (cleanup_file_returns p (w_fs w1)) as H.
  destruct (FileUtil.cleanup_file p (w_fs w1)) as [s' r']. cbn in H. now subst r'.
Qed.

Lemma try_finally_cleanup_files {A : Type} (body : io A) (ps : list string)
  (w : world) :
  try_finally body (cleanup_files ps) w
  = (set_fs (fst (FileUtil.cleanup_files ps (w_fs (fst (body w))))) (fst (body w)),
     snd (body w)).
Proof.
  unfold try_finally, cleanup_files. destruct (body w) as [w1 r]. cbn [fst snd].
  pose proof (cleanup_files_returns ps (w_fs w1)) as H.
  destruct (FileUtil.cleanup_files ps (w_fs w1)) as [s' r']. cbn in H. now subst r'.
Qed.

Lemma single_upload_handler_run (validate : UploadFile -> result unit)
  (subdir : string) (file : UploadFile) (body : Q -> string -> io json)
  (w : world) :
  validate file = Return tt ->
  single_upload_handler validate subdir file body w
  = try_finally (body (clock (w_ticks w)) (saved_path file subdir (tick w)))
      (cleanup_file (saved_path file subdir (tick w)))
      (saved_world file subdir (tick w)).
Proof.
  intros Hv. unfold single_upload_handler, lift.
  unfold mbind at 1, io_bind at 1. rewrite Hv.
  unfold mbind at 1, io_bind at 1. rewrite time_time_run.
  unfold mbind at 1, io_bind at 1. rewrite save_upload_file_run.
  reflexivity.
Qed.

Lemma multi_upload_handler_run (subdir : string) (files : list UploadFile)
  (body : Q -> list string -> io json) (w : world) :
  multi_upload_handler (Return tt) subdir files body w
  = try_finally (body (clock (w_ticks w)) (snd (saved_all files subdir (tick w))))
      (cleanup_files (snd (saved_all files subdir (tick w))))
      (fst (saved_all files subdir (tick w))).
Proof.
  unfold multi_upload_handler, lift.
  unfold mbind at 1, io_bind at 1.
  unfold mbind at 1, io_bind at 1. rewrite time_time_run.
  unfold mbind at 1, io_bind at 1. rewrite save_upload_files_run.
  reflexivity.
Qed.

(** The upload is there once saved. *)
Lemma saved_upload_exists (file : UploadFile) (subdir : string) (w : world) :
  os_path_exists (saved_path file subdir w) (w_fs (saved_world file subdir w)) = true.
Proof.
  unfold os_path_exists, key_exists, saved_world, set_fs, write_file. cbn.
  rewrite lookup_insert_eq. rewrite bool_decide_eq_true_2 by eauto. reflexivity.
Qed.

Lemma two_upload_handler_run (validate : UploadFile -> result unit)
  (subdir : string) (file image : UploadFile)
  (body : Q -> string -> string -> io json) (w : world) :
  validate file = Return tt ->
  let input_path := saved_path file subdir (tick w) in
  let w1 := saved_world file subdir (tick w) in
  let image_path := saved_path image subdir w1 in
  two_upload_handler validate subdir file image body w
  = try_finally (body (clock (w_ticks w)) input_path image_path)
      (cleanup_files [input_path; image_path])
      (saved_world image subdir w1).
Proof.
  intros Hv. cbn zeta. unfold two_upload_handler, lift.
  unfold mbind at 1, io_bind at 1. rewrite Hv.
  unfold mbind at 1, io_bind at 1. rewrite time_time_run.
  unfold mbind at 1, io_bind at 1. rewrite save_upload_file_run.
  unfold mbind at 1, io_bind at 1. rewrite save_upload_file_run.
  unfold try_finally.
  destruct (body _ _ _ _) as [w2 r].
  unfold mbind, io_bind, cleanup_file, cleanup_files.
  cbn [FileUtil.cleanup_files].
  pose proof (cleanup_file_returns (saved_path file subdir (tick w)) (w_fs w2)) as H1.
  destruct (FileUtil.cleanup_file (saved_path file subdir (tick w)) (w_fs w2))
    as [s1 r1]. cbn in H1. subst r1. cbn [set_fs w_fs].
  pose proof (cleanup_file_returns
                (saved_path image subdir (saved_world file subdir (tick w))) s1) as H2.
  destruct (FileUtil.cleanup_file
              (saved_path image subdir (saved_world file subdir (tick w))) s1)
    as [s2 r2]. cbn in H2. subst r2. reflexivity.
Qed.

(** C5.  A request that passes validation has its upload saved, and
    however the [try] block ends, returning or raising, the request ends
    the same way after [cleanup_file] has run on the saved upload;
    [cleanup_file] never raises; and the upload is gone when the request
    completes, in both cases, whenever the operating system lets the file
    go (the one error [cleanup_file] can meet and swallow).  The handlers of
    several uploads clean every one of them up in the same way. *)
Theorem upload_cleaned_up (validate : UploadFile -> result unit)
  (subdir : string) (file : UploadFile) (body : Q -> string -> io json)
  (w : world) :
  validate file = Return tt ->
  let input_path := saved_path file subdir (tick w) in
  let saved := saved_world file subdir (tick w) in
  let ran := body (clock (w_ticks w)) input_path saved in
  let done := single_upload_handler validate subdir file body w in
  os_path_exists input_path (w_fs saved) = true
  /\ snd done = snd ran
  /\ w_fs (fst done) = fst (FileUtil.cleanup_file input_path (w_fs (fst ran)))
  /\ (forall p s, snd (FileUtil.cleanup_file p s) = Return tt)
  /\ (removable input_path (w_fs (fst ran)) ->
      os_path_exists input_path (w_fs (fst done)) = false).
Proof.
  intros Hv input_path saved ran done.
  assert (Hd : done = (set_fs (fst (FileUtil.cleanup_file input_path (w_fs (fst ran))))
                         (fst ran), snd ran)).
  { subst done. rewrite single_upload_handler_run by assumption.
    apply try_finally_cleanup_file. }
  rewrite Hd. cbn [fst snd set_fs w_fs].
  split; [apply saved_upload_exists|].
  split; [reflexivity|]. split; [reflexivity|].
  split; [apply cleanup_file_returns|].
  apply cleanup_file_gone.
Qed.

(** The same for the handlers of a list of uploads ([/merge],
    [/from-images]). *)
Lemma uploads_cleaned_up (subdir : string) (files : list UploadFile)
  (body : Q -> list string -> io json) (w : world) :
  let input_paths := snd (saved_all files subdir (tick w)) in
  let saved := fst (saved_all files subdir (tick w)) in
  let ran := body (clock (w_ticks w)) input_paths saved in
  let done := multi_upload_handler (Return tt) subdir files body w in
  snd done = snd ran
  /\ w_fs (fst done) = fst (FileUtil.cleanup_files input_paths (w_fs (fst ran)))
  /\ (Forall (fun p => removable p (w_fs (fst ran))) input_paths ->
      Forall (fun p => os_path_exists p (w_fs (fst done)) = false) input_paths).
Proof.
  intros input_paths saved ran done.
  assert (Hd : done = (set_fs (fst (FileUtil.cleanup_files input_paths
                                      (w_fs (fst ran)))) (fst ran), snd ran)).
  { subst done. rewrite multi_upload_handler_run.
    apply try_finally_cleanup_files. }
  rewrite Hd. cbn [fst snd set_fs w_fs].
  split; [reflexivity|]. split; [reflexivity|].
  apply cleanup_files_gone.
Qed.

(** The same for [/add-image], which saves two uploads. *)
Lemma both_uploads_cleaned_up (validate : UploadFile -> result unit)
  (subdir : string) (file image : UploadFile)
  (body : Q -> string -> string -> io json) (w : world) :
  validate file = Return tt ->
  let input_path := saved_path file subdir (tick w) in
  let w1 := saved_world file subdir (tick w) in
  let image_path := saved_path image subdir w1 in
  let ran := body (clock (w_ticks w)) input_path image_path
               (saved_world image subdir w1) in
  let done := two_upload_handler validate subdir file image body w in
  snd done = snd ran
  /\ (removable input_path (w_fs (fst ran)) ->
      removable image_path (w_fs (fst ran)) ->
      os_path_exists input_path (w_fs (fst done)) = false
      /\ os_path_exists image_path (w_fs (fst done)) = false).
Proof.
  intros Hv input_path w1 image_path ran done.
  assert (Hd : done = (set_fs (fst (FileUtil.cleanup_files [input_path; image_path]
                                      (w_fs (fst ran)))) (fst ran), snd ran)).
  { subst done. rewrite (two_upload_handler_run _ _ _ _ _ _ Hv).
    apply try_finally_cleanup_files. }
  rewrite Hd. cbn [fst snd set_fs w_fs].
  split; [reflexivity|]. intros H1 H2.
  pose proof (cleanup_files_gone [input_path; image_path] (w_fs (fst ran))) as H.
  assert (Hall : Forall (fun p => removable p (w_fs (fst ran)))
                   [input_path; image_path])
    by (constructor; [exact H1 | constructor; [exact H2 | constructor]]).
  specialize (H Hall).
  apply Forall_cons in H as [Ha H]. apply Forall_cons in H as [Hb _].
  split; assumption.
Qed.

(** *** Responses *)


(** A request fails with an input-validation error response: an
    HTTPException of the 4xx class. *)
Definition is_validation_error {A : Type} (r : result A) : Prop :=
  exists status_code detail,
    r = Raise (HTTPException status_code detail)
    /\ 400 <= status_code < 500.








(** *** Out-of-range pages in [/split] *)

Lemma write_outputs_returns (l : list (string * list PdfPage)) (w : world) :
  snd (write_outputs l w) = Return (map fst l).
Proof.
  revert w. induction l as [|[path written] rest IH]; intros w; [reflexivity|].
  cbn [write_outputs]. unfold mbind at 1, io_bind at 1. unfold write_bytes at 1.
  unfold mbind at 1, io_bind at 1.
  specialize (IH (set_fs (write_file path (pdf_size written) (clock (w_ticks w))
                            (w_fs w)) w)).
  destruct (write_outputs rest _) as [w' r]. cbn [snd] in IH. subst r. reflexivity.
Qed.

Lemma split_pdf_service_error (pdf_path output_dir mode : string)
  (start_page end_page : option Z) (pages : option (list Z)) (w : world) (e : exn) :
  (forall p s err, read_pdf p s = Raise err -> ~ is_http err) ->
  snd (split_pdf_service pdf_path output_dir mode start_page end_page pages w)
  = Raise e ->
  ~ is_http e.
Proof.
  intros Hread. unfold split_pdf_service.
  unfold mbind at 1, io_bind at 1. unfold read_pages at 1.
  destruct (read_pdf pdf_path (w_fs w)) as [reader_pages|err] eqn:Hr.
  2:{ intros [= <-]. now apply (Hread _ _ _ Hr). }
  unfold mbind at 1, io_bind at 1. unfold make_directory at 1.
  unfold mbind at 1, io_bind at 1. unfold lift at 1.
  destruct (Split.split_pdf _ _ _ _ _ _ _) as [outputs|err] eqn:Hs.
  2:{ intros [= <-]. now apply Split.split_pdf_error in Hs. }
  rewrite write_outputs_returns. discriminate.
Qed.

Lemma parse_ints_error (l : list string) (e : exn) :
  (forall x err, py_int_strip x = Raise err -> ~ is_http err) ->
  parse_ints l = Raise e -> ~ is_http e.
Proof.
  intros Hint. induction l as [|p rest IH]; cbn [parse_ints]; [discriminate|].
  destruct (py_int_strip p) as [z|err] eqn:Hp; cbn [mbind result_bind].
  - destruct (parse_ints rest) as [zs|err]; cbn [mbind result_bind];
      [discriminate|].
    intros [= <-]. now apply IH.
  - intros [= <-]. now apply (Hint _ _ Hp).
Qed.

Lemma parse_page_list_error (pages : option string) (e : exn) :
  (forall x err, py_int_strip x = Raise err -> ~ is_http err) ->
  parse_page_list pages = Raise e -> ~ is_http e.
Proof.
  intros Hint. unfold parse_page_list.
  destruct pages as [text|]; [|discriminate].
  destruct (String.eqb text ""); [discriminate|].
  destruct (parse_ints _) as [l|err] eqn:Hp; cbn [mbind result_bind];
    [discriminate|].
  intros [= <-]. now apply (parse_ints_error _ _ Hint Hp).
Qed.

Lemma split_files_info_error (paths : list string) (w : world) (e : exn) :
  snd (split_files_info paths w) = Raise e -> ~ is_http e.
Proof.
  revert w. induction paths as [|path rest IH]; intros w; [discriminate|].
  cbn [split_files_info].
  unfold mbind at 1, io_bind at 1. rewrite time_time_run.
  unfold mbind at 1, io_bind at 1. unfold path_stat_size at 1.
  unfold stat_size at 1.
  destruct (files (w_fs (tick w)) !! path_key path);
    [|intros [= <-]; exact id].
  unfold mbind at 1, io_bind at 1.
  specialize (IH (tick w)).
  destruct (split_files_info rest (tick w)) as [w' [es|err]]; [discriminate|].
  exact IH.
Qed.

(** An upload that passed validation is never answered with an HTTP
    error of the split handler's own. *)
Lemma split_raises_no_http_error (file : UploadFile) (mode : PDFSplitMode)
  (start_page end_page : option Z) (pages : option string) (w : world) (e : exn) :
  validate_pdf_file file = Return tt ->
  (forall p s err, read_pdf p s = Raise err -> ~ is_http err) ->
  (forall x err, py_int_strip x = Raise err -> ~ is_http err) ->
  snd (split_pdf file mode start_page end_page pages w) = Raise e ->
  ~ is_http e.
Proof.
  intros Hv Hread Hint. unfold split_pdf.
  rewrite single_upload_handler_run by assumption.
  rewrite try_finally_cleanup_file. cbn [snd].
  unfold mbind at 1, io_bind at 1. rewrite time_time_run.
  unfold mbind at 1, io_bind at 1. unfold make_directory at 1.
  unfold mbind at 1, io_bind at 1. unfold lift at 1.
  destruct (parse_page_list pages) as [page_list|err] eqn:Hp.
  2:{ intros [= <-]. now apply (parse_page_list_error _ _ Hint Hp). }
  unfold mbind at 1, io_bind at 1.
  destruct (split_pdf_service _ _ _ _ _ _ _) as [w2 [paths|err]] eqn:Hs.
  2:{ intros [= <-].
      eapply split_pdf_service_error; [exact Hread|].
      rewrite Hs. reflexivity. }
  unfold mbind at 1, io_bind at 1. rewrite time_time_run.
  unfold mbind at 1, io_bind at 1.
  destruct (split_files_info paths (tick w2)) as [w3 [entries|err]] eqn:Hi.
  - discriminate.
  - intros [= <-]. eapply split_files_info_error.
    rewrite Hi. reflexivity.
Qed.

(** C4, as amended.  Out-of-range page values are not rejected.  A "range"
    split from [start_page >= 1] whose [end_page] lies beyond the document
    is cut at the last page, and an "extract" split of a non-empty list
    skips the page numbers outside [1 .. total_pages]: [split_pdf] returns
    normally, with one output that holds the pages that remain.  And
    whatever the page values, a request whose upload passed validation is
    not answered with a validation error, as long as the libraries raise
    none. *)
Theorem split_accepts_out_of_range (reader_pages : list PdfPage)
  (pdf_path output_dir : string) (first last : Z) (s e : option Z)
  (ps : option (list Z)) (listed : list Z)
  (file : UploadFile) (mode : PDFSplitMode) (start_page end_page : option Z)
  (pages : option string) (w : world) :
  (1 <= first -> Z.of_nat (length reader_pages) < last ->
   Split.split_pdf reader_pages pdf_path output_dir "range" (Some first) (Some last) ps
   = Return [(output_dir ++ "/" ++ path_stem pdf_path ++ "_pages_"
                ++ Split.str_of_Z first ++ "-" ++ Split.str_of_Z last ++ ".pdf",
              skipn (Z.to_nat (first - 1)) reader_pages)])
  /\ (listed <> [] ->
      Split.split_pdf reader_pages pdf_path output_dir "extract" s e (Some listed)
      = Return [(output_dir ++ "/" ++ path_stem pdf_path ++ "_extracted_"
                   ++ Split.extract_name listed ++ ".pdf",
                 Split.pages_kept reader_pages listed)])
  /\ (validate_pdf_file file = Return tt ->
      (forall p fs0 err, read_pdf p fs0 = Raise err -> ~ is_http err) ->
      (forall x err, py_int_strip x = Raise err -> ~ is_http err) ->
      ~ is_validation_error (snd (split_pdf file mode start_page end_page pages w))).
Proof.
  destruct (Split.split_pdf_clamps reader_pages pdf_path output_dir first last
              s e ps listed) as [Hrange Hextract].
  split; [exact Hrange|]. split; [exact Hextract|].
  intros Hv Hread Hint (code & detail & Hr & _).
  now apply (split_raises_no_http_error _ _ _ _ _ _ _ Hv Hread Hint Hr).
Qed.

End Handlers.

(** *** A sample environment *)

(** A clock that advances one second per reading, UUIDs in sequence, an
    empty file system. *)
Definition sample_clock (n : nat) : Q := inject_Z (1700000000 + Z.of_nat n).
Definition sample_uuid (n : nat) : N := (3054 + N.of_nat n)%N.
Definition empty_world : world :=
  {| w_fs := {| files := ∅; dirs := ∅ |}; w_ticks := 0; w_uuids := 0 |}.

(** A three-page document behind every path, a thousand bytes a page. *)
Definition three_pages (_ : string) (_ : fs) : result (list string) :=
  Return ["p1"; "p2"; "p3"].
Definition sample_pdf_size (l : list string) : Z := 1000 * Z.of_nat (length l).

(** [int] on plain decimal digits. *)
Fixpoint decimal_value (s : string) (acc : Z) : result Z :=
  match s with
  | EmptyString => Return acc
  | String a s' =>
      let d := Z.of_nat (nat_of_ascii a) - 48 in
      if (0 <=? d) && (d <=? 9) then decimal_value s' (10 * acc + d)
      else Raise (ValueError "invalid literal for int()")
  end.
Definition sample_int (s : string) : result Z :=
  match s with
  | EmptyString => Raise (ValueError "invalid literal for int()")
  | _ => decimal_value s 0
  end.

Definition sample_upload : UploadFile :=
  {| filename := Some "My Doc.pdf"; content_size := 4096 |}.

(** A service that writes 777 bytes at the output path, and one that
    raises. *)
Definition writing_service (_ output_path : string) : io unit := fun w =>
  (set_fs (write_file output_path 777 (sample_clock (w_ticks w)) (w_fs w)) w,
   Return tt).
Definition raising_service (_ _ : string) : io unit := fun w =>
  (w, Raise (LibraryError "cannot open broken document")).

Definition sample_split :=
  split_pdf sample_clock sample_uuid string three_pages sample_pdf_size sample_int.

Example to_word_response :
  snd (pdf_to_word sample_clock sample_uuid (fun i o _ => writing_service i o)
         sample_upload "auto" empty_world)
  = Return (JObj [("success", JBool true);
                  ("file_url", JStr "/downloads/My Doc_1700000002_00000bef.docx");
                  ("filename", JStr "My Doc_1700000002_00000bef.docx");
                  ("file_size", JInt 777);
                  ("processing_time", JFloat 3)]).
Proof. vm_compute. reflexivity. Qed.

Example to_word_failure_propagates :
  snd (pdf_to_word sample_clock sample_uuid (fun i o _ => raising_service i o)
         sample_upload "auto" empty_world)
  = Raise (LibraryError "cannot open broken document").
Proof. vm_compute. reflexivity. Qed.

Lemma upload_cleaned_up_witness :
  validate_pdf_file sample_upload = Return tt /\
  os_path_exists (saved_path sample_clock sample_uuid sample_upload "pdf"
                    (tick empty_world))
    (w_fs (fst (single_upload_handler sample_clock sample_uuid validate_pdf_file
                  "pdf" sample_upload
                  (fun start_time input_path =>
                     produce_file sample_clock sample_uuid
                       (filename_or sample_upload "document") ".docx"
                       (raising_service input_path) start_time)
                  empty_world))) = false.
Proof.
  split; [reflexivity|].
  refine (proj2 (proj2 (proj2 (proj2
            (upload_cleaned_up sample_clock sample_uuid validate_pdf_file "pdf"
               sample_upload _ empty_world eq_refl)))) _).
  split.
  - apply (bool_decide_eq_false_1 _). vm_compute. reflexivity.
  - vm_compute. reflexivity.
Defined.


Lemma split_accepts_out_of_range_witness :
  Split.split_pdf ["p1"; "p2"; "p3"] "doc.pdf" "out" "range" (Some 2) (Some 5) None
  = Return [("out/doc_pages_2-5.pdf", ["p2"; "p3"])]
  /\ ~ is_validation_error
         (snd (sample_split sample_upload RANGE (Some 2) (Some 5) None empty_world)).
Proof.
  pose proof (split_accepts_out_of_range sample_clock sample_uuid string three_pages
                sample_pdf_size sample_int ["p1"; "p2"; "p3"] "doc.pdf" "out" 2 5
                None None None [1] sample_upload RANGE (Some 2) (Some 5) None
                empty_world) as (Hrange & _ & Hhandler).
  split.
  - apply Hrange; cbn; lia.
  - apply Hhandler.
    + reflexivity.
    + intros p fs0 err H. discriminate.
    + intros x err H. unfold sample_int in H.
      assert (Hd : forall t acc, decimal_value t acc = Raise err -> ~ is_http err).
      { induction t as [|a t IH]; intros acc Ht; cbn in Ht; [discriminate|].
        destruct (_ && _); [now apply (IH _ Ht)|].
        injection Ht as <-. exact id. }
      destruct x; [injection H as <-; exact id | now apply (Hd _ _ H)].
Defined.

(** C4, the claim as stated, refuted.  The document has three pages; a
    "range" split with [end_page = 5] and an "extract" split that lists
    page 7 both pass upload validation and are answered with a success
    object, not with a validation error. *)
Lemma split_out_of_range_accepted :
  three_pages "any.pdf" (w_fs empty_world) = Return ["p1"; "p2"; "p3"]
  /\ ~ is_validation_error
         (snd (sample_split sample_upload RANGE (Some 2) (Some 5) None empty_world))
  /\ ~ is_validation_error
         (snd (sample_split sample_upload EXTRACT None None (Some "1,7") empty_world))
  /\ field "success"
       (match snd (sample_split sample_upload EXTRACT None None (Some "1,7")
                     empty_world) with
        | Return j => j
        | Raise _ => JNull
        end) = Some (JBool true).
Proof.
  split; [reflexivity|]. split; [|split].
  - intros (c & d & H & _). vm_compute in H. discriminate.
  - intros (c & d & H & _). vm_compute in H. discriminate.
  - vm_compute. reflexivity.
Qed.



End Api.

(** ** app/tasks/workers.py: [cleanup_old_files] *)
Module Workers.
Import PyStr OS.

Definition max_age : Q := 3600.

(** [current_time - os.path.getmtime(file_path) > max_age]. *)
Definition older (current_time : Q) (m : file_meta) : bool :=
  negb (Qle_bool (current_time - st_mtime m) max_age).

(** The body of [for file in files], with its [try ... except Exception:
    pass]: whatever [getmtime] or [remove] raises is dropped. *)
Definition sweep_file (current_time : Q) (s : fs) (file_path : key) : fs :=
  match getmtime_key file_path s with
  | Return mtime =>
      if negb (Qle_bool (current_time - mtime) max_age)
      then match remove_key file_path s with
           | (s', Return _) => s'
           | (s', Raise _) => s'
           end
      else s
  | Raise _ => s
  end.

(** One round of [for directory in [...]]: a missing directory is passed
    over, an existing one is walked. *)
Definition sweep_directory (current_time : Q) (s : fs) (directory : string) : fs :=
  if negb (os_path_exists directory s) then s
  else fold_left (sweep_file current_time) (walk_files (path_key directory) s) s.

(** [cleanup_old_files()], with [current_time = time.time()] read once. *)
Definition cleanup_old_files (current_time : Q) (s : fs) : fs * result Api.json :=
  (fold_left (sweep_directory current_time) [Api.UPLOAD_DIR; Api.DOWNLOAD_DIR] s,
   Return (Api.JObj [("success", Api.JBool true);
                     ("message", Api.JStr "Cleanup completed")])).

(** The file at [k] is within reach of the sweep of [directory]. *)
Definition swept_in (directory : string) (s : fs) (k : key) : bool :=
  os_path_exists directory s && is_prefix (path_key directory) k.

(** What a sweep makes of a file: gone when it is within reach, older than
    an hour and the system lets it go; as it was otherwise. *)
Definition swept_entry (reach : bool) (current_time : Q) (o : option file_meta)
  : option file_meta :=
  match o with
  | Some m => if reach && older current_time m && deletable m then None else Some m
  | None => None
  end.

(** A file system with an old and a fresh download, an old upload that
    cannot be unlinked, and an old file elsewhere. *)
Definition sample_fs : fs :=
  {| files :=
       <[ [""; "downloads"; "old.docx"] :=
            {| st_size := 10; st_mtime := 1000; deletable := true |} ]>
       (<[ [""; "downloads"; "split_1"; "fresh.pdf"] :=
            {| st_size := 20; st_mtime := 4000; deletable := true |} ]>
       (<[ [""; "uploads"; "pdf"; "held.pdf"] :=
            {| st_size := 30; st_mtime := 1000; deletable := false |} ]>
       (<[ [""; "elsewhere"; "old.txt"] :=
            {| st_size := 40; st_mtime := 0; deletable := true |} ]> ∅)));
     dirs := {[ [""; "downloads"]; [""; "uploads"]; [""; "uploads"; "pdf"];
                [""; "downloads"; "split_1"] ]} |}.

Example sweep_sample :
  let after := files (fst (cleanup_old_files 5000 sample_fs)) in
  after !! [""; "downloads"; "old.docx"] = None
  /\ is_Some (after !! [""; "downloads"; "split_1"; "fresh.pdf"])
  /\ is_Some (after !! [""; "uploads"; "pdf"; "held.pdf"])
  /\ is_Some (after !! [""; "elsewhere"; "old.txt"]).
Proof. vm_compute. repeat split; eauto. Qed.

Lemma remove_key_dirs (k : key) (s : fs) : dirs (fst (remove_key k s)) = dirs s.
Proof.
  unfold remove_key.
  destruct (files s !! k) as [m|]; [destruct (deletable m)|
    destruct (bool_decide (k ∈ dirs s))]; reflexivity.
Qed.

Lemma sweep_file_dirs (now : Q) (s : fs) (k : key) :
  dirs (sweep_file now s k) = dirs s.
Proof.
  unfold sweep_file, getmtime_key.
  destruct (files s !! k) as [m|] eqn:E; [|reflexivity].
  destruct (negb _); [|reflexivity].
  pose proof (remove_key_dirs k s) as H.
  destruct (remove_key k s) as [s' [u|e]]; exact H.
Qed.

Lemma swept_entry_out_of_reach (now : Q) (o : option file_meta) :
  swept_entry false now o = o.
Proof. now destruct o. Qed.

(** One step of the sweep, seen from a file [k']. *)
Lemma sweep_file_lookup (now : Q) (s : fs) (k k' : key) :
  files (sweep_file now s k) !! k'
  = swept_entry (bool_decide (k = k')) now (files s !! k').
Proof.
  unfold sweep_file, getmtime_key.
  destruct (decide (k = k')) as [<-|Hne].
  - rewrite bool_decide_eq_true_2 by reflexivity.
    destruct (files s !! k) as [m|] eqn:E; [|now rewrite E].
    unfold swept_entry, older. cbn [andb].
    destruct (negb (Qle_bool (now - st_mtime m) max_age)); [|exact E].
    unfold remove_key. rewrite E.
    destruct (deletable m); cbn; [apply lookup_delete_eq | exact E].
  - rewrite bool_decide_eq_false_2 by assumption.
    rewrite swept_entry_out_of_reach.
    destruct (files s !! k) as [m|] eqn:E; [|reflexivity].
    destruct (negb (Qle_bool (now - st_mtime m) max_age)); [|reflexivity].
    unfold remove_key. rewrite E.
    destruct (deletable m); cbn; [|reflexivity].
    now rewrite lookup_delete_ne.
Qed.

Lemma swept_entry_twice (a b : bool) (now : Q) (o : option file_meta) :
  swept_entry a now (swept_entry b now o) = swept_entry (a || b) now o.
Proof.
  destruct o as [m|]; [|reflexivity].
  unfold swept_entry at 2.
  destruct (b && older now m && deletable m) eqn:E.
  - apply andb_true_iff in E as [E Hd]. apply andb_true_iff in E as [-> Ho].
    cbn. rewrite orb_true_r, Ho, Hd. reflexivity.
  - cbn. destruct a; cbn; [reflexivity|]. now rewrite E.
Qed.

(** The sweep of a list of paths, seen from a file [k']. *)
Lemma sweep_files_lookup (now : Q) (l : list key) (s : fs) (k' : key) :
  files (fold_left (sweep_file now) l s) !! k'
  = swept_entry (bool_decide (k' ∈ l)) now (files s !! k').
Proof.
  revert s. induction l as [|k l IH]; intros s.
  - cbn. rewrite bool_decide_eq_false_2 by apply not_elem_of_nil.
    now rewrite swept_entry_out_of_reach.
  - cbn [fold_left]. rewrite IH, sweep_file_lookup, swept_entry_twice.
    f_equal. apply eq_true_iff_eq.
    rewrite orb_true_iff, !bool_decide_eq_true, elem_of_cons.
    split; intros [H|H]; auto.
Qed.

Lemma sweep_files_dirs (now : Q) (l : list key) (s : fs) :
  dirs (fold_left (sweep_file now) l s) = dirs s.
Proof.
  revert s. induction l as [|k l IH]; intros s; [reflexivity|].
  cbn [fold_left]. now rewrite IH, sweep_file_dirs.
Qed.

Lemma elem_of_walk_files (d k : key) (s : fs) :
  k ∈ walk_files d s <-> is_prefix d k = true /\ is_Some (files s !! k).
Proof.
  unfold walk_files. rewrite list_elem_of_filter, elem_of_elements, elem_of_dom.
  rewrite Is_true_true. reflexivity.
Qed.

(** The sweep of one directory, seen from a file [k]. *)
Lemma sweep_directory_lookup (now : Q) (s : fs) (directory : string) (k : key) :
  files (sweep_directory now s directory) !! k
  = swept_entry (swept_in directory s k) now (files s !! k).
Proof.
  unfold sweep_directory, swept_in.
  destruct (os_path_exists directory s); cbn [negb andb].
  - rewrite sweep_files_lookup.
    destruct (files s !! k) as [m|] eqn:E; [|reflexivity].
    f_equal. apply eq_true_iff_eq.
    rewrite bool_decide_eq_true, elem_of_walk_files, E.
    split; [tauto | intros H; split; [exact H | eauto]].
  - now rewrite swept_entry_out_of_reach.
Qed.

Lemma sweep_directory_dirs (now : Q) (s : fs) (directory : string) :
  dirs (sweep_directory now s directory) = dirs s.
Proof.
  unfold sweep_directory. destruct (negb _); [reflexivity|].
  apply sweep_files_dirs.
Qed.

Lemma sweep_directory_exists (now : Q) (s : fs) (d d' : string) :
  path_key d' ∈ dirs s ->
  os_path_exists d' (sweep_directory now s d) = true.
Proof.
  intros H. unfold os_path_exists, key_exists.
  rewrite sweep_directory_dirs. rewrite (bool_decide_eq_true_2 _ H).
  apply orb_true_r.
Qed.

End Workers.

(** ** Which files a request can remove, and which the sweep removes *)
Module Retention.
Import PyStr OS FileUtil Api Workers.

(** A name that holds no path separator. *)
Fixpoint no_slash (s : string) : bool :=
  match s with
  | EmptyString => true
  | String a s' => negb (Ascii.eqb a "/") && no_slash s'
  end.

(** A directory name as the handlers pass it: one plain component. *)
Definition plain_name (s : string) : bool := no_slash s && kept_component s.

(** The file at [k] lies below the downloads directory; below the uploads
    directory. *)
Definition under_downloads (k : key) : bool := is_prefix (path_key DOWNLOAD_DIR) k.
Definition under_uploads (k : key) : bool := is_prefix (path_key UPLOAD_DIR) k.

Lemma split_on_nonempty (c : ascii) (s : string) : split_on c s <> [].
Proof.
  destruct s as [|a s]; simpl; [discriminate|].
  destruct (Ascii.eqb a c); [discriminate|].
  destruct (split_on c s); discriminate.
Qed.

Lemma split_on_app (c : ascii) (a b : string) :
  split_on c (a ++ String c b) = (split_on c a ++ split_on c b)%list.
Proof.
  induction a as [|x a IH]; simpl.
  - now rewrite Ascii.eqb_refl.
  - destruct (Ascii.eqb x c); [now rewrite IH|].
    rewrite IH. pose proof (split_on_nonempty c a) as Hne.
    destruct (split_on c a); [congruence | reflexivity].
Qed.

Lemma split_on_no_slash (s : string) :
  no_slash s = true -> split_on "/" s = [s].
Proof.
  induction s as [|a s IH]; simpl; [reflexivity|].
  intros H. apply andb_true_iff in H as [Ha Hs].
  apply negb_true_iff in Ha. rewrite Ha, (IH Hs). reflexivity.
Qed.

Lemma no_slash_app (a b : string) :
  no_slash (a ++ b) = no_slash a && no_slash b.
Proof.
  induction a as [|x a IH]; simpl; [reflexivity|].
  now rewrite IH, andb_assoc.
Qed.

Lemma split_on_all_no_slash (s : string) :
  Forall (fun x => no_slash x = true) (split_on "/" s).
Proof.
  induction s as [|a s IH]; simpl; [repeat constructor|].
  destruct (Ascii.eqb a "/") eqn:Ha; [now constructor|].
  destruct (split_on "/" s) as [|h t]; [repeat constructor; simpl; now rewrite Ha|].
  apply Forall_cons in IH as [Hh Ht].
  constructor; [|exact Ht]. simpl. now rewrite Ha, Hh.
Qed.

Lemma no_slash_substring (s : string) (i n : nat) :
  no_slash s = true -> no_slash (substring i n s) = true.
Proof.
  revert i n. induction s as [|a s IH]; intros i n H.
  - destruct i, n; reflexivity.
  - simpl in H. apply andb_true_iff in H as [Ha Hs].
    destruct i as [|i]; [destruct n as [|n]|]; simpl; [reflexivity | | now apply IH].
    now rewrite Ha, IH.
Qed.

Lemma path_name_no_slash (s : string) : no_slash (path_name s) = true.
Proof.
  unfold path_name, path_parts.
  assert (H : Forall (fun x => no_slash x = true)
                (filter (fun x => Is_true (kept_component x)) (split_on "/" s))).
  { apply Forall_forall. intros x Hx. apply list_elem_of_filter in Hx as [_ Hx].
    pose proof (split_on_all_no_slash s) as Hall.
    rewrite Forall_forall in Hall. now apply Hall. }
  induction H as [|x l Hx Hl IH]; [reflexivity|].
  destruct l; [exact Hx | exact IH].
Qed.

Lemma name_stem_no_slash (s : string) :
  no_slash s = true -> no_slash (name_stem s) = true.
Proof.
  intros H. unfold name_stem.
  destruct (rfind "." s); [|exact H].
  destruct (_ && _); [now apply no_slash_substring | exact H].
Qed.

Lemma name_suffix_no_slash (s : string) :
  no_slash s = true -> no_slash (name_suffix s) = true.
Proof.
  intros H. unfold name_suffix.
  destruct (rfind "." s); [|reflexivity].
  destruct (_ && _); [now apply no_slash_substring | reflexivity].
Qed.

Lemma digit_char_no_slash (n : N) :
  Ascii.eqb (Split.digit_char (n mod 10)) "/" = false.
Proof.
  assert (H : (n mod 10 < 10)%N) by (apply N.mod_lt; discriminate).
  unfold Split.digit_char.
  destruct (n mod 10)%N as [|p]; [reflexivity|].
  do 4 (destruct p as [p|p|]; try reflexivity; try (exfalso; lia)).
Qed.

Lemma digits_no_slash (fuel : nat) (n : N) (acc : string) :
  no_slash acc = true -> no_slash (Split.digits fuel n acc) = true.
Proof.
  revert n acc. induction fuel as [|fuel IH]; intros n acc H; simpl; [exact H|].
  assert (H' : no_slash (String (Split.digit_char (n mod 10)) acc) = true)
    by (simpl; now rewrite digit_char_no_slash, H).
  destruct (n <? 10)%N; [exact H' | now apply IH].
Qed.

Lemma str_of_Z_no_slash (z : Z) : no_slash (Split.str_of_Z z) = true.
Proof.
  unfold Split.str_of_Z, Split.str_of_N.
  destruct (z <? 0)%Z.
  - change (no_slash (Split.digits (S (N.to_nat (N.log2 (Z.abs_N z))))
                        (Z.abs_N z) "") = true).
    now apply digits_no_slash.
  - now apply digits_no_slash.
Qed.

Lemma hex_char_no_slash (n : N) :
  Ascii.eqb (hex_char (n mod 16)) "/" = false.
Proof.
  assert (H : (n mod 16 < 16)%N) by (apply N.mod_lt; discriminate).
  unfold hex_char.
  destruct (n mod 16)%N as [|p]; [reflexivity|].
  do 5 (destruct p as [p|p|]; try reflexivity; try (exfalso; lia)).
Qed.

Lemma hex_digits_no_slash (k : nat) (n : N) (acc : string) :
  no_slash acc = true -> no_slash (hex_digits k n acc) = true.
Proof.
  revert n acc. induction k as [|k IH]; intros n acc H; simpl; [exact H|].
  apply IH. simpl. now rewrite hex_char_no_slash, H.
Qed.

Lemma hex8_no_slash (n : N) : no_slash (hex8 n) = true.
Proof. now apply hex_digits_no_slash. Qed.

(** A generated file name is one plain component, whatever the client
    called the upload. *)
Lemma generated_name_no_slash (clock : nat -> Q) (uuid : nat -> N)
  (original_name : string) (w : world) :
  no_slash (generated_name clock uuid original_name None w) = true.
Proof.
  unfold generated_name, path_stem, path_suffix.
  rewrite !no_slash_app.
  rewrite name_stem_no_slash by apply path_name_no_slash.
  rewrite str_of_Z_no_slash, hex8_no_slash.
  rewrite name_suffix_no_slash by apply path_name_no_slash.
  reflexivity.
Qed.

Lemma underscored_kept (a b : string) : kept_component (a ++ String "_" b) = true.
Proof.
  destruct a as [|x a]; [reflexivity|].
  destruct a as [|y a]; simpl.
  - unfold kept_component. simpl.
    destruct (Ascii.eqb x "."); reflexivity.
  - unfold kept_component. simpl.
    destruct (Ascii.eqb x "."); reflexivity.
Qed.

Lemma generated_name_kept (clock : nat -> Q) (uuid : nat -> N)
  (original_name : string) (extension : option string) (w : world) :
  kept_component (generated_name clock uuid original_name extension w) = true.
Proof. unfold generated_name. apply underscored_kept. Qed.

Lemma no_slash_relative (s : string) :
  no_slash s = true -> starts_with_slash s = false.
Proof.
  destruct s as [|a s]; [reflexivity|]. simpl.
  intros H. apply andb_true_iff in H as [Ha _]. now apply negb_true_iff in Ha.
Qed.

Lemma parts_keep (x : string) (l : list string) :
  kept_component x = true ->
  filter (fun x => Is_true (kept_component x)) (x :: l)
  = x :: filter (fun x => Is_true (kept_component x)) l.
Proof. intros H. apply filter_cons_True. now rewrite H. Qed.

(** [pathlib] leaves a joined list of plain components as it is. *)
Lemma path_parts_join (l : list string) :
  l <> [] ->
  Forall (fun x => plain_name x = true) l ->
  path_parts (join "/" l) = l.
Proof.
  intros Hne H. induction H as [|x l Hx Hl IH]; [congruence|].
  apply andb_true_iff in Hx as [Hs Hk].
  destruct l as [|y t].
  - simpl. unfold path_parts. rewrite split_on_no_slash by assumption.
    rewrite parts_keep by assumption. reflexivity.
  - change (join "/" (x :: y :: t)) with (x ++ String "/" (join "/" (y :: t))).
    unfold path_parts. rewrite split_on_app, split_on_no_slash by assumption.
    simpl app. rewrite parts_keep by assumption.
    f_equal. apply IH. discriminate.
Qed.

Lemma plain_generated_name (clock : nat -> Q) (uuid : nat -> N)
  (original_name : string) (w : world) :
  plain_name (generated_name clock uuid original_name None w) = true.
Proof.
  unfold plain_name.
  now rewrite generated_name_no_slash, generated_name_kept.
Qed.

(** Where an upload is saved: in [uploads/<subdir>/], under its generated
    name, whatever name the client gave it. *)
Lemma saved_path_key (clock : nat -> Q) (uuid : nat -> N) (file : UploadFile)
  (subdir : string) (w : world) :
  plain_name subdir = true ->
  path_key (saved_path clock uuid file subdir w)
  = [""; "uploads"; subdir;
     generated_name clock uuid (filename_or file "file") None w].
Proof.
  intros Hsub. unfold saved_path.
  set (fname := generated_name clock uuid (filename_or file "file") None w).
  pose proof (plain_generated_name clock uuid (filename_or file "file") w) as Hf.
  fold fname in Hf.
  assert (Hs : no_slash subdir = true)
    by (now apply andb_true_iff in Hsub as [? _]).
  assert (Hn : no_slash fname = true)
    by (now apply andb_true_iff in Hf as [? _]).
  unfold path_join. rewrite (no_slash_relative subdir Hs), (no_slash_relative fname Hn).
  set (l := ["uploads"; subdir; fname]).
  assert (Hl : Forall (fun x => plain_name x = true) l)
    by (repeat constructor; assumption).
  assert (Hparts : path_parts ((UPLOAD_DIR ++ "/" ++ subdir) ++ "/" ++ fname) = l).
  { change ((UPLOAD_DIR ++ "/" ++ subdir) ++ "/" ++ fname)
      with ("." ++ String "/" (join "/" l)).
    unfold path_parts. rewrite split_on_app. simpl app.
    rewrite filter_cons_False by (simpl; tauto).
    apply (path_parts_join l); [discriminate | exact Hl]. }
  unfold path_key, path_str. rewrite Hparts.
  change (path_root ((UPLOAD_DIR ++ "/" ++ subdir) ++ "/" ++ fname)) with "".
  simpl append.
  change (path_root (String "u" _)) with "".
  f_equal. apply (path_parts_join l); [discriminate | exact Hl].
Qed.

(** The two directories are apart. *)
Lemma downloads_outside_uploads (k : key) :
  under_downloads k = true -> under_uploads k = false.
Proof.
  unfold under_downloads, under_uploads.
  change (path_key DOWNLOAD_DIR) with [""; "downloads"].
  change (path_key UPLOAD_DIR) with [""; "uploads"].
  destruct k as [|a [|b rest]]; cbn [is_prefix]; try discriminate.
  - now rewrite andb_false_r.
  - intros H. apply andb_true_iff in H as [_ H].
    apply andb_true_iff in H as [Hb _]. apply String.eqb_eq in Hb. subst b.
    now rewrite andb_false_r.
Qed.

(** A saved upload lies below the uploads directory. *)
Lemma saved_path_in_uploads (clock : nat -> Q) (uuid : nat -> N)
  (file : UploadFile) (subdir : string) (w : world) :
  plain_name subdir = true ->
  under_uploads (path_key (saved_path clock uuid file subdir w)) = true.
Proof. intros Hsub. now rewrite saved_path_key. Qed.

Lemma saved_path_not_outside (clock : nat -> Q) (uuid : nat -> N)
  (file : UploadFile) (subdir : string) (w : world) (k : key) :
  plain_name subdir = true -> under_uploads k = false ->
  k <> path_key (saved_path clock uuid file subdir w).
Proof.
  intros Hsub Hk ->. rewrite saved_path_in_uploads in Hk by assumption.
  discriminate.
Qed.

Lemma saved_all_not_outside (clock : nat -> Q) (uuid : nat -> N)
  (files : list UploadFile) (subdir : string) (w : world) (k : key) :
  plain_name subdir = true -> under_uploads k = false ->
  Forall (fun p => k <> path_key p) (snd (saved_all clock uuid files subdir w)).
Proof.
  intros Hsub Hk. revert w. induction files as [|file rest IH]; intros w.
  - constructor.
  - simpl. specialize (IH (saved_world clock uuid file subdir w)).
    destruct (saved_all clock uuid rest subdir _) as [w' paths]. simpl in *.
    constructor; [now apply saved_path_not_outside | exact IH].
Qed.

(** *** app/api/v1/image.py: [/adjust], the one handler that cleans up
    more than its upload *)
Section Adjust.

Variable clock : nat -> Q.
Variable uuid : nat -> N.

(** The image services, by what they do to the world given the source
    path, the destination path and the factor; and [shutil.copy]. *)
Variable adjust_brightness : string -> string -> Q -> io unit.
Variable adjust_contrast : string -> string -> Q -> io unit.
Variable adjust_saturation : string -> string -> Q -> io unit.
Variable shutil_copy : string -> string -> io unit.

(** [f"{settings.UPLOAD_DIR}/{prefix}{int(time.time())}{ext}"]. *)
Definition temp_path_at (prefix ext : string) (now : Q) : string :=
  UPLOAD_DIR ++ "/" ++ prefix ++ Split.str_of_Z (int_of_float now) ++ ext.

(** One of the two optional adjustments: the current file is adjusted
    into a new temporary file, which becomes the current one; an earlier
    temporary file is noted for cleanup. *)
Definition adjust_step (prefix ext input_path : string)
  (service : string -> string -> Q -> io unit) (factor : option Q)
  (state : string * list string) : io (string * list string) :=
  match factor with
  | None => mret state
  | Some f =>
      let (current_path, temp_paths) := state in
      now ← time_time clock;
      let temp_path := temp_path_at prefix ext now in
      service current_path temp_path f;;
      mret (temp_path,
            if String.eqb current_path input_path then temp_paths
            else (temp_paths ++ [current_path])%list)
  end.

(** The [try] block up to the last service call: the output name, the
    current file and the temporary files to clean up. *)
Definition adjust_services (file : UploadFile) (input_path : string)
  (brightness contrast saturation : option Q)
  : io (string * (string * list string)) :=
  let ext := path_suffix (filename_or file "image.jpg") in
  output_filename ← generate_filename clock uuid (filename_or file "adjusted") (Some ext);
  let output_path := DOWNLOAD_DIR ++ "/" ++ output_filename in
  state ← adjust_step "temp_bright_" ext input_path adjust_brightness brightness
            (input_path, []);
  state ← adjust_step "temp_contrast_" ext input_path adjust_contrast contrast state;
  match saturation with
  | Some f => adjust_saturation (fst state) output_path f
  | None => shutil_copy (fst state) output_path
  end;;
  mret (output_filename, state).

(** The rest of the [try] block: the cleanup of the temporary files, then
    the response. *)
Definition adjust_finish (start_time : Q) (input_path : string)
  (produced : string * (string * list string)) : io json :=
  let '(output_filename, (current_path, temp_paths)) := produced in
  let output_path := DOWNLOAD_DIR ++ "/" ++ output_filename in
  Api.cleanup_files temp_paths;;
  (if negb (String.eqb current_path input_path) then Api.cleanup_file current_path
   else mret tt);;
  file_size ← path_stat_size output_path;
  now ← time_time clock;
  let processing_time := (now - start_time)%Q in
  mret (FileResponseModel ("/downloads/" ++ output_filename) output_filename
          file_size processing_time).

Definition adjust_image (file : UploadFile) (brightness contrast saturation : option Q)
  : io json :=
  single_upload_handler clock uuid validate_image_file "adjust" file
    (fun start_time input_path =>
       produced ← adjust_services file input_path brightness contrast saturation;
       adjust_finish start_time input_path produced).

(** A temporary file of [/adjust]. *)
Definition is_temp_path (ext p : string) : Prop :=
  exists prefix now,
    (prefix = "temp_bright_" \/ prefix = "temp_contrast_")
    /\ p = temp_path_at prefix ext now.

Lemma temp_path_not_outside (ext p : string) (k : key) :
  no_slash ext = true -> is_temp_path ext p -> under_uploads k = false ->
  k <> path_key p.
Proof.
  clear adjust_brightness adjust_contrast adjust_saturation shutil_copy.
  intros Hext (prefix & now & Hp & ->) Hk ->.
  unfold temp_path_at in Hk.
  set (name := prefix ++ Split.str_of_Z (int_of_float now) ++ ext) in *.
  assert (Hname : plain_name name = true).
  { unfold plain_name, name. rewrite !no_slash_app, str_of_Z_no_slash, Hext.
    destruct Hp as [-> | ->]; reflexivity. }
  assert (Hl : Forall (fun x => plain_name x = true) ["uploads"; name])
    by (repeat constructor; assumption).
  assert (Hparts : path_parts (UPLOAD_DIR ++ "/" ++ name) = ["uploads"; name]).
  { change (UPLOAD_DIR ++ "/" ++ name)
      with ("." ++ String "/" (join "/" ["uploads"; name])).
    unfold path_parts. rewrite split_on_app. simpl app.
    rewrite filter_cons_False by (simpl; tauto).
    apply (path_parts_join ["uploads"; name]); [discriminate | exact Hl]. }
  unfold path_key in Hk. rewrite Hparts in Hk. discriminate.
Qed.

Lemma adjust_step_paths (prefix ext input_path : string)
  (service : string -> string -> Q -> io unit) (factor : option Q)
  (state state' : string * list string) (w w' : world) :
  prefix = "temp_bright_" \/ prefix = "temp_contrast_" ->
  (fst state = input_path \/ is_temp_path ext (fst state)) ->
  Forall (is_temp_path ext) (snd state) ->
  adjust_step prefix ext input_path service factor state w = (w', Return state') ->
  (fst state' = input_path \/ is_temp_path ext (fst state'))
  /\ Forall (is_temp_path ext) (snd state').
Proof.
  intros Hp Hcur Htemps H. unfold adjust_step in H.
  destruct factor as [f|].
  2:{ injection H as <- <-. split; assumption. }
  destruct state as [current_path temp_paths]. simpl in Hcur, Htemps.
  unfold mbind at 1, io_bind at 1 in H. rewrite time_time_run in H.
  unfold mbind at 1, io_bind at 1 in H.
  destruct (service _ _ _ _) as [w2 [u|e]]; [|discriminate].
  injection H as <- <-. simpl. split.
  - right. exists prefix, (clock (w_ticks w)). split; [exact Hp | reflexivity].
  - destruct (String.eqb_spec current_path input_path) as [Heq|Hne];
      [exact Htemps|].
    apply Forall_app. split; [exact Htemps|].
    constructor; [|constructor].
    destruct Hcur as [Hc|Hc]; [contradiction | exact Hc].
Qed.

(** What [/adjust] notes for cleanup are temporary files of its own. *)
Lemma adjust_services_paths (file : UploadFile) (input_path : string)
  (brightness contrast saturation : option Q) (w w' : world)
  (output_filename current_path : string) (temp_paths : list string) :
  adjust_services file input_path brightness contrast saturation w
  = (w', Return (output_filename, (current_path, temp_paths))) ->
  let ext := path_suffix (filename_or file "image.jpg") in
  (current_path = input_path \/ is_temp_path ext current_path)
  /\ Forall (is_temp_path ext) temp_paths.
Proof.
  intros H. unfold adjust_services in H.
  unfold mbind at 1, io_bind at 1 in H. rewrite generate_filename_run in H.
  unfold mbind at 1, io_bind at 1 in H.
  destruct (adjust_step "temp_bright_" _ _ _ _ _ _) as [w1 [st1|e]] eqn:H1;
    [|discriminate].
  apply adjust_step_paths in H1 as [Hc1 Ht1]; [|now left|now left|constructor].
  unfold mbind at 1, io_bind at 1 in H.
  destruct (adjust_step "temp_contrast_" _ _ _ _ _ _) as [w2 [st2|e]] eqn:H2;
    [|discriminate].
  apply adjust_step_paths in H2 as [Hc2 Ht2]; [|now right|assumption|assumption].
  unfold mbind at 1, io_bind at 1 in H.
  destruct st2 as [cur temps].
  destruct saturation as [f|];
    destruct (_ (fst (cur, temps)) _) as [w3 [u|e]]; try discriminate;
    injection H as <- <- <- <-; split; assumption.
Qed.

Lemma cleanup_file_step_spares (p : string) (w : world) (k : key) :
  k <> path_key p ->
  files (w_fs (fst (Api.cleanup_file p w))) !! k = files (w_fs w) !! k.
Proof.
  intros Hk. unfold Api.cleanup_file.
  pose proof (cleanup_file_other p (w_fs w) k Hk) as H.
  destruct (FileUtil.cleanup_file p (w_fs w)) as [s r]. exact H.
Qed.

Lemma cleanup_files_step_spares (ps : list string) (w : world) (k : key) :
  Forall (fun p => k <> path_key p) ps ->
  files (w_fs (fst (Api.cleanup_files ps w))) !! k = files (w_fs w) !! k.
Proof.
  intros Hk. unfold Api.cleanup_files.
  pose proof (cleanup_files_other ps (w_fs w) k Hk) as H.
  destruct (FileUtil.cleanup_files ps (w_fs w)) as [s r]. exact H.
Qed.

(** The rest of the [try] block of [/adjust] leaves the files below
    downloads as the services left them. *)
Lemma adjust_finish_spares (start_time : Q) (input_path output_filename
  current_path : string) (temp_paths : list string) (w : world) (k : key) :
  Forall (fun p => k <> path_key p) temp_paths ->
  (current_path = input_path \/ k <> path_key current_path) ->
  files (w_fs (fst (adjust_finish start_time input_path
                      (output_filename, (current_path, temp_paths)) w))) !! k
  = files (w_fs w) !! k.
Proof.
  intros Ht Hc. unfold adjust_finish.
  unfold mbind at 1, io_bind at 1.
  pose proof (cleanup_files_step_spares temp_paths w k Ht) as H1.
  assert (R1 : snd (Api.cleanup_files temp_paths w) = Return tt).
  { unfold Api.cleanup_files.
    pose proof (cleanup_files_returns temp_paths (w_fs w)) as R.
    destruct (FileUtil.cleanup_files temp_paths (w_fs w)). exact R. }
  destruct (Api.cleanup_files temp_paths w) as [w1 r1]. simpl in H1, R1. subst r1.
  unfold mbind at 1, io_bind at 1.
  set (step := if negb (String.eqb current_path input_path)
               then Api.cleanup_file current_path else mret tt).
  assert (H2 : files (w_fs (fst (step w1))) !! k = files (w_fs w1) !! k
               /\ snd (step w1) = Return tt).
  { subst step. destruct (String.eqb current_path input_path) eqn:E.
    - split; reflexivity.
    - apply String.eqb_neq in E.
      destruct Hc as [Hc|Hc]; [contradiction|].
      change (if negb false then Api.cleanup_file current_path else mret tt)
        with (Api.cleanup_file current_path).
      split; [now apply cleanup_file_step_spares|].
      unfold Api.cleanup_file.
      pose proof (cleanup_file_returns current_path (w_fs w1)) as R.
      destruct (FileUtil.cleanup_file current_path (w_fs w1)). exact R. }
  destruct H2 as [H2 R2]. destruct (step w1) as [w2 r2]. simpl in H2, R2. subst r2.
  unfold mbind at 1, io_bind at 1. unfold path_stat_size.
  destruct (stat_size _ (w_fs w2)); simpl; congruence.
Qed.

End Adjust.

(** *** What the handlers remove *)

(** A handler of one upload removes at most the upload it saved. *)
Lemma single_handler_removes_upload (clock : nat -> Q) (uuid : nat -> N)
  (validate : UploadFile -> result unit) (subdir : string) (file : UploadFile)
  (body : Q -> string -> io json) (w : world) (k : key) :
  validate file = Return tt ->
  k <> path_key (saved_path clock uuid file subdir (tick w)) ->
  files (w_fs (fst (single_upload_handler clock uuid validate subdir file body w))) !! k
  = files (w_fs (fst (body (clock (w_ticks w))
                        (saved_path clock uuid file subdir (tick w))
                        (saved_world clock uuid file subdir (tick w))))) !! k.
Proof.
  intros Hv Hk.
  rewrite single_upload_handler_run by assumption.
  rewrite try_finally_cleanup_file. cbn [fst set_fs w_fs].
  now apply cleanup_file_other.
Qed.

(** A handler of a list of uploads removes at most those. *)
Lemma multi_handler_removes_uploads (clock : nat -> Q) (uuid : nat -> N)
  (subdir : string) (files_in : list UploadFile)
  (body : Q -> list string -> io json) (w : world) (k : key) :
  Forall (fun p => k <> path_key p)
    (snd (saved_all clock uuid files_in subdir (tick w))) ->
  files (w_fs (fst (multi_upload_handler clock uuid (Return tt) subdir files_in
                      body w))) !! k
  = files (w_fs (fst (body (clock (w_ticks w))
                        (snd (saved_all clock uuid files_in subdir (tick w)))
                        (fst (saved_all clock uuid files_in subdir (tick w)))))) !! k.
Proof.
  intros Hk.
  rewrite multi_upload_handler_run.
  rewrite try_finally_cleanup_files. cbn [fst set_fs w_fs].
  now apply cleanup_files_other.
Qed.

(** [/add-image] removes at most its two uploads. *)
Lemma two_handler_removes_uploads (clock : nat -> Q) (uuid : nat -> N)
  (validate : UploadFile -> result unit) (subdir : string) (file image : UploadFile)
  (body : Q -> string -> string -> io json) (w : world) (k : key) :
  validate file = Return tt ->
  let input_path := saved_path clock uuid file subdir (tick w) in
  let w1 := saved_world clock uuid file subdir (tick w) in
  let image_path := saved_path clock uuid image subdir w1 in
  k <> path_key input_path -> k <> path_key image_path ->
  files (w_fs (fst (two_upload_handler clock uuid validate subdir file image
                      body w))) !! k
  = files (w_fs (fst (body (clock (w_ticks w)) input_path image_path
                        (saved_world clock uuid image subdir w1)))) !! k.
Proof.
  intros Hv. cbv zeta. intros H1 H2.
  rewrite (two_upload_handler_run clock uuid _ _ _ _ _ _ Hv).
  rewrite try_finally_cleanup_files. cbn [fst set_fs w_fs].
  apply cleanup_files_other.
  constructor; [exact H1|]. constructor; [exact H2 | constructor].
Qed.

(** [/adjust] removes nothing outside the upload directory. *)
Lemma adjust_removes_in_uploads (clock : nat -> Q) (uuid : nat -> N)
  (adjust_brightness adjust_contrast adjust_saturation : string -> string -> Q -> io unit)
  (shutil_copy : string -> string -> io unit)
  (file : UploadFile) (brightness contrast saturation : option Q)
  (w : world) (k : key) :
  validate_image_file file = Return tt -> under_uploads k = false ->
  files (w_fs (fst (adjust_image clock uuid adjust_brightness adjust_contrast
                      adjust_saturation shutil_copy file brightness contrast
                      saturation w))) !! k
  = files (w_fs (fst (adjust_services clock uuid adjust_brightness adjust_contrast
                        adjust_saturation shutil_copy file
                        (saved_path clock uuid file "adjust" (tick w))
                        brightness contrast saturation
                        (saved_world clock uuid file "adjust" (tick w))))) !! k.
Proof.
  intros Hv Hk. unfold adjust_image.
  rewrite single_handler_removes_upload
    by (assumption || (apply saved_path_not_outside; [reflexivity | assumption])).
  unfold mbind at 1, io_bind at 1.
  destruct (adjust_services _ _ _ _ _ _ _ _ _ _ _ _) as [w2 [produced|e]] eqn:Hs;
    [|reflexivity].
  destruct produced as [output_filename [current_path temp_paths]].
  apply adjust_services_paths in Hs as [Hc Ht].
  assert (Hext : no_slash (path_suffix (filename_or file "image.jpg")) = true)
    by (apply name_suffix_no_slash, path_name_no_slash).
  simpl fst. apply adjust_finish_spares.
  - eapply List.Forall_impl; [|exact Ht].
    intros p Hp. now apply (temp_path_not_outside _ p k Hext).
  - destruct Hc as [Hc|Hc]; [now left|right].
    now apply (temp_path_not_outside _ current_path k Hext).
Qed.

(** *** What the sweep removes *)

Lemma older_iff (now : Q) (m : file_meta) :
  older now m = true <-> (3600 < now - st_mtime m)%Q.
Proof.
  unfold older, max_age. rewrite negb_true_iff.
  split.
  - intros H. apply Qnot_le_lt. intros Hle.
    apply Qle_bool_iff in Hle. congruence.
  - intros H. destruct (Qle_bool (now - st_mtime m) 3600) eqn:E; [|reflexivity].
    apply Qle_bool_iff in E. exfalso. now apply (Qlt_not_le _ _ H).
Qed.

(** The file at [k] is within reach of the sweep: it lies below the
    upload or the download directory, and that directory exists. *)
Definition in_reach (s : fs) (k : key) : bool :=
  swept_in UPLOAD_DIR s k || swept_in DOWNLOAD_DIR s k.

Lemma cleanup_old_files_lookup (now : Q) (s : fs) (k : key) :
  files (fst (cleanup_old_files now s)) !! k
  = swept_entry (in_reach s k) now (files s !! k).
Proof.
  unfold cleanup_old_files, in_reach. simpl fold_left. simpl fst.
  rewrite !sweep_directory_lookup, swept_entry_twice.
  f_equal. rewrite orb_comm. f_equal.
  unfold swept_in. f_equal.
  unfold os_path_exists, key_exists.
  rewrite sweep_directory_dirs, sweep_directory_lookup.
  replace (swept_in UPLOAD_DIR s (path_key DOWNLOAD_DIR)) with false.
  - now rewrite swept_entry_out_of_reach.
  - unfold swept_in. now rewrite andb_false_r.
Qed.

(** The words of the specification on a handler's cleanup: of the files
    the [try] block's services left ([before]), the completed request
    ([after]) has removed or changed none but the temporary input files
    the handler saved. *)
Definition removes_at_most (inputs : list string) (before after : world) : Prop :=
  forall k : key,
    ~ In k (map path_key inputs) ->
    files (w_fs after) !! k = files (w_fs before) !! k.

(** The same of a directory: nothing outside the upload directory is
    removed or changed. *)
Definition removes_in_uploads (before after : world) : Prop :=
  forall k : key,
    under_uploads k = false ->
    files (w_fs after) !! k = files (w_fs before) !! k.

Lemma not_in_keys (k : key) (ps : list string) :
  ~ In k (map path_key ps) -> Forall (fun p => k <> path_key p) ps.
Proof.
  intros H. apply List.Forall_forall. intros p Hp ->.
  apply H, in_map, Hp.
Qed.

(** A sample [/adjust] request: a brightness factor and nothing else, with
    services that write their destination. *)
Definition photo : UploadFile :=
  {| filename := Some "photo.jpg"; content_size := 2048 |}.
Definition sample_adjustment (src dst : string) (_ : Q) : io unit :=
  writing_service src dst.
Definition sample_adjust_services (input_path : string) : io _ :=
  adjust_services sample_clock sample_uuid sample_adjustment sample_adjustment
    sample_adjustment writing_service photo input_path (Some (6 # 5)) None None.
Definition sample_adjust : io json :=
  adjust_image sample_clock sample_uuid sample_adjustment sample_adjustment
    sample_adjustment writing_service photo (Some (6 # 5)) None None.

Example sample_adjust_response :
  snd (sample_adjust empty_world)
  = Return (JObj [("success", JBool true);
                  ("file_url", JStr "/downloads/photo_1700000002_00000bef.jpg");
                  ("filename", JStr "photo_1700000002_00000bef.jpg");
                  ("file_size", JInt 777);
                  ("processing_time", JFloat 4)]).
Proof. vm_compute. reflexivity. Qed.

(** C7.  A handler's [finally] removes the upload or uploads it saved and
    nothing else: every other file is, when the request completes, as the
    [try] block (its services) left it.  [/adjust] besides removes, at the
    end of its [try] block, the intermediate files it had put into the
    upload directory, and nothing outside that directory.  The uploads a
    handler saves lie below the upload directory, and no file below the
    downloads directory lies below the upload directory: so no handler
    removes a file below downloads.  [cleanup_old_files] removes a file
    exactly when it lies below the upload or the download directory, its
    modification time is more than 3600 seconds in the past and removing
    it raises no error; it never removes a younger file, leaves every
    other file as it was, and never raises. *)
Theorem outputs_removed_only_by_sweep :
  (forall clock uuid validate subdir file body w,
     validate file = Return tt ->
     let input_path := saved_path clock uuid file subdir (tick w) in
     removes_at_most [input_path]
       (fst (body (clock (w_ticks w)) input_path
               (saved_world clock uuid file subdir (tick w))))
       (fst (single_upload_handler clock uuid validate subdir file body w)))
  /\ (forall clock uuid subdir files_in body w,
        let saved := saved_all clock uuid files_in subdir (tick w) in
        removes_at_most (snd saved)
          (fst (body (clock (w_ticks w)) (snd saved) (fst saved)))
          (fst (multi_upload_handler clock uuid (Return tt) subdir files_in
                  body w)))
  /\ (forall clock uuid validate subdir file image body w,
        validate file = Return tt ->
        let input_path := saved_path clock uuid file subdir (tick w) in
        let w1 := saved_world clock uuid file subdir (tick w) in
        let image_path := saved_path clock uuid image subdir w1 in
        removes_at_most [input_path; image_path]
          (fst (body (clock (w_ticks w)) input_path image_path
                  (saved_world clock uuid image subdir w1)))
          (fst (two_upload_handler clock uuid validate subdir file image body w)))
  /\ (forall clock uuid brighten contrast_op saturate copy file b c sat w,
        validate_image_file file = Return tt ->
        removes_in_uploads
          (fst (adjust_services clock uuid brighten contrast_op saturate copy file
                  (saved_path clock uuid file "adjust" (tick w)) b c sat
                  (saved_world clock uuid file "adjust" (tick w))))
          (fst (adjust_image clock uuid brighten contrast_op saturate copy
                  file b c sat w)))
  /\ (forall clock uuid file subdir w,
        plain_name subdir = true ->
        under_uploads (path_key (saved_path clock uuid file subdir w)) = true)
  /\ (forall k, under_downloads k = true -> under_uploads k = false)
  /\ (forall now s k m,
        files s !! k = Some m ->
        let after := files (fst (cleanup_old_files now s)) !! k in
        (after = None <->
           in_reach s k = true /\ (3600 < now - st_mtime m)%Q /\ deletable m = true)
        /\ (after = None \/ after = Some m)
        /\ ((now - st_mtime m <= 3600)%Q -> after = Some m))
  /\ (forall now s k,
        files s !! k = None -> files (fst (cleanup_old_files now s)) !! k = None)
  /\ (forall now s, returns (snd (cleanup_old_files now s)) = true).
Proof.
  split.
  { intros clock uuid validate subdir file body w Hv input_path k Hk.
    apply single_handler_removes_upload; [exact Hv|].
    intros ->. apply Hk. now left. }
  split.
  { intros clock uuid subdir files_in body w saved k Hk.
    apply multi_handler_removes_uploads. now apply not_in_keys. }
  split.
  { intros clock uuid validate subdir file image body w Hv input_path w1
      image_path k Hk.
    apply two_handler_removes_uploads; [exact Hv| |].
    - intros ->. apply Hk. now left.
    - intros ->. apply Hk. right. now left. }
  split.
  { intros clock uuid brighten contrast_op saturate copy file b c sat w Hv k Hk.
    now apply adjust_removes_in_uploads. }
  split; [exact saved_path_in_uploads|].
  split; [exact downloads_outside_uploads|].
  split; [|split; [|reflexivity]].
  - intros now s k m Hm after. subst after.
    rewrite cleanup_old_files_lookup, Hm. unfold swept_entry.
    pose proof (older_iff now m) as Ho.
    destruct (in_reach s k), (older now m) eqn:Eo, (deletable m); simpl.
    all: split; [split|split].
    all: try (intros; discriminate).
    all: try (intros (? & ? & ?); discriminate).
    all: try (intros (? & Hlt & ?); apply Ho in Hlt; discriminate).
    all: try (intros; repeat split; try reflexivity; now apply Ho).
    all: try (now left).
    all: try (now right).
    all: try reflexivity.
    all: try (intros Hle; exfalso;
              apply (Qlt_not_le _ _ (proj1 Ho eq_refl)); exact Hle).
  - intros now s k Hk. now rewrite cleanup_old_files_lookup, Hk.
Qed.

(** The sweep at time 5000 removes the download written at 1000 and keeps
    the one written at 4000; the sample [/adjust] request leaves the
    output it wrote below downloads in place. *)
Lemma outputs_removed_only_by_sweep_witness :
  files (fst (cleanup_old_files 5000 sample_fs)) !! [""; "downloads"; "old.docx"]
  = None
  /\ files (fst (cleanup_old_files 5000 sample_fs))
       !! [""; "downloads"; "split_1"; "fresh.pdf"]
     = Some {| st_size := 20; st_mtime := 4000; deletable := true |}
  /\ validate_image_file photo = Return tt
  /\ files (w_fs (fst (sample_adjust empty_world)))
       !! [""; "downloads"; "photo_1700000002_00000bef.jpg"]
     = Some {| st_size := 777; st_mtime := 1700000004; deletable := true |}.
Proof.
  destruct outputs_removed_only_by_sweep
    as (_ & _ & _ & Hadjust & _ & _ & Hsweep & _).
  split; [|split; [|split; [reflexivity|]]].
  - apply (Hsweep 5000%Q sample_fs [""; "downloads"; "old.docx"]
             {| st_size := 10; st_mtime := 1000; deletable := true |} eq_refl).
    repeat split.
  - apply (Hsweep 5000%Q sample_fs [""; "downloads"; "split_1"; "fresh.pdf"]
             {| st_size := 20; st_mtime := 4000; deletable := true |} eq_refl).
    discriminate.
  - unfold sample_adjust.
    rewrite (Hadjust sample_clock sample_uuid sample_adjustment sample_adjustment
               sample_adjustment writing_service photo (Some (6 # 5)) None None
               empty_world eq_refl
               [""; "downloads"; "photo_1700000002_00000bef.jpg"] eq_refl).
    vm_compute. reflexivity.
Defined.

(** C7, the sentence as worded.  The sample [/adjust] request removes a
    file that is not the upload it saved: the intermediate file that the
    brightness service wrote into the upload directory is there when the
    services are done and gone when the request completes. *)
Lemma adjust_removes_intermediate_file :
  let input_path :=
    saved_path sample_clock sample_uuid photo "adjust" (tick empty_world) in
  let before :=
    fst (sample_adjust_services input_path
           (saved_world sample_clock sample_uuid photo "adjust" (tick empty_world))) in
  let after := fst (sample_adjust empty_world) in
  let k := path_key "./uploads/temp_bright_1700000003.jpg" in
  validate_image_file photo = Return tt
  /\ ~ In k (map path_key [input_path])
  /\ files (w_fs before) !! k
     = Some {| st_size := 777; st_mtime := 1700000004; deletable := true |}
  /\ files (w_fs after) !! k = None
  /\ ~ removes_at_most [input_path] before after.
Proof.
  cbv zeta.
  assert (Hk : ~ In (path_key "./uploads/temp_bright_1700000003.jpg")
                 (map path_key
                    [saved_path sample_clock sample_uuid photo "adjust"
                       (tick empty_world)])).
  { intros [H|[]]. vm_compute in H. discriminate H. }
  split; [reflexivity|]. split; [exact Hk|].
  split; [vm_compute; reflexivity|]. split; [vm_compute; reflexivity|].
  intros H. specialize (H _ Hk). vm_compute in H. discriminate H.
Qed.

End Retention.

(** ** app/services/image/passport.py: [create_passport_photo]

    Python computes the layout in binary floating point.  Here every
    floating-point operation is the exact rational operation followed by a
    rounding [rnd], which is a variable: a float literal is [rnd] of its
    decimal, [int / int] and [int * float] round the exact result (an
    integer operand being converted, hence rounded, first).  The layout
    theorem asks of [rnd] only a relative error of at most one in a
    thousand on the range the layout works in; IEEE doubles round to
    nearest with a relative error of at most 2^-53 there. *)
Module Passport.
#[local] Open Scope Z_scope.

(** Standard passport photo sizes, width by height in millimetres. *)
Definition PASSPORT_SIZES : list (string * (Z * Z)) :=
  [("us", (51, 51)); ("uk", (35, 45)); ("eu", (35, 45)); ("india", (35, 45));
   ("china", (33, 48)); ("japan", (35, 45)); ("canada", (50, 70));
   ("australia", (35, 45))].

Definition PRINT_DPI : Z := 300.

(** [d.get(k, default)]. *)
Fixpoint dict_get {V : Type} (d : list (string * V)) (k : string) (default : V) : V :=
  match d with
  | [] => default
  | (k', v) :: rest => if String.eqb k k' then v else dict_get rest k default
  end.

(** [if custom_width_mm and custom_height_mm: ... else: ...]: a custom
    value counts when it is given and not zero. *)
Definition select_dims (size : string) (custom_width_mm custom_height_mm : option Z)
  : Z * Z :=
  if Split.truthy_int custom_width_mm && Split.truthy_int custom_height_mm
  then (default 0 custom_width_mm, default 0 custom_height_mm)
  else dict_get PASSPORT_SIZES (PyStr.lower size) (51, 51).

(** The dimensions in the words of the description: the custom values
    "when both are given". *)
Definition described_dims (size : string) (custom_width_mm custom_height_mm : option Z)
  : Z * Z :=
  match custom_width_mm, custom_height_mm with
  | Some w, Some h => (w, h)
  | _, _ => dict_get PASSPORT_SIZES (PyStr.lower size) (51, 51)
  end.

(** Where the foreground goes: the canvas, the size the foreground is
    scaled to, and the corner it is pasted at. *)
Record layout : Type := {
  canvas_width : Z;
  canvas_height : Z;
  new_width : Z;
  new_height : Z;
  x_offset : Z;
  y_offset : Z
}.

Section Floats.

Variable rnd : Q -> Q.

(** [float(n)]. *)
Definition float_of_int (n : Z) : Q := rnd (inject_Z n).

(** The literals of the source. *)
Definition lit_25_4 : Q := rnd (254 # 10).
Definition lit_0_9 : Q := rnd (9 # 10).
Definition lit_0_05 : Q := rnd (5 # 100).
Definition head_ratio : Q := rnd (75 # 100).

(** [a / b] on floats; Python raises ZeroDivisionError on a zero
    divisor. *)
Definition fdiv (a b : Q) : result Q :=
  if Qeq_bool b 0 then Raise ZeroDivisionError else Return (rnd (a / b)).

(** [a / b] on integers: the quotient, rounded once. *)
Definition true_div (a b : Z) : result Q :=
  if b =? 0 then Raise ZeroDivisionError
  else Return (rnd (inject_Z a / inject_Z b)).

Definition fmul (a b : Q) : Q := rnd (a * b).

(** [int(mm * dpi / 25.4)]. *)
Definition mm_to_pixels (mm : Z) : Z :=
  Api.int_of_float (rnd (float_of_int (mm * PRINT_DPI) / lit_25_4)).

(** Pillow's size checks: [Image.resize] wants both sides positive,
    [Image.new] wants neither negative. *)
Definition resize_check (w h : Z) : result unit :=
  if (w <? 1) || (h <? 1) then Raise (ValueError "height and width must be > 0")
  else Return tt.

Definition new_check (w h : Z) : result unit :=
  if (w <? 0) || (h <? 0) then Raise (ValueError "Width and height must be >= 0")
  else Return tt.

(** The scaling of the foreground to the target. *)
Definition scaled_size (target_width target_height fg_width fg_height : Z)
  : result (Z * Z) :=
  fg_aspect ← true_div fg_width fg_height;
  target_aspect ← true_div target_width target_height;
  if negb (Qle_bool fg_aspect target_aspect) then
    let new_width := Api.int_of_float (fmul (float_of_int target_width) lit_0_9) in
    q ← fdiv (float_of_int new_width) fg_aspect;
    mret (new_width, Api.int_of_float q)
  else
    let new_height := Api.int_of_float (fmul (float_of_int target_height) head_ratio) in
    mret (Api.int_of_float (fmul (float_of_int new_height) fg_aspect), new_height).

(** [create_passport_photo], on the outcome of parsing the background
    colour and of loading the foreground (its size, after background removal
    and cropping where available), to the layout of the saved image. *)
Definition create_passport_photo (size : string)
  (background : result (Z * Z * Z))
  (custom_width_mm custom_height_mm : option Z)
  (foreground : result (Z * Z)) : result layout :=
  let (width_mm, height_mm) := select_dims size custom_width_mm custom_height_mm in
  let target_width := mm_to_pixels width_mm in
  let target_height := mm_to_pixels height_mm in
  background;;
  '(fg_width, fg_height) ← foreground;
  '(new_width, new_height) ← scaled_size target_width target_height
                               fg_width fg_height;
  resize_check new_width new_height;;
  new_check target_width target_height;;
  let x_offset := (target_width - new_width) / 2 in
  let y_offset := target_height - new_height
                  - Api.int_of_float (fmul (float_of_int target_height) lit_0_05) in
  mret {| canvas_width := target_width; canvas_height := target_height;
          new_width := new_width; new_height := new_height;
          x_offset := x_offset; y_offset := y_offset |}.

End Floats.

(** A rounding is close when, on the range the layout works in, it is
    off by at most one part in a thousand. *)
Definition close (rnd : Q -> Q) : Prop :=
  forall x : Q,
    ((1 # 1000000000000) <= x /\ x <= 1000000000000)%Q ->
    ((999 # 1000) * x <= rnd x /\ rnd x <= (1001 # 1000) * x)%Q.

(** Sizes the layout theorem covers: between one and a hundred thousand
    pixels a side. *)
Definition pixels (n : Z) : Prop := 1 <= n <= 100000.

(** The foreground lies within the canvas, centred, above the bottom
    margin. *)
Definition placed (rnd : Q -> Q) (l : layout) : Prop :=
  1 <= new_width l <= canvas_width l
  /\ 1 <= new_height l <= canvas_height l
  /\ 0 <= x_offset l /\ x_offset l + new_width l <= canvas_width l
  /\ 0 <= y_offset l /\ y_offset l + new_height l <= canvas_height l
  /\ x_offset l = (canvas_width l - new_width l) / 2
  /\ y_offset l + new_height l
     = canvas_height l
       - Api.int_of_float (fmul rnd (float_of_int rnd (canvas_height l)) (lit_0_05 rnd)).

(** The scaled size follows the rule: 90% of the target width when the
    foreground is the wider of the two, 75% of the target height
    otherwise. *)
Definition fitted (rnd : Q -> Q) (fg_width fg_height : Z) (l : layout) : Prop :=
  forall fg_aspect target_aspect : Q,
    true_div rnd fg_width fg_height = Return fg_aspect ->
    true_div rnd (canvas_width l) (canvas_height l) = Return target_aspect ->
    ((target_aspect < fg_aspect)%Q ->
     new_width l
     = Api.int_of_float (fmul rnd (float_of_int rnd (canvas_width l)) (lit_0_9 rnd)))
    /\ ((fg_aspect <= target_aspect)%Q ->
        new_height l
        = Api.int_of_float (fmul rnd (float_of_int rnd (canvas_height l))
                              (head_ratio rnd))).

(** What [create_passport_photo] does on a loaded foreground: the scaling
    goes through; an empty scaled foreground makes [resize] raise; any
    other gives the photo, on a canvas of the selected size, the foreground
    placed and fitted. *)
Definition photo_spec (rnd : Q -> Q) (size : string)
  (background : result (Z * Z * Z)) (custom_width_mm custom_height_mm : option Z)
  (fg_width fg_height : Z) : Prop :=
  let dims := select_dims size custom_width_mm custom_height_mm in
  let target_width := mm_to_pixels rnd (fst dims) in
  let target_height := mm_to_pixels rnd (snd dims) in
  let made := create_passport_photo rnd size background custom_width_mm
                custom_height_mm (Return (fg_width, fg_height)) in
  exists nw nh,
    scaled_size rnd target_width target_height fg_width fg_height = Return (nw, nh)
    /\ if (nw <? 1) || (nh <? 1)
       then made = Raise (ValueError "height and width must be > 0")
       else exists l,
           made = Return l
           /\ canvas_width l = target_width /\ canvas_height l = target_height
           /\ new_width l = nw /\ new_height l = nh
           /\ placed rnd l /\ fitted rnd fg_width fg_height l.

(** Exact arithmetic, a rounding in which every hypothesis on [rnd] holds. *)
Definition exact (x : Q) : Q := x.

Example uk_portrait :
  create_passport_photo exact "UK" (Return (255, 255, 255)) None None
    (Return (400, 600))
  = Return {| canvas_width := 413; canvas_height := 531;
              new_width := 265; new_height := 398;
              x_offset := 74; y_offset := 107 |}.
Proof. vm_compute. reflexivity. Qed.

Example us_landscape :
  create_passport_photo exact "us" (Return (255, 255, 255)) None None
    (Return (800, 600))
  = Return {| canvas_width := 602; canvas_height := 602;
              new_width := 541; new_height := 405;
              x_offset := 30; y_offset := 167 |}.
Proof. vm_compute. reflexivity. Qed.

Example unknown_size_is_51 :
  select_dims "mars" None None = (51, 51)
  /\ select_dims "Canada" None (Some 40) = (50, 70)
  /\ select_dims "uk" (Some 40) (Some 50) = (40, 50).
Proof. repeat split. Qed.

Lemma exact_close : close exact.
Proof. intros x [Hlo Hhi]. unfold exact. split; lra. Qed.

Lemma int_of_float_floor (x : Q) :
  (0 <= x)%Q ->
  0 <= Api.int_of_float x /\ (inject_Z (Api.int_of_float x) <= x)%Q.
Proof.
  intros Hx. unfold Api.int_of_float.
  assert (Hn : 0 <= Qnum x).
  { destruct x as [n d]. unfold Qle in Hx. simpl in *. lia. }
  rewrite Z.quot_div_nonneg by lia.
  split; [apply Z.div_pos; lia|].
  destruct x as [n d]. apply (Qfloor_le (n # d)).
Qed.

Lemma pixels_Q (n : Z) :
  pixels n -> (1 <= inject_Z n /\ inject_Z n <= 100000)%Q.
Proof.
  intros [H1 H2]. split.
  - change 1%Q with (inject_Z 1). now rewrite <- Zle_Qle.
  - change 100000%Q with (inject_Z 100000). now rewrite <- Zle_Qle.
Qed.

Lemma quotient_range (a b : Q) :
  (1 <= a -> a <= 100000 -> 1 <= b -> b <= 100000 ->
   (1 # 100000) <= a / b /\ a / b <= 100000)%Q.
Proof.
  intros. split.
  - apply Qle_shift_div_l; [lra|]. nra.
  - apply Qle_shift_div_r; [lra|]. nra.
Qed.

Section Layout.

Variable rnd : Q -> Q.
Hypothesis rnd_close : close rnd.

(** The rounding of a pixel count. *)
Lemma float_of_pixels (n : Z) :
  pixels n ->
  ((999 # 1000) * inject_Z n <= float_of_int rnd n
   /\ float_of_int rnd n <= (1001 # 1000) * inject_Z n)%Q.
Proof using rnd_close.
  intros Hn. apply pixels_Q in Hn as [H1 H2].
  apply rnd_close. split; lra.
Qed.

(** The rounding of a literal between 1/100 and 1. *)
Lemma literal_close (c : Q) :
  ((1 # 100) <= c -> c <= 1 ->
   (999 # 1000) * c <= rnd c /\ rnd c <= (1001 # 1000) * c)%Q.
Proof using rnd_close. intros. apply rnd_close. split; lra. Qed.

(** A pixel count scaled by a literal, rounded and truncated. *)
Lemma scaled_by_literal (n : Z) (c : Q) :
  pixels n -> ((1 # 100) <= c)%Q -> (c <= 1)%Q ->
  0 <= Api.int_of_float (fmul rnd (float_of_int rnd n) (rnd c))
  /\ (inject_Z (Api.int_of_float (fmul rnd (float_of_int rnd n) (rnd c)))
      <= (1004 # 1000) * c * inject_Z n)%Q.
Proof using rnd_close.
  intros Hn Hc1 Hc2.
  pose proof (float_of_pixels n Hn) as [Hf1 Hf2].
  pose proof (literal_close c Hc1 Hc2) as [Hl1 Hl2].
  apply pixels_Q in Hn as [Hn1 Hn2].
  assert (Hp : ((999 # 1000) * ((999 # 1000) * ((999 # 1000) * c * inject_Z n))
                <= fmul rnd (float_of_int rnd n) (rnd c)
                /\ fmul rnd (float_of_int rnd n) (rnd c)
                   <= (1001 # 1000) * ((1001 # 1000) * ((1001 # 1000) * c * inject_Z n)))%Q).
  { unfold fmul.
    assert (Hprod : ((999 # 1000) * ((999 # 1000) * c * inject_Z n)
                     <= float_of_int rnd n * rnd c
                     /\ float_of_int rnd n * rnd c
                        <= (1001 # 1000) * ((1001 # 1000) * c * inject_Z n))%Q)
      by (split; nra).
    destruct Hprod as [Hp1 Hp2].
    destruct (rnd_close (float_of_int rnd n * rnd c)%Q) as [Hr1 Hr2];
      [split; nra|].
    split; nra. }
  destruct Hp as [Hp1 Hp2].
  destruct (int_of_float_floor (fmul rnd (float_of_int rnd n) (rnd c))) as [Hi1 Hi2];
    [nra|].
  split; [exact Hi1 | nra].
Qed.

(** The aspect ratio of two pixel counts. *)
Lemma aspect_close (a b : Z) :
  pixels a -> pixels b ->
  true_div rnd a b = Return (rnd (inject_Z a / inject_Z b))
  /\ ((999 # 1000) * inject_Z a <= rnd (inject_Z a / inject_Z b) * inject_Z b
      /\ rnd (inject_Z a / inject_Z b) * inject_Z b <= (1001 # 1000) * inject_Z a
      /\ (999 # 100000000) <= rnd (inject_Z a / inject_Z b)
      /\ rnd (inject_Z a / inject_Z b) <= 100100)%Q.
Proof using rnd_close.
  intros Ha Hb. split.
  - unfold true_div. destruct (Z.eqb_spec b 0) as [->|_]; [|reflexivity].
    destruct Hb. lia.
  - apply pixels_Q in Ha as [Ha1 Ha2]. apply pixels_Q in Hb as [Hb1 Hb2].
    pose proof (quotient_range _ _ Ha1 Ha2 Hb1 Hb2) as [Hq1 Hq2].
    destruct (rnd_close (inject_Z a / inject_Z b)%Q) as [Hr1 Hr2]; [split; lra|].
    assert (Hmul : (inject_Z a / inject_Z b * inject_Z b == inject_Z a)%Q)
      by (field; lra).
    repeat split; nra.
Qed.

Lemma Q_le_Z (a b : Z) : (inject_Z a <= inject_Z b)%Q -> a <= b.
Proof. intros H. now rewrite Zle_Qle. Qed.

(** The scaled foreground is no wider than the target and at most 91% of
    its height. *)
Lemma scaled_size_fits (target_width target_height fg_width fg_height nw nh : Z) :
  pixels target_width -> pixels target_height ->
  pixels fg_width -> pixels fg_height ->
  scaled_size rnd target_width target_height fg_width fg_height = Return (nw, nh) ->
  1 <= nw -> 1 <= nh ->
  nw <= target_width
  /\ (inject_Z nh <= (91 # 100) * inject_Z target_height)%Q.
Proof using rnd_close.
  intros Htw Hth Hfw Hfh Hs Hnw Hnh.
  unfold scaled_size in Hs.
  destruct (aspect_close fg_width fg_height Hfw Hfh) as [Ef (Hf1 & Hf2 & Hf3 & Hf4)].
  destruct (aspect_close target_width target_height Htw Hth)
    as [Et (Ht1 & Ht2 & Ht3 & Ht4)].
  rewrite Ef, Et in Hs. cbn [mbind result_bind] in Hs.
  set (Af := rnd (inject_Z fg_width / inject_Z fg_height)) in *.
  set (At := rnd (inject_Z target_width / inject_Z target_height)) in *.
  pose proof (pixels_Q _ Htw) as [HT1 HT2].
  pose proof (pixels_Q _ Hth) as [HH1 HH2].
  destruct (Qle_bool Af At) eqn:Hcmp; cbn [negb] in Hs.
  - (* the foreground is not wider than the target: fit to height *)
    apply Qle_bool_iff in Hcmp.
    injection Hs as Hw Hh.
    destruct (scaled_by_literal target_height (75 # 100) Hth) as [_ Hb];
      [lra | lra |].
    change (rnd (75 # 100)) with (head_ratio rnd) in Hb. rewrite Hh in Hb.
    assert (Hnh_pixels : pixels nh).
    { split; [exact Hnh|]. apply Q_le_Z.
      change (inject_Z 100000) with 100000%Q. lra. }
    pose proof (float_of_pixels nh Hnh_pixels) as [Hn1 Hn2].
    pose proof (pixels_Q _ Hnh_pixels) as [HN1 HN2].
    rewrite Hh in Hw.
    assert (Hprod : ((998 # 100000000) <= float_of_int rnd nh * Af
                     /\ float_of_int rnd nh * Af
                        <= (1003 # 1000) * (753 # 1000) * inject_Z target_width)%Q).
    { split; [nra|].
      assert (HA : (Af * inject_Z target_height
                    <= (1001 # 1000) * inject_Z target_width)%Q) by nra.
      assert (H1 : (float_of_int rnd nh * Af
                    <= (1001 # 1000) * (753 # 1000) * inject_Z target_height * Af)%Q)
        by nra.
      nra. }
    destruct Hprod as [Hp1 Hp2].
    destruct (rnd_close (float_of_int rnd nh * Af)%Q) as [Hr1 Hr2]; [split; nra|].
    destruct (int_of_float_floor (fmul rnd (float_of_int rnd nh) Af)) as [_ Hi];
      [unfold fmul; nra|].
    unfold fmul in Hi, Hw. rewrite Hw in Hi.
    split; [apply Q_le_Z; nra | nra].
  - (* the foreground is wider than the target: fit to width *)
    assert (Hlt : (At < Af)%Q).
    { apply Qnot_le_lt. intros Hle. apply Qle_bool_iff in Hle. congruence. }
    unfold fdiv in Hs. destruct (Qeq_bool Af 0); [discriminate|].
    cbn [mbind result_bind mret result_ret] in Hs.
    injection Hs as Hw Hh.
    destruct (scaled_by_literal target_width (9 # 10) Htw) as [_ Hb];
      [lra | lra |].
    change (rnd (9 # 10)) with (lit_0_9 rnd) in Hb. rewrite Hw in Hb.
    assert (Hnw_le : nw <= target_width) by (apply Q_le_Z; nra).
    assert (Hnw_pixels : pixels nw)
      by (split; [exact Hnw | destruct Htw; lia]).
    pose proof (float_of_pixels nw Hnw_pixels) as [Hn1 Hn2].
    pose proof (pixels_Q _ Hnw_pixels) as [HN1 HN2].
    rewrite Hw in Hh.
    assert (HAf : (0 < Af)%Q) by lra.
    assert (HAH : ((999 # 1000) * inject_Z target_width
                   <= Af * inject_Z target_height)%Q) by nra.
    assert (Hq : ((9 # 1000000) <= float_of_int rnd nw / Af
                  /\ float_of_int rnd nw / Af
                     <= (907 # 1000) * inject_Z target_height)%Q).
    { split.
      - apply Qle_shift_div_l; [exact HAf | nra].
      - apply Qle_shift_div_r; [exact HAf | nra]. }
    destruct Hq as [Hq1 Hq2].
    destruct (rnd_close (float_of_int rnd nw / Af)%Q) as [Hr1 Hr2]; [split; nra|].
    destruct (int_of_float_floor (rnd (float_of_int rnd nw / Af))) as [_ Hi]; [nra|].
    rewrite Hh in Hi.
    split; [exact Hnw_le | nra].
Qed.

(** On pixel counts the scaling always goes through. *)
Lemma scaled_size_returns (target_width target_height fg_width fg_height : Z) :
  pixels target_width -> pixels target_height ->
  pixels fg_width -> pixels fg_height ->
  exists nw nh,
    scaled_size rnd target_width target_height fg_width fg_height = Return (nw, nh).
Proof using rnd_close.
  intros Htw Hth Hfw Hfh. unfold scaled_size.
  destruct (aspect_close fg_width fg_height Hfw Hfh) as [Ef (Hf1 & Hf2 & Hf3 & Hf4)].
  destruct (aspect_close target_width target_height Htw Hth)
    as [Et (Ht1 & Ht2 & Ht3 & Ht4)].
  rewrite Ef, Et. cbn [mbind result_bind].
  destruct (Qle_bool _ _) eqn:Hcmp; cbn [negb].
  - eexists. eexists. reflexivity.
  - unfold fdiv.
    destruct (Qeq_bool (rnd (inject_Z fg_width / inject_Z fg_height)) 0) eqn:Hz.
    + apply Qeq_bool_iff in Hz. exfalso. lra.
    + eexists. eexists. reflexivity.
Qed.

Lemma fitted_by_scaled_size (fg_width fg_height : Z) (l : layout) :
  scaled_size rnd (canvas_width l) (canvas_height l) fg_width fg_height
  = Return (new_width l, new_height l) ->
  fitted rnd fg_width fg_height l.
Proof using Type.
  intros Hs fa ta Hfa Hta. unfold scaled_size in Hs.
  rewrite Hfa, Hta in Hs. cbn [mbind result_bind] in Hs.
  destruct (Qle_bool fa ta) eqn:Hcmp; cbn [negb] in Hs.
  - injection Hs as Hw Hh. split; [|now intros _].
    intros Hlt. apply Qle_bool_iff in Hcmp. exfalso.
    now apply (Qlt_not_le _ _ Hlt).
  - unfold fdiv in Hs. destruct (Qeq_bool fa 0); [discriminate|].
    injection Hs as Hw Hh. split; [now intros _|].
    intros Hle. apply Qle_bool_iff in Hle. congruence.
Qed.

(** C8, as amended.  With the millimetre dimensions taken from the custom
    values when both are given and not zero, and from the named standard
    size otherwise ((51, 51) for unknown names): whenever the target and
    the foreground measure between 1 and 100000 pixels a side and the
    background colour parses, [create_passport_photo] either raises because
    the scaled foreground would be empty, or produces an image of exactly
    [mm_to_pixels(width_mm)] by [mm_to_pixels(height_mm)] pixels in which
    the scaled foreground lies fully inside the canvas: centred
    horizontally, its bottom edge 5% of the target height above the canvas
    bottom, no wider and no higher than the target, fitted to 90% of the
    target width when the foreground aspect ratio exceeds the target's and
    to 75% of the target height otherwise. *)
Theorem passport_photo_layout (size : string) (colour : Z * Z * Z)
  (custom_width_mm custom_height_mm : option Z) (fg_width fg_height : Z) :
  let dims := select_dims size custom_width_mm custom_height_mm in
  pixels (mm_to_pixels rnd (fst dims)) -> pixels (mm_to_pixels rnd (snd dims)) ->
  pixels fg_width -> pixels fg_height ->
  (forall w h, custom_width_mm = Some w -> custom_height_mm = Some h ->
               w <> 0 -> h <> 0 -> dims = (w, h))
  /\ (custom_width_mm = None \/ custom_height_mm = None
      \/ custom_width_mm = Some 0 \/ custom_height_mm = Some 0 ->
      dims = dict_get PASSPORT_SIZES (PyStr.lower size) (51, 51))
  /\ photo_spec rnd size (Return colour) custom_width_mm custom_height_mm
       fg_width fg_height.
Proof using rnd_close.
  intros dims Htw Hth Hfw Hfh.
  split; [|split].
  - intros w h -> -> Hw Hh. subst dims. unfold select_dims, Split.truthy_int.
    destruct (Z.eqb_spec w 0); [contradiction|].
    destruct (Z.eqb_spec h 0); [contradiction|]. reflexivity.
  - subst dims. unfold select_dims, Split.truthy_int.
    intros [-> | [-> | [-> | ->]]]; cbn [negb andb Z.eqb];
      rewrite ?andb_false_r; reflexivity.
  - unfold photo_spec. fold dims.
    set (tw := mm_to_pixels rnd (fst dims)) in *.
    set (th := mm_to_pixels rnd (snd dims)) in *.
    destruct (scaled_size_returns tw th fg_width fg_height Htw Hth Hfw Hfh)
      as (nw & nh & Hs).
    exists nw, nh. split; [exact Hs|].
    unfold create_passport_photo. fold dims.
    destruct dims as [width_mm height_mm]. cbn [fst snd] in tw, th.
    fold tw th. cbn [mbind result_bind]. rewrite Hs. cbn [mbind result_bind].
    unfold resize_check.
    destruct ((nw <? 1) || (nh <? 1)) eqn:Hempty; [reflexivity|].
    apply orb_false_iff in Hempty as [Hnw Hnh].
    apply Z.ltb_ge in Hnw, Hnh.
    cbn [mbind result_bind]. unfold new_check.
    destruct Htw as [Htw1 Htw2], Hth as [Hth1 Hth2].
    destruct (Z.ltb_spec tw 0); [lia|]. destruct (Z.ltb_spec th 0); [lia|].
    cbn [orb mbind result_bind mret result_ret].
    eexists. split; [reflexivity|]. cbn [canvas_width canvas_height new_width new_height].
    repeat (split; [reflexivity|]).
    assert (Htw : pixels tw) by (split; assumption).
    assert (Hth : pixels th) by (split; assumption).
    destruct (scaled_size_fits tw th fg_width fg_height nw nh Htw Hth Hfw Hfh Hs
                Hnw Hnh) as [Hw Hh].
    destruct (scaled_by_literal th (5 # 100) Hth) as [Hm0 Hm]; [lra | lra |].
    change (rnd (5 # 100)) with (lit_0_05 rnd) in Hm0, Hm.
    set (m := Api.int_of_float (fmul rnd (float_of_int rnd th) (lit_0_05 rnd))) in *.
    assert (Hsum : nh + m <= th).
    { apply Q_le_Z. rewrite inject_Z_plus.
      pose proof (pixels_Q th Hth) as [HH1 HH2]. nra. }
    split.
    + unfold placed. cbn [canvas_width canvas_height new_width new_height
                            x_offset y_offset]. fold m.
      assert (Hx : 0 <= (tw - nw) / 2 <= tw - nw).
      { split; [apply Z.div_pos; lia|].
        apply Z.div_le_upper_bound; lia. }
      repeat split; lia.
    + apply fitted_by_scaled_size.
      cbn [canvas_width canvas_height new_width new_height]. exact Hs.
Qed.

End Layout.

(** C8, the claim as stated, refuted.  Custom dimensions 0 by 45 are both
    given, yet the photo is made in the named size (602 by 602 pixels for
    "us"), not [mm_to_pixels(0)] by [mm_to_pixels(45)]; and custom
    dimensions -10 by -10 produce no image at all. *)
Lemma custom_dimensions_not_always_used :
  described_dims "us" (Some 0) (Some 45) = (0, 45)
  /\ select_dims "us" (Some 0) (Some 45) = (51, 51)
  /\ (exists l,
        create_passport_photo exact "us" (Return (255, 255, 255)) (Some 0) (Some 45)
          (Return (400, 600)) = Return l
        /\ (canvas_width l, canvas_height l) = (602, 602)
        /\ (canvas_width l, canvas_height l)
           <> (mm_to_pixels exact 0, mm_to_pixels exact 45))
  /\ returns (create_passport_photo exact "us" (Return (255, 255, 255))
                (Some (-10)) (Some (-10)) (Return (400, 600))) = false.
Proof.
  split; [reflexivity|]. split; [reflexivity|]. split; [|vm_compute; reflexivity].
  eexists. split; [vm_compute; reflexivity|].
  split; [reflexivity|]. vm_compute. discriminate.
Qed.

Lemma passport_photo_layout_witness :
  photo_spec exact "UK" (Return (255, 255, 255)) None None 400 600.
Proof.
  apply (passport_photo_layout exact exact_close "UK" (255, 255, 255) None None
           400 600); vm_compute; split; discriminate.
Defined.

End Passport.

(** ** Strings and decimal numerals: facts used by the modules below *)
Module Text.
Import PyStr Split.
#[local] Open Scope Z_scope.

(** The character [c] does not occur in [s]. *)
Fixpoint lacks (c : ascii) (s : string) : bool :=
  match s with
  | EmptyString => true
  | String a s' => negb (Ascii.eqb a c) && lacks c s'
  end.

(** A decimal digit. *)
Definition is_digit (a : ascii) : bool :=
  let n := nat_of_ascii a in (48 <=? n)%nat && (n <=? 57)%nat.

Fixpoint all_digits (s : string) : bool :=
  match s with
  | EmptyString => true
  | String a s' => is_digit a && all_digits s'
  end.

(** The numeral [s] read from the left onto the value [acc]. *)
Fixpoint numeral_value (s : string) (acc : N) : N :=
  match s with
  | EmptyString => acc
  | String a s' => numeral_value s' (10 * acc + (N_of_ascii a - 48))%N
  end.

Lemma str_cons_app (x : ascii) (a b : string) : String x a ++ b = String x (a ++ b).
Proof. reflexivity. Qed.

Lemma lacks_app (c : ascii) (a b : string) :
  lacks c (a ++ b) = lacks c a && lacks c b.
Proof.
  induction a as [|x a IH]; [reflexivity|].
  simpl. rewrite IH. now rewrite andb_assoc.
Qed.

Lemma str_length_app (a b : string) :
  String.length (a ++ b) = (String.length a + String.length b)%nat.
Proof. induction a as [|x a IH]; simpl; [reflexivity | now rewrite IH]. Qed.

Lemma str_app_assoc (a b c : string) : (a ++ b) ++ c = a ++ (b ++ c).
Proof. induction a as [|x a IH]; [reflexivity | now rewrite !str_cons_app, IH]. Qed.

Lemma str_app_nil_r (a : string) : a ++ "" = a.
Proof. induction a as [|x a IH]; [reflexivity | now rewrite str_cons_app, IH]. Qed.

Lemma str_app_inv_head (a b c : string) : a ++ b = a ++ c -> b = c.
Proof.
  induction a as [|x a IH]; [trivial|].
  rewrite !str_cons_app. intros H. injection H as H. now apply IH.
Qed.

(** Two strings with a common tail of the same length are equal up to
    that tail. *)
Lemma str_app_inv_same_length (a b c d : string) :
  String.length a = String.length b -> a ++ c = b ++ d -> a = b /\ c = d.
Proof.
  revert b. induction a as [|x a IH]; intros [|y b] Hl H; simpl in Hl;
    try discriminate.
  - now split.
  - rewrite !str_cons_app in H. injection H as -> H.
    destruct (IH b) as [-> ->]; [lia | exact H | now split].
Qed.

Lemma str_app_inv_tail (a b c : string) : a ++ c = b ++ c -> a = b.
Proof.
  intros H.
  assert (Hl : String.length a = String.length b).
  { apply (f_equal String.length) in H. rewrite !str_length_app in H. lia. }
  now destruct (str_app_inv_same_length a b c c Hl H).
Qed.

(** *** [str(n)] *)

Lemma digit_char_is_digit (d : N) : (d < 10)%N -> is_digit (digit_char d) = true.
Proof.
  intros H. unfold is_digit, digit_char.
  assert (Hd : (d = 0 \/ d = 1 \/ d = 2 \/ d = 3 \/ d = 4 \/ d = 5 \/ d = 6
                \/ d = 7 \/ d = 8 \/ d = 9)%N) by lia.
  repeat (destruct Hd as [-> | Hd]; [reflexivity|]). subst. reflexivity.
Qed.

Lemma digit_char_value (d : N) : (d < 10)%N -> (N_of_ascii (digit_char d) - 48 = d)%N.
Proof.
  intros H. unfold digit_char.
  assert (Hd : (d = 0 \/ d = 1 \/ d = 2 \/ d = 3 \/ d = 4 \/ d = 5 \/ d = 6
                \/ d = 7 \/ d = 8 \/ d = 9)%N) by lia.
  repeat (destruct Hd as [-> | Hd]; [reflexivity|]). subst. reflexivity.
Qed.

Lemma is_digit_lacks (a c : ascii) :
  is_digit a = true -> is_digit c = false -> Ascii.eqb a c = false.
Proof.
  intros Ha Hc. destruct (Ascii.eqb_spec a c) as [->|]; [congruence | reflexivity].
Qed.

Lemma all_digits_lacks (c : ascii) (s : string) :
  is_digit c = false -> all_digits s = true -> lacks c s = true.
Proof.
  intros Hc. induction s as [|a s IH]; [reflexivity|].
  simpl. intros H. apply andb_true_iff in H as [Ha Hs].
  rewrite (is_digit_lacks a c Ha Hc). simpl. now apply IH.
Qed.

Lemma all_digits_app (a b : string) :
  all_digits (a ++ b) = all_digits a && all_digits b.
Proof.
  induction a as [|x a IH]; [reflexivity|].
  simpl. rewrite IH. now rewrite andb_assoc.
Qed.

Lemma numeral_value_app (a b : string) (acc : N) :
  numeral_value (a ++ b) acc = numeral_value b (numeral_value a acc).
Proof. revert acc. induction a as [|x a IH]; intros acc; simpl; [reflexivity | apply IH]. Qed.

(** With enough fuel, [digits] puts the numeral of [n] in front of [acc]:
    a string of digits whose value is [n]. *)
Lemma digits_numeral (fuel : nat) (n : N) (acc : string) :
  (n < 10 ^ N.of_nat (S fuel))%N ->
  exists r, digits (S fuel) n acc = r ++ acc
            /\ all_digits r = true
            /\ r <> ""
            /\ forall a, numeral_value r a = (a * 10 ^ N.of_nat (String.length r) + n)%N.
Proof.
  revert n acc. induction fuel as [|fuel IH]; intros n acc Hn.
  - assert (Hlt : (n < 10)%N) by exact Hn.
    cbn [digits]. destruct (N.ltb_spec n 10) as [_|Hge]; [|lia].
    exists (String (digit_char (n mod 10)) ""). rewrite N.mod_small by exact Hlt.
    split; [reflexivity|]. split; [simpl; now rewrite digit_char_is_digit|].
    split; [discriminate|].
    intros a. cbn [numeral_value String.length]. rewrite digit_char_value by exact Hlt.
    change (N.of_nat 1) with 1%N. lia.
  - remember (S fuel) as f eqn:Hf. cbn [digits].
    destruct (N.ltb_spec n 10) as [Hlt|Hge].
    + exists (String (digit_char (n mod 10)) ""). rewrite N.mod_small by exact Hlt.
      split; [reflexivity|]. split; [simpl; now rewrite digit_char_is_digit|].
      split; [discriminate|].
      intros a. cbn [numeral_value String.length]. rewrite digit_char_value by exact Hlt.
      change (N.of_nat 1) with 1%N. lia.
    + assert (Hq : (n / 10 < 10 ^ N.of_nat f)%N).
      { apply N.Div0.div_lt_upper_bound.
        replace (N.of_nat (S f)) with (N.succ (N.of_nat f)) in Hn by lia.
        rewrite N.pow_succ_r' in Hn. exact Hn. }
      subst f.
      destruct (IH (n / 10)%N (String (digit_char (n mod 10)) acc) Hq)
        as (r & Hr & Hd & _ & Hv).
      exists (r ++ String (digit_char (n mod 10)) "").
      assert (Hm : (n mod 10 < 10)%N) by (apply N.mod_lt; lia).
      split; [rewrite Hr, str_app_assoc; reflexivity|].
      split; [rewrite all_digits_app, Hd; simpl; now rewrite digit_char_is_digit|].
      split; [destruct r; discriminate|].
      intros a. rewrite numeral_value_app, Hv. cbn [numeral_value].
      rewrite digit_char_value by exact Hm.
      rewrite str_length_app. cbn [String.length].
      replace (N.of_nat (String.length r + 1)) with (N.succ (N.of_nat (String.length r)))
        by lia.
      rewrite N.pow_succ_r'.
      pose proof (N.div_mod n 10 ltac:(lia)) as Hdm. nia.
Qed.

Lemma enough_fuel (n : N) : (n < 10 ^ N.of_nat (S (N.to_nat (N.log2 n))))%N.
Proof.
  replace (N.of_nat (S (N.to_nat (N.log2 n)))) with (N.succ (N.log2 n)) by lia.
  destruct (N.eq_dec n 0%N) as [->|Hn]; [reflexivity|].
  apply N.lt_le_trans with (2 ^ N.succ (N.log2 n))%N.
  - apply N.log2_spec. lia.
  - apply N.pow_le_mono_l. lia.
Qed.

(** [str(n)] for a natural number is a non-empty string of digits, and
    reading it back gives [n]. *)
Lemma str_of_N_numeral (n : N) :
  all_digits (str_of_N n) = true /\ str_of_N n <> ""
  /\ numeral_value (str_of_N n) 0%N = n.
Proof.
  destruct (digits_numeral _ n "" (enough_fuel n)) as (r & Hr & Hd & Hne & Hv).
  unfold str_of_N. rewrite Hr, str_app_nil_r. repeat split; try assumption.
  rewrite Hv. lia.
Qed.

Lemma str_of_N_inj (m n : N) : str_of_N m = str_of_N n -> m = n.
Proof.
  intros H. destruct (str_of_N_numeral m) as (_ & _ & <-).
  destruct (str_of_N_numeral n) as (_ & _ & <-). now rewrite H.
Qed.

Lemma str_of_N_no_minus (n : N) : exists a s, str_of_N n = String a s /\ is_digit a = true.
Proof.
  destruct (str_of_N_numeral n) as (Hd & Hne & _).
  destruct (str_of_N n) as [|a s]; [congruence|].
  exists a, s. split; [reflexivity|]. simpl in Hd. now apply andb_true_iff in Hd.
Qed.

(** [str] is injective on the integers. *)
Lemma str_of_Z_inj (x y : Z) : str_of_Z x = str_of_Z y -> x = y.
Proof.
  unfold str_of_Z.
  destruct (Z.ltb_spec x 0) as [Hx|Hx], (Z.ltb_spec y 0) as [Hy|Hy]; intros H.
  - injection H as H. apply str_of_N_inj in H. lia.
  - destruct (str_of_N_no_minus (Z.to_N y)) as (a & s & Hs & Ha).
    rewrite Hs in H. injection H as <- _. discriminate.
  - destruct (str_of_N_no_minus (Z.to_N x)) as (a & s & Hs & Ha).
    rewrite Hs in H. injection H as -> _. discriminate.
  - apply str_of_N_inj in H. lia.
Qed.

(** [str(z)] holds no character other than digits and the sign. *)
Lemma str_of_Z_lacks (c : ascii) (z : Z) :
  is_digit c = false -> Ascii.eqb "-" c = false -> lacks c (str_of_Z z) = true.
Proof.
  intros Hc Hm. unfold str_of_Z.
  destruct (str_of_N_numeral (Z.abs_N z)) as (Ha & _ & _).
  destruct (str_of_N_numeral (Z.to_N z)) as (Hb & _ & _).
  destruct (z <? 0).
  - cbn [lacks]. rewrite Hm. simpl. now apply all_digits_lacks.
  - now apply all_digits_lacks.
Qed.

(** *** [rfind], [substring] and the suffix of a name *)

Lemma rfind_lacks (c : ascii) (s : string) : lacks c s = true -> rfind c s = None.
Proof.
  induction s as [|a s IH]; [reflexivity|].
  cbn [lacks rfind]. intros H. apply andb_true_iff in H as [Ha Hs].
  rewrite (IH Hs). apply negb_true_iff in Ha. now rewrite Ha.
Qed.

Lemma rfind_app_last (c : ascii) (a r : string) :
  lacks c r = true -> rfind c (a ++ String c r) = Some (String.length a).
Proof.
  intros Hr. induction a as [|x a IH].
  - change (rfind c (String c r) = Some 0%nat). cbn [rfind].
    rewrite (rfind_lacks c r Hr). now rewrite Ascii.eqb_refl.
  - rewrite str_cons_app. cbn [rfind String.length]. now rewrite IH.
Qed.

Lemma rfind_split (c : ascii) (s : string) (i : nat) :
  rfind c s = Some i ->
  exists a r, s = a ++ String c r /\ String.length a = i /\ lacks c r = true.
Proof.
  revert i. induction s as [|x s IH]; intros i; [discriminate|].
  cbn [rfind]. destruct (rfind c s) as [j|] eqn:Hj.
  - intros [= <-]. destruct (IH j eq_refl) as (a & r & -> & <- & Hr).
    exists (String x a), r. now rewrite str_cons_app.
  - destruct (Ascii.eqb_spec x c) as [->|Hne]; [|discriminate].
    intros [= <-]. exists "", s. split; [reflexivity|]. split; [reflexivity|].
    clear IH. induction s as [|y s IH]; [reflexivity|].
    cbn [rfind] in Hj. destruct (rfind c s) eqn:E; [discriminate|].
    cbn [lacks]. destruct (Ascii.eqb y c); [discriminate|]. now apply IH.
Qed.

Lemma substring_all (s : string) : substring 0 (String.length s) s = s.
Proof. induction s as [|a s IH]; [reflexivity|]. cbn. now rewrite IH. Qed.

Lemma substring_app_tail (a b : string) :
  substring (String.length a) (String.length b) (a ++ b) = b.
Proof.
  induction a as [|x a IH]; [apply substring_all|].
  rewrite str_cons_app. cbn [String.length substring]. exact IH.
Qed.

Lemma substring_app_head (a b : string) :
  substring 0 (String.length a) (a ++ b) = a.
Proof.
  induction a as [|x a IH].
  - destruct b; reflexivity.
  - rewrite str_cons_app. cbn [String.length substring]. now rewrite IH.
Qed.

(** A name that ends in a dot and a non-empty run without dots, after a
    non-empty stem, has that run with its dot as suffix. *)
Lemma name_suffix_app (a r : string) :
  a <> "" -> r <> "" -> lacks "." r = true ->
  name_suffix (a ++ String "." r) = String "." r
  /\ name_stem (a ++ String "." r) = a.
Proof.
  intros Ha Hr Hl. unfold name_suffix, name_stem.
  rewrite (rfind_app_last "." a r Hl), str_length_app. cbn [String.length].
  assert (Hla : (0 < String.length a)%nat) by (destruct a; [congruence | cbn; lia]).
  assert (Hlr : (0 < String.length r)%nat) by (destruct r; [congruence | cbn; lia]).
  destruct (Nat.ltb_spec 0 (String.length a)) as [_|]; [|lia].
  destruct (Nat.ltb_spec (String.length a)
              (String.length a + S (String.length r) - 1)) as [_|]; [|lia].
  cbn [andb]. split.
  - replace (String.length a + S (String.length r) - String.length a)%nat
      with (String.length (String "." r)) by (cbn; lia).
    apply substring_app_tail.
  - apply substring_app_head.
Qed.

(** A non-empty suffix of a name is a dot and a non-empty run without
    dots, after a non-empty stem. *)
Lemma name_suffix_shape (name : string) :
  name_suffix name <> "" ->
  exists a r, name = a ++ String "." r /\ a <> "" /\ r <> "" /\ lacks "." r = true
              /\ name_suffix name = String "." r /\ name_stem name = a.
Proof.
  intros H.
  destruct (rfind "." name) as [i|] eqn:Hi.
  2:{ unfold name_suffix in H. rewrite Hi in H. congruence. }
  destruct (rfind_split "." name i Hi) as (a & r & -> & <- & Hr).
  assert (Hne : a <> "" /\ r <> "").
  { unfold name_suffix in H. rewrite Hi, str_length_app in H. cbn [String.length] in H.
    destruct (Nat.ltb_spec 0 (String.length a)) as [Ha|Ha];
      [|cbn [andb] in H; congruence].
    destruct (Nat.ltb_spec (String.length a)
                (String.length a + S (String.length r) - 1)) as [Hb|Hb];
      [|cbn [andb] in H; congruence].
    split; intros ->; cbn in *; lia. }
  destruct Hne as [Ha Hr'].
  destruct (name_suffix_app a r Ha Hr' Hr) as [Hs Ht].
  exists a, r. repeat split; assumption.
Qed.

Lemma lower_ascii_idem (a : ascii) : lower_ascii (lower_ascii a) = lower_ascii a.
Proof. destruct a as [[] [] [] [] [] [] [] []]; reflexivity. Qed.

Lemma lower_idem (s : string) : lower (lower s) = lower s.
Proof.
  induction s as [|a s IH]; [reflexivity|].
  cbn [lower]. now rewrite lower_ascii_idem, IH.
Qed.

End Text.

(** ** app/services/pdf/operations.py: merge, split, protect, rotate,
    reorder, page numbers *)
Module PdfOps.
Import PyStr Split Text.
#[local] Open Scope Z_scope.

(** [x in l] on integers. *)
Definition int_in (x : Z) (l : list Z) : bool := existsb (Z.eqb x) l.

(** [pages is None or (i + 1) in pages]. *)
Definition selected (pages : option (list Z)) (i : Z) : bool :=
  match pages with
  | None => true
  | Some l => int_in (i + 1) l
  end.

(** What [writer.encrypt] is given. *)
Record encryption : Type := {
  user_password : string;
  owner_password : string;
  permissions_flag : Z
}.

(** [s.startswith(p)]. *)
Fixpoint has_prefix (p s : string) : bool :=
  match p with
  | EmptyString => true
  | String a p' =>
      match s with
      | String b s' => Ascii.eqb a b && has_prefix p' s'
      | EmptyString => false
      end
  end.

(** [s.replace(old, new)] for a non-empty [old]: the occurrences are
    found from the left and do not overlap.  [skip] counts the characters
    of an occurrence still to be passed over. *)
Fixpoint replace_from (old new : string) (skip : nat) (s : string) : string :=
  match s with
  | EmptyString => EmptyString
  | String a s' =>
      match skip with
      | S k => replace_from old new k s'
      | O =>
          if has_prefix old s
          then new ++ replace_from old new (String.length old - 1) s'
          else String a (replace_from old new 0 s')
      end
  end.

Definition str_replace (old new s : string) : string := replace_from old new 0 s.

(** The text [add_page_numbers] draws on the page of index [i]. *)
Definition page_number_text (format_str : string) (start_number i total_pages : Z)
  : string :=
  let page_num := start_number + i in
  str_replace "{total}" (str_of_Z total_pages)
    (str_replace "{page}" (str_of_Z page_num) format_str).

Example replace_examples :
  str_replace "ab" "X" "cababab-abb" = "cXXX-Xb"
  /\ str_replace "aa" "b" "aaa" = "ba"
  /\ page_number_text "Page {page} of {total}" 1 2 10 = "Page 3 of 10"
  /\ page_number_text "{page}/{page}" 5 0 7 = "5/5".
Proof. repeat split. Qed.

Section Pages.

(** PyPDF2 as these functions use it: [PdfReader(path).pages], or what
    opening the file raises, and [page.rotate(angle)].  A writer is the list
    of the pages added to it so far, and [write output_path pages enc] is
    [with open(output_path, 'wb') as f: writer.write(f)] for a writer that
    holds [pages] and was encrypted with [enc], if at all. *)
Variable Page : Type.
Variable PdfReader : string -> result (list Page).
Variable page_rotate : Z -> Page -> result Page.
Variable write : string -> list Page -> option encryption -> result unit.

(** [for page in reader.pages: writer.add_page(page)]. *)
Definition add_all (writer reader_pages : list Page) : list Page :=
  fold_left (fun w page => (w ++ [page])%list) reader_pages writer.

Fixpoint merge_loop (writer : list Page) (pdf_paths : list string)
  : result (list Page) :=
  match pdf_paths with
  | [] => Return writer
  | pdf_path :: rest =>
      reader_pages ← PdfReader pdf_path;
      merge_loop (add_all writer reader_pages) rest
  end.

Definition merge_pdfs (pdf_paths : list string) (output_path : string)
  : result string :=
  writer ← merge_loop [] pdf_paths;
  write output_path writer None;;
  mret output_path.

Definition protect_pdf (pdf_path output_path user_pw : string)
  (owner_pw : option string) (allow_printing allow_copying : bool)
  : result string :=
  reader_pages ← PdfReader pdf_path;
  let writer := add_all [] reader_pages in
  let permissions := 0 in
  let permissions := if allow_printing then Z.lor permissions 4 else permissions in
  let permissions := if allow_copying then Z.lor permissions 16 else permissions in
  write output_path writer
    (Some {| user_password := user_pw;
             owner_password := match owner_pw with
                               | Some o => if String.eqb o "" then user_pw else o
                               | None => user_pw
                               end;
             permissions_flag := permissions |});;
  mret output_path.

(** [for i, page in enumerate(reader.pages)] of [rotate_pdf]. *)
Fixpoint rotate_loop (angle : Z) (pages : option (list Z)) (i : Z)
  (reader_pages writer : list Page) : result (list Page) :=
  match reader_pages with
  | [] => Return writer
  | page :: rest =>
      page' ← (if selected pages i then page_rotate angle page else Return page);
      rotate_loop angle pages (i + 1) rest (writer ++ [page'])
  end.

Definition rotate_pdf (pdf_path output_path : string) (angle : Z)
  (pages : option (list Z)) : result string :=
  reader_pages ← PdfReader pdf_path;
  writer ← rotate_loop angle pages 0 reader_pages [];
  write output_path writer None;;
  mret output_path.

(** [for page_num in new_order] of [reorder_pages]. *)
Fixpoint reorder_loop (reader_pages : list Page) (new_order : list Z)
  (writer : list Page) : result (list Page) :=
  match new_order with
  | [] => Return writer
  | page_num :: rest =>
      if in_document (Z.of_nat (length reader_pages)) page_num
      then page ← py_getitem reader_pages (page_num - 1);
           reorder_loop reader_pages rest (writer ++ [page])
      else reorder_loop reader_pages rest writer
  end.

Definition reorder_pages (pdf_path output_path : string) (new_order : list Z)
  : result string :=
  reader_pages ← PdfReader pdf_path;
  writer ← reorder_loop reader_pages new_order [];
  write output_path writer None;;
  mret output_path.

(** *** merge_pdfs *)

Lemma add_all_app (writer reader_pages : list Page) :
  add_all writer reader_pages = (writer ++ reader_pages)%list.
Proof.
  revert writer. induction reader_pages as [|p ps IH]; intros writer.
  - now rewrite List.app_nil_r.
  - cbn [add_all fold_left]. fold (add_all (writer ++ [p]) ps).
    rewrite IH, <- List.app_assoc. reflexivity.
Qed.

Lemma merge_loop_readable (writer : list Page) (pdf_paths : list string)
  (docs : list (list Page)) :
  Forall2 (fun p d => PdfReader p = Return d) pdf_paths docs ->
  merge_loop writer pdf_paths = Return (writer ++ concat docs)%list.
Proof.
  intros H. revert writer. induction H as [|p d ps ds Hp _ IH]; intros writer.
  - cbn. now rewrite List.app_nil_r.
  - cbn [merge_loop concat]. rewrite Hp. cbn [mbind result_bind].
    rewrite IH, add_all_app, <- List.app_assoc. reflexivity.
Qed.

Lemma merge_loop_unreadable (writer : list Page) (before after : list string)
  (bad : string) (docs : list (list Page)) (e : exn) :
  Forall2 (fun p d => PdfReader p = Return d) before docs ->
  PdfReader bad = Raise e ->
  merge_loop writer (before ++ bad :: after) = Raise e.
Proof.
  intros H Hbad. revert writer. induction H as [|p d ps ds Hp _ IH]; intros writer.
  - cbn. now rewrite Hbad.
  - cbn [merge_loop app]. rewrite Hp. cbn [mbind result_bind]. apply IH.
Qed.

(** X1.  When every input can be read, [merge_pdfs] writes at the output
    path the pages of its inputs one document after the other, in the
    order of the paths, and returns the output path if the writing
    succeeds.  When an input cannot be read, it raises what opening the
    first such input raised, and the output is not written. *)
Theorem merge_pdfs_concatenates (pdf_paths : list string) (output_path : string) :
  (forall docs,
     Forall2 (fun p d => PdfReader p = Return d) pdf_paths docs ->
     merge_pdfs pdf_paths output_path
     = (write output_path (concat docs) None;; mret output_path))
  /\ (forall before bad after docs e,
        pdf_paths = (before ++ bad :: after)%list ->
        Forall2 (fun p d => PdfReader p = Return d) before docs ->
        PdfReader bad = Raise e ->
        merge_pdfs pdf_paths output_path = Raise e).
Proof.
  split.
  - intros docs H. unfold merge_pdfs.
    rewrite (merge_loop_readable [] pdf_paths docs H). reflexivity.
  - intros before bad after docs e -> H Hbad. unfold merge_pdfs.
    rewrite (merge_loop_unreadable [] before after bad docs e H Hbad). reflexivity.
Qed.

(** *** protect_pdf *)

Lemma testbit_4 (n : Z) : Z.testbit 4 n = (n =? 2).
Proof.
  change 4 with (2 ^ 2). rewrite (Z.pow2_bits_eqb 2 n) by lia. apply Z.eqb_sym.
Qed.

Lemma testbit_16 (n : Z) : Z.testbit 16 n = (n =? 4).
Proof.
  change 16 with (2 ^ 4). rewrite (Z.pow2_bits_eqb 4 n) by lia. apply Z.eqb_sym.
Qed.

(** X2.  [protect_pdf] writes the pages unchanged, encrypted with a
    permissions flag whose only bits are bit 2 (value 4), set exactly when
    printing is allowed, and bit 4 (value 16), set exactly when copying is
    allowed; the owner password is the one given, or the user password
    when none or an empty one is given. *)
Theorem protect_pdf_permissions (pdf_path output_path user_pw : string)
  (owner_pw : option string) (allow_printing allow_copying : bool)
  (reader_pages : list Page) :
  PdfReader pdf_path = Return reader_pages ->
  exists enc,
    protect_pdf pdf_path output_path user_pw owner_pw allow_printing allow_copying
    = (write output_path reader_pages (Some enc);; mret output_path)
    /\ (forall n, Z.testbit (permissions_flag enc) n
                  = (n =? 2) && allow_printing || (n =? 4) && allow_copying)
    /\ user_password enc = user_pw
    /\ (owner_password enc
        = match owner_pw with
          | Some o => if String.eqb o "" then user_pw else o
          | None => user_pw
          end)
    /\ (user_pw <> "" -> owner_password enc <> "").
Proof.
  intros Hr. unfold protect_pdf. rewrite Hr. cbn [mbind result_bind mret result_ret].
  rewrite add_all_app. cbn [app].
  eexists. split; [reflexivity|]. cbn [permissions_flag user_password owner_password].
  split; [|split; [reflexivity|split; [reflexivity|]]].
  - intros n. destruct allow_printing, allow_copying;
      rewrite ?Z.lor_spec, ?testbit_4, ?testbit_16, ?Z.bits_0,
        ?andb_true_r, ?andb_false_r, ?orb_false_r; reflexivity.
  - intros Hu. destruct owner_pw as [o|]; [|exact Hu].
    destruct (String.eqb_spec o ""); assumption.
Qed.

(** *** rotate_pdf *)

Lemma rotate_loop_run (angle : Z) (pages : option (list Z)) (turned : Page -> Page)
  (reader_pages writer : list Page) (i : nat) :
  (forall p, page_rotate angle p = Return (turned p)) ->
  rotate_loop angle pages (Z.of_nat i) reader_pages writer
  = Return (writer
            ++ imap (fun k p => if selected pages (Z.of_nat (i + k)) then turned p else p)
                 reader_pages)%list.
Proof.
  intros Ht. revert writer i.
  induction reader_pages as [|p ps IH]; intros writer i.
  - cbn. now rewrite List.app_nil_r.
  - cbn [rotate_loop imap]. replace (i + 0)%nat with i by lia.
    assert (Hp : (if selected pages (Z.of_nat i) then page_rotate angle p else Return p)
                 = Return (if selected pages (Z.of_nat i) then turned p else p)).
    { destruct (selected pages (Z.of_nat i)); [apply Ht | reflexivity]. }
    rewrite Hp. cbn [mbind result_bind].
    replace (Z.of_nat i + 1) with (Z.of_nat (S i)) by lia.
    rewrite IH, <- List.app_assoc. cbn [app]. do 3 f_equal.
    apply imap_ext. intros k x _. unfold compose.
    replace (Z.of_nat (S i + k)) with (Z.of_nat (i + S k)) by lia. reflexivity.
Qed.

(** X3.  [rotate_pdf] writes as many pages as it read, in the same order:
    the page of index [i] is rotated when no page list is given or its
    number [i + 1] is in the list, and is copied as it is otherwise.  An
    empty page list therefore rotates nothing, while no list rotates every
    page. *)
Theorem rotate_pdf_selected_pages (pdf_path output_path : string) (angle : Z)
  (pages : option (list Z)) (reader_pages : list Page) (turned : Page -> Page) :
  PdfReader pdf_path = Return reader_pages ->
  (forall p, page_rotate angle p = Return (turned p)) ->
  exists written,
    rotate_pdf pdf_path output_path angle pages
    = (write output_path written None;; mret output_path)
    /\ length written = length reader_pages
    /\ (forall i p, reader_pages !! i = Some p ->
          written !! i
          = Some (match pages with
                  | None => turned p
                  | Some l => if bool_decide (Z.of_nat i + 1 ∈ l) then turned p else p
                  end))
    /\ (pages = Some [] -> written = reader_pages)
    /\ (pages = None -> written = map turned reader_pages).
Proof.
  intros Hr Ht. unfold rotate_pdf. rewrite Hr. cbn [mbind result_bind].
  change 0 with (Z.of_nat 0).
  rewrite (rotate_loop_run angle pages turned reader_pages [] 0 Ht).
  cbn [mbind result_bind app].
  eexists. split; [reflexivity|].
  split; [apply length_imap|].
  split; [|split].
  - intros i p Hp. rewrite list_lookup_imap, Hp. cbn. f_equal.
    destruct pages as [l|]; [|reflexivity]. cbn [selected].
    assert (Hin : int_in (Z.of_nat i + 1) l = bool_decide (Z.of_nat i + 1 ∈ l)).
    { unfold int_in. destruct (existsb _ l) eqn:E.
      - apply existsb_exists in E as (y & Hy & He). apply Z.eqb_eq in He. subst y.
        symmetry. apply bool_decide_eq_true. now apply list_elem_of_In.
      - symmetry. apply bool_decide_eq_false. intros Hin.
        apply list_elem_of_In in Hin.
        assert (E' : existsb (Z.eqb (Z.of_nat i + 1)) l = true).
        { apply existsb_exists. exists (Z.of_nat i + 1). split; [exact Hin | apply Z.eqb_refl]. }
        congruence. }
    now rewrite Hin.
  - intros ->. cbn [selected int_in existsb].
    clear. generalize 0%nat. induction reader_pages as [|p ps IH]; intros n;
      [reflexivity|].
    cbn [imap]. f_equal. apply (IH (S n)).
  - intros ->. cbn [selected].
    clear. induction reader_pages as [|p ps IH]; [reflexivity|].
    cbn [imap map]. f_equal. exact IH.
Qed.

(** *** reorder_pages *)

Lemma reorder_loop_run (reader_pages : list Page) (new_order : list Z)
  (writer : list Page) :
  reorder_loop reader_pages new_order writer
  = Return (writer ++ pages_kept reader_pages new_order)%list.
Proof.
  revert writer. induction new_order as [|n rest IH]; intros writer.
  - cbn. now rewrite List.app_nil_r.
  - cbn [reorder_loop]. unfold pages_kept. cbn [flat_map].
    fold (pages_kept reader_pages rest).
    destruct (in_document (Z.of_nat (length reader_pages)) n) eqn:Hn; [|apply IH].
    unfold in_document in Hn. apply andb_true_iff in Hn as [H1 H2].
    apply Z.leb_le in H1, H2.
    destruct (nth_error reader_pages (Z.to_nat (n - 1))) as [x|] eqn:Hx.
    2:{ apply nth_error_None in Hx. lia. }
    rewrite (py_getitem_in_range reader_pages (n - 1) x) by (lia || assumption).
    cbn [mbind result_bind]. rewrite IH, <- List.app_assoc. reflexivity.
Qed.

(** The page numbers [1 .. n]. *)
Definition page_numbers (n : nat) : list Z := map Z.of_nat (seq 1 n).

Lemma pages_kept_suffix (full pre l : list Page) :
  full = (pre ++ l)%list ->
  pages_kept full (map Z.of_nat (seq (S (length pre)) (length l))) = l.
Proof.
  revert pre. induction l as [|x l IH]; intros pre Hfull; [reflexivity|].
  cbn [length seq map]. unfold pages_kept. cbn [flat_map].
  fold (pages_kept full (map Z.of_nat (seq (S (S (length pre))) (length l)))).
  assert (Hlen : length full = (length pre + S (length l))%nat)
    by (rewrite Hfull, List.length_app; reflexivity).
  assert (Hin : in_document (Z.of_nat (length full)) (Z.of_nat (S (length pre))) = true).
  { unfold in_document. apply andb_true_iff. split; apply Z.leb_le; lia. }
  rewrite Hin.
  replace (Z.to_nat (Z.of_nat (S (length pre)) - 1)) with (length pre) by lia.
  assert (Hx : nth_error full (length pre) = Some x).
  { rewrite Hfull, nth_error_app2 by lia. now rewrite Nat.sub_diag. }
  rewrite Hx. cbn [app]. f_equal.
  specialize (IH (pre ++ [x])%list).
  replace (S (length (pre ++ [x]))) with (S (S (length pre))) in IH
    by (rewrite List.length_app; cbn [length]; lia).
  apply IH. rewrite Hfull, <- List.app_assoc. reflexivity.
Qed.

Lemma pages_kept_identity (reader_pages : list Page) :
  pages_kept reader_pages (page_numbers (length reader_pages)) = reader_pages.
Proof. exact (pages_kept_suffix reader_pages [] reader_pages eq_refl). Qed.

(** X4.  [reorder_pages] never fails on account of a page number: for a
    document that can be read it writes the pages named by [new_order]
    that lie in [1 .. len], in the order given, and skips the other
    numbers.  The order [1 .. len] gives the
    document back, and any rearrangement of [1 .. len] gives a
    rearrangement of its pages. *)
Theorem reorder_pages_rearranges (pdf_path output_path : string)
  (new_order : list Z) (reader_pages : list Page) :
  PdfReader pdf_path = Return reader_pages ->
  exists written,
    reorder_pages pdf_path output_path new_order
    = (write output_path written None;; mret output_path)
    /\ written = pages_kept reader_pages new_order
    /\ (length written <= length new_order)%nat
    /\ (new_order = page_numbers (length reader_pages) -> written = reader_pages)
    /\ (Permutation new_order (page_numbers (length reader_pages)) ->
        Permutation written reader_pages).
Proof.
  intros Hr. unfold reorder_pages. rewrite Hr. cbn [mbind result_bind].
  rewrite reorder_loop_run. cbn [mbind result_bind app].
  eexists. split; [reflexivity|]. split; [reflexivity|].
  split; [|split].
  - clear. induction new_order as [|n rest IH]; [reflexivity|].
    unfold pages_kept in *. cbn [flat_map]. rewrite List.length_app. cbn [length].
    destruct (in_document _ n); [|cbn; lia].
    destruct (nth_error _ _); cbn; lia.
  - intros ->. apply pages_kept_identity.
  - intros Hp. rewrite <- (pages_kept_identity reader_pages) at 2.
    unfold pages_kept. now apply Permutation_flat_map.
Qed.

End Pages.

(** *** A sample library *)

(** Two documents on disk, pages named by strings; rotating a page notes
    the angle on it; a file cannot be opened under the empty path. *)
Definition sample_reader (pdf_path : string) : result (list string) :=
  if String.eqb pdf_path "a.pdf" then Return ["a1"; "a2"; "a3"]
  else if String.eqb pdf_path "b.pdf" then Return ["b1"]
  else Raise (FileNotFoundError pdf_path).

Definition sample_rotate (angle : Z) (page : string) : result string :=
  Return (page ++ "@" ++ str_of_Z angle).

Definition sample_write (output_path : string) (pages : list string)
  (enc : option encryption) : result unit :=
  if String.eqb output_path "" then Raise (FileNotFoundError "") else Return tt.

Lemma merge_pdfs_concatenates_witness :
  merge_pdfs string sample_reader sample_write ["a.pdf"; "b.pdf"; "a.pdf"] "out.pdf"
  = (sample_write "out.pdf" ["a1"; "a2"; "a3"; "b1"; "a1"; "a2"; "a3"] None;;
     mret "out.pdf")
  /\ merge_pdfs string sample_reader sample_write
       ["a.pdf"; "missing.pdf"; "b.pdf"] "out.pdf"
     = Raise (FileNotFoundError "missing.pdf").
Proof.
  split.
  - apply (proj1 (merge_pdfs_concatenates string sample_reader sample_write
                    ["a.pdf"; "b.pdf"; "a.pdf"] "out.pdf")
             [["a1"; "a2"; "a3"]; ["b1"]; ["a1"; "a2"; "a3"]]).
    repeat constructor.
  - apply (proj2 (merge_pdfs_concatenates string sample_reader sample_write
                    ["a.pdf"; "missing.pdf"; "b.pdf"] "out.pdf")
             ["a.pdf"] "missing.pdf" ["b.pdf"] [["a1"; "a2"; "a3"]]);
      [reflexivity | repeat constructor | reflexivity].
Defined.

Lemma protect_pdf_permissions_witness :
  exists enc,
    protect_pdf string sample_reader sample_write "a.pdf" "out.pdf" "secret"
      (Some "") true false
    = (sample_write "out.pdf" ["a1"; "a2"; "a3"] (Some enc);; mret "out.pdf")
    /\ (forall n, Z.testbit (permissions_flag enc) n
                  = (n =? 2) && true || (n =? 4) && false)
    /\ user_password enc = "secret"
    /\ owner_password enc = "secret"
    /\ ("secret" <> "" -> owner_password enc <> "").
Proof.
  exact (protect_pdf_permissions string sample_reader sample_write "a.pdf" "out.pdf"
           "secret" (Some "") true false ["a1"; "a2"; "a3"] eq_refl).
Defined.

Lemma rotate_pdf_selected_pages_witness :
  exists written,
    rotate_pdf string sample_reader sample_rotate sample_write "a.pdf" "out.pdf" 90
      (Some [3; 1; 7])
    = (sample_write "out.pdf" written None;; mret "out.pdf")
    /\ length written = 3%nat
    /\ (forall i p, ["a1"; "a2"; "a3"] !! i = Some p ->
          written !! i
          = Some (if bool_decide (Z.of_nat i + 1 ∈ [3; 1; 7]) then p ++ "@90" else p))
    /\ (Some [3; 1; 7] = Some [] -> written = ["a1"; "a2"; "a3"])
    /\ (Some [3; 1; 7] = None -> written = map (fun p => p ++ "@90") ["a1"; "a2"; "a3"]).
Proof.
  exact (rotate_pdf_selected_pages string sample_reader sample_rotate sample_write
           "a.pdf" "out.pdf" 90 (Some [3; 1; 7]) ["a1"; "a2"; "a3"]
           (fun p => p ++ "@90") eq_refl (fun p => eq_refl)).
Defined.

Example rotate_sample :
  rotate_loop string sample_rotate 90 (Some [3; 1; 7]) 0 ["a1"; "a2"; "a3"] []
  = Return ["a1@90"; "a2"; "a3@90"]
  /\ rotate_loop string sample_rotate 90 (Some []) 0 ["a1"; "a2"; "a3"] []
     = Return ["a1"; "a2"; "a3"]
  /\ rotate_loop string sample_rotate 90 None 0 ["a1"; "a2"; "a3"] []
     = Return ["a1@90"; "a2@90"; "a3@90"]
  /\ rotate_pdf string sample_reader sample_rotate sample_write "a.pdf" "out.pdf" 90
       None
     = Return "out.pdf"
  /\ rotate_pdf string sample_reader sample_rotate sample_write "a.pdf" "" 90 None
     = Raise (FileNotFoundError "").
Proof. repeat split. Qed.

Lemma reorder_pages_rearranges_witness :
  exists written,
    reorder_pages string sample_reader sample_write "a.pdf" "out.pdf" [3; 1; 2]
    = (sample_write "out.pdf" written None;; mret "out.pdf")
    /\ written = pages_kept ["a1"; "a2"; "a3"] [3; 1; 2]
    /\ (length written <= 3)%nat
    /\ ([3; 1; 2] = page_numbers 3 -> written = ["a1"; "a2"; "a3"])
    /\ (Permutation [3; 1; 2] (page_numbers 3) ->
        Permutation written ["a1"; "a2"; "a3"]).
Proof.
  exact (reorder_pages_rearranges string sample_reader sample_write "a.pdf" "out.pdf"
           [3; 1; 2] ["a1"; "a2"; "a3"] eq_refl).
Defined.

Example reorder_sample :
  reorder_loop string ["a1"; "a2"; "a3"] [3; 0; 1; 3; 9] []
  = Return ["a3"; "a1"; "a3"].
Proof. reflexivity. Qed.

(** *** split_pdf, mode "all" *)

(** The output path of the page of index [i] in mode "all". *)
Definition page_file (output_dir base_name : string) (i : nat) : string :=
  output_dir ++ "/" ++ base_name ++ "_page_" ++ str_of_Z (Z.of_nat i + 1) ++ ".pdf".

Lemma page_file_inj (output_dir base_name : string) (i j : nat) :
  page_file output_dir base_name i = page_file output_dir base_name j -> i = j.
Proof.
  unfold page_file. intros H.
  do 4 apply str_app_inv_head in H. apply str_app_inv_tail in H.
  apply str_of_Z_inj in H. lia.
Qed.

Lemma split_each_suffix {A : Type} (full pre l : list A)
  (output_dir base_name : string) :
  full = (pre ++ l)%list ->
  split_each full output_dir base_name
    (py_range (Z.of_nat (length pre)) (Z.of_nat (length pre) + Z.of_nat (length l)))
  = Return (imap (fun k p => (page_file output_dir base_name (length pre + k), [p])) l).
Proof.
  revert pre. induction l as [|x l IH]; intros pre Hfull.
  - rewrite py_range_empty by (cbn [length]; lia). reflexivity.
  - cbn [length]. rewrite py_range_cons by lia. cbn [split_each imap].
    assert (Hx : nth_error full (Z.to_nat (Z.of_nat (length pre))) = Some x).
    { rewrite Nat2Z.id, Hfull, nth_error_app2 by lia. now rewrite Nat.sub_diag. }
    rewrite (py_getitem_in_range full _ x) by (lia || exact Hx).
    cbn [mbind result_bind].
    specialize (IH (pre ++ [x])%list).
    rewrite List.length_app in IH. cbn [length] in IH.
    replace (Z.of_nat (length pre) + 1) with (Z.of_nat (length pre + 1)) by lia.
    replace (Z.of_nat (length pre) + Z.of_nat (S (length l)))
      with (Z.of_nat (length pre + 1) + Z.of_nat (length l)) by lia.
    rewrite IH by (rewrite Hfull, <- List.app_assoc; reflexivity).
    cbn [mbind result_bind mret result_ret]. do 2 f_equal.
    + unfold page_file.
      now replace (Z.of_nat (length pre + 0) + 1) with (Z.of_nat (length pre + 1)) by lia.
    + apply imap_ext. intros k y _. unfold compose.
      now replace (length pre + 1 + k)%nat with (length pre + S k)%nat by lia.
Qed.

(** X5.  In mode "all", [split_pdf] writes one file per page of the
    document, in page order: the file of the page of index [i] holds that
    page alone and is named [<output_dir>/<stem>_page_<i + 1>.pdf].  The
    names are pairwise distinct, so no output overwrites another, and the
    other parameters are ignored. *)
Theorem split_all_one_file_per_page {A : Type} (reader_pages : list A)
  (pdf_path output_dir : string) (start_page end_page : option Z)
  (pages : option (list Z)) :
  let outputs :=
    imap (fun i p => (page_file output_dir (path_stem pdf_path) i, [p])) reader_pages in
  split_pdf reader_pages pdf_path output_dir "all" start_page end_page pages
  = Return outputs
  /\ length outputs = length reader_pages
  /\ NoDup (map fst outputs).
Proof.
  cbv zeta. split; [|split].
  - unfold split_pdf. cbn [String.eqb Ascii.eqb Bool.eqb].
    exact (split_each_suffix reader_pages [] reader_pages output_dir
             (path_stem pdf_path) eq_refl).
  - apply length_imap.
  - apply NoDup_alt. intros i j x Hi Hj.
    change (map fst ?l) with (fst <$> l) in Hi, Hj.
    rewrite list_lookup_fmap, list_lookup_imap in Hi, Hj.
    destruct (reader_pages !! i) as [p|]; [|discriminate].
    destruct (reader_pages !! j) as [q|]; [|discriminate].
    cbn in Hi, Hj. injection Hi as <-. injection Hj as Hj.
    symmetry in Hj. now apply page_file_inj in Hj.
Qed.

(** *** split_pdf without its parameters *)

(** X6.  [split_pdf] does not reject a request whose parameters are
    missing: mode "range" without a start page or an end page, or with
    one of them 0, mode "extract" without a page list or with an empty
    one, and any mode other than "all", "range" and "extract" all return
    an empty list of outputs and write no file. *)
Theorem split_without_parameters_writes_nothing {A : Type} (reader_pages : list A)
  (pdf_path output_dir mode : string) (start_page end_page : option Z)
  (pages : option (list Z)) :
  (mode = "range" /\ (start_page = None \/ start_page = Some 0
                      \/ end_page = None \/ end_page = Some 0))
  \/ (mode = "extract" /\ (pages = None \/ pages = Some []))
  \/ (mode <> "all" /\ mode <> "range" /\ mode <> "extract") ->
  split_pdf reader_pages pdf_path output_dir mode start_page end_page pages
  = Return [].
Proof.
  unfold split_pdf.
  intros [[-> H] | [[-> H] | (Ha & Hr & He)]].
  - cbn [String.eqb Ascii.eqb Bool.eqb andb].
    destruct H as [-> | [-> | [-> | ->]]]; cbn [truthy_int Z.eqb negb andb];
      rewrite ?andb_false_r; reflexivity.
  - cbn [String.eqb Ascii.eqb Bool.eqb andb].
    destruct H as [-> | ->]; reflexivity.
  - destruct (String.eqb_spec mode "all"); [contradiction|].
    destruct (String.eqb_spec mode "range"); [contradiction|].
    destruct (String.eqb_spec mode "extract"); [contradiction|].
    reflexivity.
Qed.

(** *** add_page_numbers *)

Lemma replace_lacks_app (c : ascii) (old' new a b : string) :
  lacks c a = true ->
  str_replace (String c old') new (a ++ b) = a ++ str_replace (String c old') new b.
Proof.
  unfold str_replace. induction a as [|x a IH]; [reflexivity|].
  cbn [lacks]. intros H. apply andb_true_iff in H as [Hx Ha].
  apply negb_true_iff in Hx.
  rewrite !str_cons_app. cbn [replace_from has_prefix].
  rewrite Ascii.eqb_sym, Hx. cbn [andb]. now rewrite IH.
Qed.

Lemma replace_lacks (c : ascii) (old' new a : string) :
  lacks c a = true -> str_replace (String c old') new a = a.
Proof.
  intros H. rewrite <- (str_app_nil_r a) at 1.
  rewrite replace_lacks_app by exact H. apply str_app_nil_r.
Qed.

Lemma replace_page_hit (new b : string) :
  str_replace "{page}" new ("{page}" ++ b) = new ++ str_replace "{page}" new b.
Proof. reflexivity. Qed.

Lemma replace_total_hit (new b : string) :
  str_replace "{total}" new ("{total}" ++ b) = new ++ str_replace "{total}" new b.
Proof. reflexivity. Qed.

Lemma replace_page_skips_total (new b : string) :
  str_replace "{page}" new ("{total}" ++ b) = "{total}" ++ str_replace "{page}" new b.
Proof. reflexivity. Qed.

Lemma str_of_Z_no_brace (z : Z) : lacks "{" (str_of_Z z) = true.
Proof. now apply str_of_Z_lacks. Qed.

(** X7.  The page numbers [add_page_numbers] draws.  In a format made of
    plain text around one "{page}" and one "{total}", the page of index
    [i] is labelled with [start_number + i] and the page count in their
    places; a format without braces is drawn as it is on every page; and
    with the default format "{page}" two different pages never get the
    same label. *)
Theorem page_number_text_format (start_number total_pages : Z) :
  (forall pre mid post i,
     lacks "{" pre = true -> lacks "{" mid = true -> lacks "{" post = true ->
     page_number_text (pre ++ "{page}" ++ mid ++ "{total}" ++ post)
       start_number i total_pages
     = pre ++ str_of_Z (start_number + i) ++ mid ++ str_of_Z total_pages ++ post)
  /\ (forall pre post i,
        lacks "{" pre = true -> lacks "{" post = true ->
        page_number_text (pre ++ "{page}" ++ post) start_number i total_pages
        = pre ++ str_of_Z (start_number + i) ++ post)
  /\ (forall format_str i,
        lacks "{" format_str = true ->
        page_number_text format_str start_number i total_pages = format_str)
  /\ (forall i j,
        page_number_text "{page}" start_number i total_pages
        = page_number_text "{page}" start_number j total_pages -> i = j).
Proof.
  unfold page_number_text.
  assert (Hpage : forall pre post i,
            lacks "{" pre = true -> lacks "{" post = true ->
            str_replace "{total}" (str_of_Z total_pages)
              (str_replace "{page}" (str_of_Z (start_number + i))
                 (pre ++ "{page}" ++ post))
            = pre ++ str_of_Z (start_number + i) ++ post).
  { intros pre post i Hpre Hpost.
    rewrite (replace_lacks_app "{" "page}") by exact Hpre.
    rewrite replace_page_hit, (replace_lacks "{" "page}") by exact Hpost.
    apply (replace_lacks "{" "total}").
    now rewrite !lacks_app, Hpre, str_of_Z_no_brace, Hpost. }
  split; [|split; [exact Hpage|split]].
  - intros pre mid post i Hpre Hmid Hpost.
    rewrite (replace_lacks_app "{" "page}") by exact Hpre.
    rewrite replace_page_hit.
    rewrite (replace_lacks_app "{" "page}") by exact Hmid.
    rewrite replace_page_skips_total, (replace_lacks "{" "page}") by exact Hpost.
    rewrite (replace_lacks_app "{" "total}") by exact Hpre.
    rewrite (replace_lacks_app "{" "total}") by apply str_of_Z_no_brace.
    rewrite (replace_lacks_app "{" "total}") by exact Hmid.
    rewrite replace_total_hit, (replace_lacks "{" "total}") by exact Hpost.
    reflexivity.
  - intros format_str i H.
    now rewrite (replace_lacks "{" "page}"), (replace_lacks "{" "total}").
  - intros i j H.
    assert (Hdefault : forall k,
              str_replace "{total}" (str_of_Z total_pages)
                (str_replace "{page}" (str_of_Z (start_number + k)) "{page}")
              = str_of_Z (start_number + k)).
    { intros k. rewrite <- (str_app_nil_r (str_of_Z (start_number + k))) at 2.
      exact (Hpage "" "" k eq_refl eq_refl). }
    rewrite !Hdefault in H. apply str_of_Z_inj in H. lia.
Qed.

Lemma split_without_parameters_writes_nothing_witness :
  split_pdf ["p1"; "p2"] "doc.pdf" "out" "range" None (Some 2) None = Return [].
Proof.
  apply split_without_parameters_writes_nothing.
  left. split; [reflexivity | now left].
Defined.

Lemma page_number_text_format_witness :
  page_number_text ("Page " ++ "{page}" ++ " of " ++ "{total}" ++ ".") 1 4 12
  = "Page " ++ str_of_Z (1 + 4) ++ " of " ++ str_of_Z 12 ++ ".".
Proof.
  apply (proj1 (page_number_text_format 1 12) "Page " " of " "." 4); reflexivity.
Defined.

End PdfOps.

(** ** app/utils/file.py: MIME types, generated names, saving, cleanup *)
Module Files.
Import PyStr OS FileUtil Api Retention Text.
#[local] Open Scope Z_scope.

Definition mime_types : list (string * string) :=
  [(".pdf", "application/pdf");
   (".docx", "application/vnd.openxmlformats-officedocument.wordprocessingml.document");
   (".xlsx", "application/vnd.openxmlformats-officedocument.spreadsheetml.sheet");
   (".pptx", "application/vnd.openxmlformats-officedocument.presentationml.presentation");
   (".png", "image/png");
   (".jpg", "image/jpeg");
   (".jpeg", "image/jpeg");
   (".webp", "image/webp");
   (".gif", "image/gif");
   (".bmp", "image/bmp");
   (".tiff", "image/tiff");
   (".zip", "application/zip")].

(** [get_mime_type(extension)]. *)
Definition get_mime_type (extension : string) : string :=
  Passport.dict_get mime_types (lower extension) "application/octet-stream".

(** [s.startswith(p)]. *)
Definition startswith (s p : string) : bool := PdfOps.has_prefix p s.

Section Saving.

Variable clock : nat -> Q.
Variable uuid : nat -> N.

(** [save_output_file(content, filename)], by the size of [content]. *)
Definition save_output_file (content_size : Z) (fname : string) : io string :=
  let download_dir := DOWNLOAD_DIR in
  make_directory download_dir;;
  output_filename ← generate_filename clock uuid fname None;
  let file_path := path_join download_dir output_filename in
  write_bytes clock (path_str file_path) content_size;;
  mret ("/downloads/" ++ output_filename).

End Saving.

(** *** get_mime_type *)

Lemma accepted_extension (file : UploadFile) (allowed : list string) :
  validate_document_file file allowed = Return tt ->
  exists fn, filename file = Some fn /\ fn <> ""
             /\ In (get_file_extension fn) allowed.
Proof.
  unfold validate_document_file. destruct (filename file) as [fn|]; [|discriminate].
  destruct (String.eqb_spec fn ""); [discriminate|].
  destruct (str_in (get_file_extension fn) allowed) eqn:Hin; [|discriminate].
  intros _. exists fn. repeat split; [assumption|]. now apply str_in_In.
Qed.

Lemma dict_get_missing {V : Type} (d : list (string * V)) (k : string) (v : V) :
  ~ In k (map fst d) -> Passport.dict_get d k v = v.
Proof.
  induction d as [|[k' v'] rest IH]; [reflexivity|].
  cbn [Passport.dict_get map fst In]. intros H.
  destruct (String.eqb_spec k k') as [->|_]; [tauto|].
  apply IH. tauto.
Qed.

(** X8.  [get_mime_type] does not depend on the case of the extension,
    and answers "application/octet-stream" for an extension it does not
    know.  It agrees with the validators: an upload that
    [validate_pdf_file] accepts has the type "application/pdf", and one
    that [validate_image_file] accepts has a type that starts with
    "image/". *)
Theorem mime_type_of_accepted_upload (file : UploadFile) (fn : string) :
  filename file = Some fn ->
  (validate_pdf_file file = Return tt ->
   get_mime_type (get_file_extension fn) = "application/pdf")
  /\ (validate_image_file file = Return tt ->
      startswith (get_mime_type (get_file_extension fn)) "image/" = true)
  /\ (forall ext, get_mime_type (lower ext) = get_mime_type ext)
  /\ (forall ext, ~ In (lower ext) (map fst mime_types) ->
        get_mime_type ext = "application/octet-stream").
Proof.
  intros Hfn. split; [|split; [|split]].
  - unfold validate_pdf_file. rewrite Hfn.
    destruct (String.eqb fn ""); [discriminate|].
    destruct (String.eqb_spec (get_file_extension fn) ".pdf") as [->|];
      [reflexivity | discriminate].
  - unfold validate_image_file. rewrite Hfn.
    destruct (String.eqb fn ""); [discriminate|].
    destruct (str_in (get_file_extension fn) valid_image_extensions) eqn:Hin;
      [|discriminate].
    intros _. apply str_in_In in Hin. cbn [valid_image_extensions In] in Hin.
    repeat (destruct Hin as [<- | Hin]; [reflexivity|]). destruct Hin.
  - intros ext. unfold get_mime_type. now rewrite lower_idem.
  - intros ext Hext. unfold get_mime_type. now apply dict_get_missing.
Qed.

Lemma mime_type_of_accepted_upload_witness :
  (validate_pdf_file {| filename := Some "Scan.PDF"; content_size := 9 |} = Return tt ->
   get_mime_type (get_file_extension "Scan.PDF") = "application/pdf")
  /\ (validate_image_file {| filename := Some "Scan.PDF"; content_size := 9 |}
      = Return tt ->
      startswith (get_mime_type (get_file_extension "Scan.PDF")) "image/" = true)
  /\ (forall ext, get_mime_type (lower ext) = get_mime_type ext)
  /\ (forall ext, ~ In (lower ext) (map fst mime_types) ->
        get_mime_type ext = "application/octet-stream").
Proof.
  exact (mime_type_of_accepted_upload
           {| filename := Some "Scan.PDF"; content_size := 9 |} "Scan.PDF" eq_refl).
Defined.

Example mime_examples :
  get_mime_type ".JPG" = "image/jpeg" /\ get_mime_type ".exe" = "application/octet-stream"
  /\ get_mime_type "pdf" = "application/octet-stream".
Proof. repeat split. Qed.

(** *** generate_filename *)

Lemma path_name_plain (s : string) : plain_name s = true -> path_name s = s.
Proof.
  intros H. unfold path_name.
  change (path_parts s) with (path_parts (join "/" [s])).
  rewrite (path_parts_join [s]) by (try discriminate; now repeat constructor).
  reflexivity.
Qed.

(** The part of a generated name before its extension. *)
Definition generated_stem (clock : nat -> Q) (uuid : nat -> N)
  (original_name : string) (w : world) : string :=
  path_stem original_name ++ "_"
  ++ Split.str_of_Z (int_of_float (clock (w_ticks w))) ++ "_"
  ++ hex8 (uuid (w_uuids w)).

Lemma generated_stem_plain (clock : nat -> Q) (uuid : nat -> N)
  (original_name : string) (w : world) :
  no_slash (generated_stem clock uuid original_name w) = true
  /\ generated_stem clock uuid original_name w <> "".
Proof.
  unfold generated_stem, path_stem. split.
  - rewrite !no_slash_app.
    rewrite name_stem_no_slash by apply path_name_no_slash.
    now rewrite str_of_Z_no_slash, hex8_no_slash.
  - destruct (name_stem (path_name original_name)); discriminate.
Qed.

Lemma generated_name_parts (clock : nat -> Q) (uuid : nat -> N)
  (original_name : string) (extension : option string) (w : world) :
  generated_name clock uuid original_name extension w
  = generated_stem clock uuid original_name w
    ++ match extension with
       | Some e => if String.eqb e "" then path_suffix original_name else e
       | None => path_suffix original_name
       end.
Proof.
  unfold generated_name, generated_stem. now rewrite !str_app_assoc.
Qed.

Lemma suffix_of_generated (stem r : string) :
  no_slash stem = true -> stem <> "" ->
  r <> "" -> lacks "." r = true -> no_slash r = true ->
  path_suffix (stem ++ String "." r) = String "." r
  /\ path_stem (stem ++ String "." r) = stem.
Proof.
  intros Hs Hne Hr Hl Hn. unfold path_suffix, path_stem.
  rewrite path_name_plain.
  - now apply name_suffix_app.
  - unfold plain_name. rewrite no_slash_app, Hs. cbn [no_slash]. rewrite Hn.
    cbn [andb]. destruct stem as [|x stem]; [congruence|].
    unfold kept_component. rewrite str_cons_app.
    destruct stem as [|y stem]; cbn; destruct (Ascii.eqb x "."); reflexivity.
Qed.

(** X9.  [generate_filename] keeps the extension.  Given an extension
    made of a dot and a non-empty run of characters other than "." and "/",
    the name it makes up has exactly that extension (as [Path.suffix]
    reads it) and the stem [<stem>_<timestamp>_<8 hex digits>]; given
    none, the name has the extension of the original name whenever that
    one has an extension, so a saved upload has the same lower-cased
    extension as the file the client sent. *)
Theorem generated_name_keeps_extension (clock : nat -> Q) (uuid : nat -> N)
  (original_name : string) (w : world) :
  (forall r, r <> "" -> lacks "." r = true -> no_slash r = true ->
     let name := generated_name clock uuid original_name (Some (String "." r)) w in
     path_suffix name = String "." r
     /\ path_stem name = generated_stem clock uuid original_name w)
  /\ (path_suffix original_name <> "" ->
      let name := generated_name clock uuid original_name None w in
      path_suffix name = path_suffix original_name
      /\ get_file_extension name = get_file_extension original_name
      /\ path_stem name = generated_stem clock uuid original_name w).
Proof.
  destruct (generated_stem_plain clock uuid original_name w) as [Hs Hne].
  split.
  - intros r Hr Hl Hn. cbv zeta. rewrite generated_name_parts.
    cbn [String.eqb]. now apply suffix_of_generated.
  - intros Hsuf. cbv zeta. rewrite generated_name_parts.
    unfold path_suffix in Hsuf |- *.
    destruct (name_suffix_shape (path_name original_name) Hsuf)
      as (a & r & Hname & Ha & Hr & Hl & Hx & _).
    assert (Hn : no_slash r = true).
    { pose proof (name_suffix_no_slash _ (path_name_no_slash original_name)) as H.
      rewrite Hx in H. cbn [no_slash] in H. now apply andb_true_iff in H as [_ H]. }
    rewrite Hx.
    destruct (suffix_of_generated _ r Hs Hne Hr Hl Hn) as [H1 H2].
    unfold path_suffix in H1. unfold get_file_extension, path_suffix.
    rewrite H1, Hx. repeat split. exact H2.
Qed.

Lemma generated_name_keeps_extension_witness :
  let name := generated_name sample_clock sample_uuid "My Report.v2.PDF" None
                empty_world in
  path_suffix name = path_suffix "My Report.v2.PDF"
  /\ get_file_extension name = get_file_extension "My Report.v2.PDF"
  /\ path_stem name
     = generated_stem sample_clock sample_uuid "My Report.v2.PDF" empty_world.
Proof.
  apply (proj2 (generated_name_keeps_extension sample_clock sample_uuid
                  "My Report.v2.PDF" empty_world)).
  discriminate.
Defined.

Example generated_name_examples :
  generated_name sample_clock sample_uuid "My Report.v2.PDF" None empty_world
  = "My Report.v2_1700000000_00000bee.PDF"
  /\ generated_name sample_clock sample_uuid "../../etc/passwd" (Some ".docx") empty_world
     = "passwd_1700000000_00000bee.docx"
  /\ path_suffix (generated_name sample_clock sample_uuid "notes." None empty_world)
     = "._1700000000_00000bee".
Proof. repeat split. Qed.

(** *** save_upload_file and save_output_file *)

Lemma underscored_not_parent (a b : string) : a ++ String "_" b <> "..".
Proof.
  destruct a as [|x [|y a]].
  - discriminate.
  - change (String x "" ++ String "_" b) with (String x (String "_" b)). discriminate.
  - destruct a as [|z a].
    + change (String x (String y "") ++ String "_" b)
        with (String x (String y (String "_" b))). discriminate.
    + rewrite !str_cons_app. discriminate.
Qed.

Lemma generated_name_not_parent (clock : nat -> Q) (uuid : nat -> N)
  (original_name : string) (extension : option string) (w : world) :
  generated_name clock uuid original_name extension w <> "..".
Proof. unfold generated_name. apply underscored_not_parent. Qed.

Lemma write_file_lookup (p : string) (size : Z) (now : Q) (s : fs) (k : key) :
  files (write_file p size now s) !! k
  = if decide (k = path_key p)
    then Some {| st_size := size; st_mtime := now; deletable := true |}
    else files s !! k.
Proof.
  unfold write_file. cbn [files].
  destruct (decide (k = path_key p)) as [->|Hne].
  - apply lookup_insert_eq.
  - now apply lookup_insert_ne.
Qed.



Example traversal_name_is_flattened :
  snd (save_upload_file sample_clock sample_uuid
         {| filename := Some "../../etc/passwd"; content_size := 33 |} "pdf" empty_world)
  = Return "uploads/pdf/passwd_1700000000_00000bee".
Proof. reflexivity. Qed.

Lemma download_path_key (name : string) :
  plain_name name = true ->
  path_key (path_str (path_join DOWNLOAD_DIR name)) = [""; "downloads"; name].
Proof.
  intros Hf.
  assert (Hn : no_slash name = true) by (now apply andb_true_iff in Hf as [? _]).
  unfold path_join. rewrite (no_slash_relative name Hn).
  set (l := ["downloads"; name]).
  assert (Hl : Forall (fun x => plain_name x = true) l)
    by (repeat constructor; assumption).
  assert (Hparts : path_parts (DOWNLOAD_DIR ++ "/" ++ name) = l).
  { change (DOWNLOAD_DIR ++ "/" ++ name) with ("." ++ String "/" (join "/" l)).
    unfold path_parts. rewrite split_on_app. simpl app.
    rewrite filter_cons_False by (simpl; tauto).
    apply (path_parts_join l); [discriminate | exact Hl]. }
  unfold path_key, path_str. rewrite Hparts.
  change (path_root (DOWNLOAD_DIR ++ "/" ++ name)) with "".
  simpl append.
  change (path_root (String "d" _)) with "".
  f_equal. apply (path_parts_join l); [discriminate | exact Hl].
Qed.

(** X11.  [save_output_file] writes the content directly inside the
    download directory under a generated name that holds no "/", and
    returns ["/downloads/" + name]: the URL it hands out names the file it
    wrote, which has the size of the content, and no other file is
    touched. *)
Theorem output_saved_inside_downloads (clock : nat -> Q) (uuid : nat -> N)
  (size : Z) (fname : string) (w : world) :
  let name := generated_name clock uuid fname None w in
  let run := save_output_file clock uuid size fname w in
  let key := [""; "downloads"; name] in
  no_slash name = true /\ name <> ".."
  /\ snd run = Return ("/downloads/" ++ name)
  /\ path_key (DOWNLOAD_DIR ++ "/" ++ name) = key
  /\ under_downloads key = true
  /\ files (w_fs (fst run)) !! key
     = Some {| st_size := size; st_mtime := clock (S (w_ticks w)); deletable := true |}
  /\ (forall k, k <> key -> files (w_fs (fst run)) !! k = files (w_fs w) !! k).
Proof.
  cbv zeta.
  pose proof (plain_generated_name clock uuid fname w) as Hplain.
  pose proof (download_path_key _ Hplain) as Hkey.
  split; [apply generated_name_no_slash|].
  split; [apply generated_name_not_parent|].
  assert (Hrun : save_output_file clock uuid size fname w
                 = (set_fs (write_file
                              (path_str (path_join DOWNLOAD_DIR
                                           (generated_name clock uuid fname None w)))
                              size (clock (S (w_ticks w)))
                              (makedirs DOWNLOAD_DIR (w_fs w)))
                      (tick (draw w)),
                    Return ("/downloads/" ++ generated_name clock uuid fname None w)))
    by reflexivity.
  rewrite Hrun. cbn [fst snd w_fs set_fs].
  split; [reflexivity|].
  assert (Hraw : path_key (DOWNLOAD_DIR ++ "/" ++ generated_name clock uuid fname None w)
                 = [""; "downloads"; generated_name clock uuid fname None w]).
  { assert (Hn : no_slash (generated_name clock uuid fname None w) = true)
      by apply generated_name_no_slash.
    set (name := generated_name clock uuid fname None w) in *.
    set (l := ["downloads"; name]).
    assert (Hl : Forall (fun x => plain_name x = true) l)
      by (repeat constructor; assumption).
    change (DOWNLOAD_DIR ++ "/" ++ name) with ("." ++ String "/" (join "/" l)).
    unfold path_key, path_parts. rewrite split_on_app. simpl app.
    rewrite filter_cons_False by (simpl; tauto).
    change (path_root ("." ++ String "/" (join "/" l))) with "".
    f_equal. apply (path_parts_join l); [discriminate | exact Hl]. }
  split; [exact Hraw|].
  split; [reflexivity|].
  split.
  - rewrite write_file_lookup, Hkey. now rewrite decide_True.
  - intros k Hne. rewrite write_file_lookup, Hkey. now rewrite decide_False.
Qed.

(** *** cleanup_files *)

(** What is left at [k] once the paths [ps] are cleaned up: a file that
    one of the paths names and that the system lets go is gone, anything
    else is as it was. *)
Definition after_cleanup (ps : list string) (s : fs) (k : key) : option file_meta :=
  match files s !! k with
  | Some m => if deletable m && bool_decide (k ∈ map path_key ps) then None else Some m
  | None => None
  end.

Lemma cleanup_file_lookup (p : string) (s : fs) (k : key) :
  files (fst (FileUtil.cleanup_file p s)) !! k = after_cleanup [p] s k.
Proof.
  unfold after_cleanup. cbn [map].
  destruct (decide (k = path_key p)) as [->|Hne].
  - rewrite bool_decide_eq_true_2 by (apply list_elem_of_here).
    rewrite cleanup_file_effect.
    destruct (files s !! path_key p) as [m|] eqn:Hm; [|exact Hm].
    rewrite andb_true_r. destruct (deletable m); [|exact Hm].
    cbn [files]. apply lookup_delete_eq.
  - rewrite cleanup_file_other by exact Hne.
    rewrite bool_decide_eq_false_2.
    + destruct (files s !! k) as [m|]; [now rewrite andb_false_r | reflexivity].
    + intros Hin. apply list_elem_of_singleton in Hin. contradiction.
Qed.

Lemma cleanup_files_lookup (ps : list string) (s : fs) (k : key) :
  files (fst (FileUtil.cleanup_files ps s)) !! k = after_cleanup ps s k.
Proof.
  revert s. induction ps as [|p ps IH]; intros s.
  - unfold after_cleanup. cbn.
    destruct (files s !! k) as [m|]; [|reflexivity].
    rewrite bool_decide_eq_false_2 by (apply not_elem_of_nil).
    now rewrite andb_false_r.
  - cbn [FileUtil.cleanup_files].
    pose proof (cleanup_file_returns p s) as Hr.
    pose proof (cleanup_file_lookup p s k) as Hl.
    destruct (FileUtil.cleanup_file p s) as [s' r]. cbn [fst snd] in Hr, Hl. subst r.
    rewrite IH. unfold after_cleanup in *. rewrite Hl. cbn [map].
    destruct (files s !! k) as [m|]; [|reflexivity].
    destruct (deletable m) eqn:Hd; cbn [andb]; [|now rewrite Hd].
    destruct (decide (k = path_key p)) as [->|Hne].
    + rewrite !bool_decide_eq_true_2; [reflexivity | apply list_elem_of_here
                                        | apply list_elem_of_here].
    + rewrite (bool_decide_eq_false_2 (k ∈ [path_key p]))
        by (intros Hin; apply list_elem_of_singleton in Hin; contradiction).
      rewrite Hd. cbn [andb].
      destruct (decide (k ∈ map path_key ps)) as [Hin|Hout].
      * rewrite !bool_decide_eq_true_2; [reflexivity | now apply list_elem_of_further | exact Hin].
      * rewrite !bool_decide_eq_false_2; [reflexivity | | exact Hout].
        intros Hin. apply elem_of_cons in Hin as [?|?]; contradiction.
Qed.

Lemma cleanup_files_dirs (ps : list string) (s : fs) :
  dirs (fst (FileUtil.cleanup_files ps s)) = dirs s.
Proof.
  revert s. induction ps as [|p ps IH]; intros s; [reflexivity|].
  cbn [FileUtil.cleanup_files].
  pose proof (cleanup_file_returns p s) as Hr.
  pose proof (cleanup_file_dirs p s) as Hd.
  destruct (FileUtil.cleanup_file p s) as [s' r]. cbn [fst snd] in Hr, Hd. subst r.
  now rewrite IH.
Qed.

Lemma fs_eq (s t : fs) : files s = files t -> dirs s = dirs t -> s = t.
Proof. destruct s, t. cbn. now intros -> ->. Qed.

(** X12.  [cleanup_files] never raises and never touches a directory.
    Of the files, it removes exactly those that one of the paths names
    and that the system lets go, and leaves every other one as it was.
    So the outcome does not depend on the order of the paths or on
    repetitions among them, and cleaning up a second time changes
    nothing. *)
Theorem cleanup_files_effect (ps : list string) (s : fs) :
  snd (FileUtil.cleanup_files ps s) = Return tt
  /\ dirs (fst (FileUtil.cleanup_files ps s)) = dirs s
  /\ (forall k, files (fst (FileUtil.cleanup_files ps s)) !! k = after_cleanup ps s k)
  /\ (forall qs, (forall p, In p ps <-> In p qs) ->
        fst (FileUtil.cleanup_files qs s) = fst (FileUtil.cleanup_files ps s))
  /\ FileUtil.cleanup_files ps (fst (FileUtil.cleanup_files ps s))
     = (fst (FileUtil.cleanup_files ps s), Return tt).
Proof.
  split; [apply cleanup_files_returns|].
  split; [apply cleanup_files_dirs|].
  split; [apply cleanup_files_lookup|].
  split.
  - intros qs Hsame. apply fs_eq; [|now rewrite !cleanup_files_dirs].
    apply map_eq. intros k. rewrite !cleanup_files_lookup. unfold after_cleanup.
    destruct (files s !! k) as [m|]; [|reflexivity].
    assert (Hin : k ∈ map path_key qs <-> k ∈ map path_key ps).
    { rewrite !list_elem_of_In, !in_map_iff.
      split; intros (p & Hp & Hi); exists p; (split; [exact Hp|]); now apply Hsame. }
    destruct (decide (k ∈ map path_key ps)) as [Hy|Hn].
    + rewrite !bool_decide_eq_true_2; [reflexivity | exact Hy | now apply Hin].
    + rewrite !bool_decide_eq_false_2; [reflexivity | exact Hn | now rewrite Hin].
  - pose proof (cleanup_files_returns ps (fst (FileUtil.cleanup_files ps s))) as Hr.
    destruct (FileUtil.cleanup_files ps (fst (FileUtil.cleanup_files ps s)))
      as [s2 r] eqn:E. cbn [snd] in Hr. subst r. f_equal.
    assert (Hs2 : s2 = fst (FileUtil.cleanup_files ps (fst (FileUtil.cleanup_files ps s))))
      by (now rewrite E).
    rewrite Hs2. apply fs_eq; [|now rewrite !cleanup_files_dirs].
    apply map_eq. intros k. rewrite cleanup_files_lookup. unfold after_cleanup at 1.
    rewrite cleanup_files_lookup. unfold after_cleanup.
    destruct (files s !! k) as [m|]; [|reflexivity].
    destruct (deletable m && bool_decide (k ∈ map path_key ps)) eqn:Hd;
      [reflexivity|]. now rewrite Hd.
Qed.

Example cleanup_order_sample :
  let s := {| files := {[ [""; "uploads"; "a.pdf"] :=
                            {| st_size := 1; st_mtime := 0; deletable := true |};
                          [""; "uploads"; "b.pdf"] :=
                            {| st_size := 2; st_mtime := 0; deletable := false |};
                          [""; "uploads"; "c.pdf"] :=
                            {| st_size := 3; st_mtime := 0; deletable := true |} ]};
              dirs := {[ [""; "uploads"] ]} |} in
  let after := fst (FileUtil.cleanup_files
                      ["uploads/b.pdf"; "./uploads//a.pdf"; "uploads"; "uploads/a.pdf"] s) in
  files after !! [""; "uploads"; "a.pdf"] = None
  /\ files after !! [""; "uploads"; "b.pdf"]
     = Some {| st_size := 2; st_mtime := 0; deletable := false |}
  /\ files after !! [""; "uploads"; "c.pdf"]
     = Some {| st_size := 3; st_mtime := 0; deletable := true |}
  /\ dirs after = {[ [""; "uploads"] ]}.
Proof.
  cbv zeta. rewrite !cleanup_files_lookup, cleanup_files_dirs.
  repeat split; vm_compute; reflexivity.
Qed.

(** *** validate_document_file *)

(** X13.  [validate_document_file] accepts an upload exactly when it has
    a non-empty file name whose lower-cased extension is in the allowed
    list, and raises HTTPException(400) otherwise, never anything else; an
    empty list rejects every upload.  [validate_pdf_file] accepts the same
    uploads as [validate_document_file] with the list [".pdf"], and
    [validate_image_file] the same as with the seven image extensions. *)
Theorem validate_document_file_spec (file : UploadFile) (allowed : list string) :
  (validate_document_file file allowed = Return tt <->
     exists fn, filename file = Some fn /\ fn <> ""
                /\ In (lower (path_suffix fn)) allowed)
  /\ (validate_document_file file allowed = Return tt
      \/ exists d, validate_document_file file allowed = Raise (HTTPException 400 d))
  /\ (allowed = [] -> validate_document_file file allowed <> Return tt)
  /\ (validate_pdf_file file = Return tt <->
      validate_document_file file [".pdf"] = Return tt)
  /\ (validate_image_file file = Return tt <->
      validate_document_file file valid_image_extensions = Return tt).
Proof.
  unfold validate_document_file, validate_pdf_file, validate_image_file,
    get_file_extension.
  destruct (filename file) as [fn|].
  2:{ repeat split; try discriminate; eauto.
      intros (fn & H & _). discriminate. }
  destruct (String.eqb_spec fn "") as [->|Hne].
  { repeat split; try discriminate; eauto.
    intros (fn & [= <-] & H & _). congruence. }
  split; [|split; [|split; [|split]]].
  - destruct (str_in (lower (path_suffix fn)) allowed) eqn:Hin; cbn [negb].
    + split; [|reflexivity]. intros _. exists fn. repeat split; [assumption|].
      now apply str_in_In.
    + split; [discriminate|]. intros (fn' & [= <-] & _ & H).
      apply str_in_In in H. congruence.
  - destruct (str_in (lower (path_suffix fn)) allowed); cbn [negb]; eauto.
  - intros ->. cbn. discriminate.
  - cbn [str_in existsb]. rewrite orb_false_r.
    destruct (String.eqb (lower (path_suffix fn)) ".pdf"); cbn [negb];
      split; (reflexivity || discriminate).
  - destruct (str_in (lower (path_suffix fn)) valid_image_extensions); cbn [negb];
      split; (reflexivity || discriminate).
Qed.

Example document_validation_examples :
  validate_document_file {| filename := Some "a.DOCX"; content_size := 1 |}
    [".docx"; ".doc"] = Return tt
  /\ validate_document_file {| filename := Some "a.docx.pdf"; content_size := 1 |}
       [".docx"; ".doc"]
     = Raise (HTTPException 400 "Invalid file format. Supported: .docx, .doc")
  /\ validate_document_file {| filename := Some "a.docx"; content_size := 1 |}
       [".DOCX"]
     = Raise (HTTPException 400 "Invalid file format. Supported: .DOCX").
Proof. repeat split. Qed.

End Files.

(** ** app/tasks/workers.py: the background tasks *)
Module Tasks.
Import PyStr OS FileUtil Api Workers Retention.
#[local] Open Scope Z_scope.

(** [try: body except Exception as e: handler(e)]. *)
Definition try_except_as {A : Type} (body : io A) (handler : exn -> io A) : io A :=
  fun w =>
    match body w with
    | (w', Return a) => (w', Return a)
    | (w', Raise e) => handler e w'
    end.

Section Celery.

(** [self.update_state(state="PROCESSING", meta={"progress": n, ...})],
    [str(e)], and the services behind the tasks. *)
Variable update_state : Z -> io unit.
Variable str_of_exception : exn -> string.
Variable pdf_to_word_service : string -> string -> io string.
Variable merge_pdfs_service : list string -> string -> io string.

Definition failure (e : exn) : json :=
  JObj [("success", JBool false); ("error", JStr (str_of_exception e))].

Definition convert_pdf_to_word_task (input_path output_path : string) : io json :=
  try_except_as
    (update_state 10;;
     result ← pdf_to_word_service input_path output_path;
     update_state 90;;
     Api.cleanup_file input_path;;
     mret (JObj [("success", JBool true); ("output_path", JStr result)]))
    (fun e =>
       Api.cleanup_file input_path;;
       mret (failure e)).

Definition merge_pdfs_task (input_paths : list string) (output_path : string)
  : io json :=
  try_except_as
    (update_state 10;;
     result ← merge_pdfs_service input_paths output_path;
     update_state 90;;
     Api.cleanup_files input_paths;;
     mret (JObj [("success", JBool true); ("output_path", JStr result)]))
    (fun e =>
       Api.cleanup_files input_paths;;
       mret (failure e)).

(** The work of a task before its cleanup: the progress notes around the
    service call. *)
Definition noted {A : Type} (work : io A) : io A :=
  update_state 10;;
  result ← work;
  update_state 90;;
  mret result.

Lemma api_cleanup_files_run (ps : list string) (w : world) :
  Api.cleanup_files ps w
  = (set_fs (fst (FileUtil.cleanup_files ps (w_fs w))) w, Return tt).
Proof.
  unfold Api.cleanup_files.
  pose proof (cleanup_files_returns ps (w_fs w)) as H.
  destruct (FileUtil.cleanup_files ps (w_fs w)) as [s r]. cbn in H. now subst r.
Qed.

Lemma api_cleanup_file_run (p : string) (w : world) :
  Api.cleanup_file p w
  = (set_fs (fst (FileUtil.cleanup_file p (w_fs w))) w, Return tt).
Proof.
  unfold Api.cleanup_file.
  pose proof (cleanup_file_returns p (w_fs w)) as H.
  destruct (FileUtil.cleanup_file p (w_fs w)) as [s r]. cbn in H. now subst r.
Qed.

Lemma convert_task_run (input_path output_path : string) (w : world) :
  convert_pdf_to_word_task input_path output_path w
  = let (w1, r) := noted (pdf_to_word_service input_path output_path) w in
    (set_fs (fst (FileUtil.cleanup_file input_path (w_fs w1))) w1,
     Return match r with
            | Return result =>
                JObj [("success", JBool true); ("output_path", JStr result)]
            | Raise e => failure e
            end).
Proof.
  unfold convert_pdf_to_word_task, try_except_as, noted.
  unfold mbind, io_bind, mret, io_ret.
  destruct (update_state 10 w) as [w1 [[]|e]];
    [|rewrite api_cleanup_file_run; reflexivity].
  destruct (pdf_to_word_service input_path output_path w1) as [w2 [result|e]];
    [|rewrite api_cleanup_file_run; reflexivity].
  destruct (update_state 90 w2) as [w3 [[]|e]];
    [|rewrite api_cleanup_file_run; reflexivity].
  rewrite api_cleanup_file_run. reflexivity.
Qed.

Lemma merge_task_run (input_paths : list string) (output_path : string) (w : world) :
  merge_pdfs_task input_paths output_path w
  = let (w1, r) := noted (merge_pdfs_service input_paths output_path) w in
    (set_fs (fst (FileUtil.cleanup_files input_paths (w_fs w1))) w1,
     Return match r with
            | Return result =>
                JObj [("success", JBool true); ("output_path", JStr result)]
            | Raise e => failure e
            end).
Proof.
  unfold merge_pdfs_task, try_except_as, noted.
  unfold mbind, io_bind, mret, io_ret.
  destruct (update_state 10 w) as [w1 [[]|e]];
    [|rewrite api_cleanup_files_run; reflexivity].
  destruct (merge_pdfs_service input_paths output_path w1) as [w2 [result|e]];
    [|rewrite api_cleanup_files_run; reflexivity].
  destruct (update_state 90 w2) as [w3 [[]|e]];
    [|rewrite api_cleanup_files_run; reflexivity].
  rewrite api_cleanup_files_run. reflexivity.
Qed.

(** X14.  A conversion task and the merge task never raise: whatever
    the progress notes or the service do, the task returns a dictionary
    whose "success" tells whether all of them returned, with the service's
    result under "output_path" or the text of the exception under
    "error".  Either way the input files are cleaned up after the work:
    each one the system lets go is gone when the task ends, and no other
    file is touched by the cleanup. *)
Theorem tasks_report_and_clean_up :
  (forall input_path output_path w,
     let work := noted (pdf_to_word_service input_path output_path) w in
     let run := convert_pdf_to_word_task input_path output_path w in
     exists j,
       snd run = Return j
       /\ field "success" j = Some (JBool (returns (snd work)))
       /\ (forall result, snd work = Return result ->
             j = JObj [("success", JBool true); ("output_path", JStr result)])
       /\ (forall e, snd work = Raise e ->
             j = JObj [("success", JBool false); ("error", JStr (str_of_exception e))])
       /\ (removable input_path (w_fs (fst work)) ->
           os_path_exists input_path (w_fs (fst run)) = false)
       /\ (forall k, k <> path_key input_path ->
             files (w_fs (fst run)) !! k = files (w_fs (fst work)) !! k))
  /\ (forall input_paths output_path w,
        let work := noted (merge_pdfs_service input_paths output_path) w in
        let run := merge_pdfs_task input_paths output_path w in
        exists j,
          snd run = Return j
          /\ field "success" j = Some (JBool (returns (snd work)))
          /\ (forall result, snd work = Return result ->
                j = JObj [("success", JBool true); ("output_path", JStr result)])
          /\ (forall e, snd work = Raise e ->
                j = JObj [("success", JBool false);
                          ("error", JStr (str_of_exception e))])
          /\ (Forall (fun p => removable p (w_fs (fst work))) input_paths ->
              Forall (fun p => os_path_exists p (w_fs (fst run)) = false) input_paths)
          /\ (forall k, ~ In k (map path_key input_paths) ->
                files (w_fs (fst run)) !! k = files (w_fs (fst work)) !! k)).
Proof.
  split.
  - intros input_path output_path w. cbv zeta. rewrite convert_task_run.
    destruct (noted (pdf_to_word_service input_path output_path) w) as [w1 r].
    cbn [fst snd set_fs w_fs]. eexists. split; [reflexivity|].
    split; [destruct r; reflexivity|].
    split; [now intros result ->|]. split; [now intros e ->|].
    split; [apply cleanup_file_gone | intros k Hk; now apply cleanup_file_other].
  - intros input_paths output_path w. cbv zeta. rewrite merge_task_run.
    destruct (noted (merge_pdfs_service input_paths output_path) w) as [w1 r].
    cbn [fst snd set_fs w_fs]. eexists. split; [reflexivity|].
    split; [destruct r; reflexivity|].
    split; [now intros result ->|]. split; [now intros e ->|].
    split; [apply cleanup_files_gone|].
    intros k Hk. apply cleanup_files_other. now apply not_in_keys.
Qed.

End Celery.

(** *** cleanup_old_files, run again *)

Lemma older_later (t1 t2 : Q) (m : file_meta) :
  (t1 <= t2)%Q -> older t1 m = true -> older t2 m = true.
Proof.
  intros Hle H. apply older_iff. apply older_iff in H. lra.
Qed.

Lemma swept_entry_later (reach : bool) (t1 t2 : Q) (o : option file_meta) :
  (t1 <= t2)%Q ->
  swept_entry reach t2 (swept_entry reach t1 o) = swept_entry reach t2 o.
Proof.
  intros Hle. destruct o as [m|]; [|reflexivity].
  unfold swept_entry at 2.
  destruct (reach && older t1 m && deletable m) eqn:E; [|reflexivity].
  apply andb_true_iff in E as [E Hd]. apply andb_true_iff in E as [-> Ho].
  cbn. now rewrite (older_later t1 t2 m Hle Ho), Hd.
Qed.

Lemma cleanup_old_files_dirs (now : Q) (s : fs) :
  dirs (fst (cleanup_old_files now s)) = dirs s.
Proof.
  unfold cleanup_old_files. cbn [fst fold_left].
  now rewrite !sweep_directory_dirs.
Qed.

Lemma in_reach_after_sweep (now : Q) (s : fs) (k : key) :
  in_reach (fst (cleanup_old_files now s)) k = in_reach s k.
Proof.
  unfold in_reach, swept_in, os_path_exists, key_exists.
  rewrite !cleanup_old_files_dirs, !cleanup_old_files_lookup.
  replace (in_reach s (path_key UPLOAD_DIR)) with false
    by (unfold in_reach, swept_in; now rewrite !andb_false_r).
  replace (in_reach s (path_key DOWNLOAD_DIR)) with false
    by (unfold in_reach, swept_in; now rewrite !andb_false_r).
  now rewrite !swept_entry_out_of_reach.
Qed.

(** X15.  Running [cleanup_old_files] again later gives what one run at
    the later time gives: a sweep at [t1] followed by a sweep at
    [t2 >= t1] leaves the file system exactly as a single sweep at [t2]
    does.  In particular a second sweep at the same time changes nothing,
    and what an earlier sweep removed a later one would have removed
    too. *)
Theorem cleanup_old_files_again (t1 t2 : Q) (s : fs) :
  (t1 <= t2)%Q ->
  fst (cleanup_old_files t2 (fst (cleanup_old_files t1 s)))
  = fst (cleanup_old_files t2 s)
  /\ (forall k, files (fst (cleanup_old_files t1 s)) !! k = None ->
        files (fst (cleanup_old_files t2 s)) !! k = None).
Proof.
  intros Hle.
  assert (Hlook : forall k,
            files (fst (cleanup_old_files t2 (fst (cleanup_old_files t1 s)))) !! k
            = files (fst (cleanup_old_files t2 s)) !! k).
  { intros k. rewrite !cleanup_old_files_lookup, in_reach_after_sweep.
    now apply swept_entry_later. }
  split.
  - apply Files.fs_eq; [now apply map_eq | now rewrite !cleanup_old_files_dirs].
  - intros k Hk. rewrite <- Hlook, cleanup_old_files_lookup, Hk. reflexivity.
Qed.

Lemma cleanup_old_files_again_witness :
  fst (cleanup_old_files 5000 (fst (cleanup_old_files 4700 sample_fs)))
  = fst (cleanup_old_files 5000 sample_fs)
  /\ (forall k, files (fst (cleanup_old_files 4700 sample_fs)) !! k = None ->
        files (fst (cleanup_old_files 5000 sample_fs)) !! k = None).
Proof.
  apply (cleanup_old_files_again 4700 5000 sample_fs). vm_compute. discriminate.
Defined.

End Tasks.

(** ** app/api/v1/pdf.py and image.py: parameter checks and /unlock *)
Module Routes.
Import PyStr OS FileUtil Api Retention.
#[local] Open Scope Z_scope.

(** [for file in files: validate_pdf_file(file)]. *)
Fixpoint validate_all (files : list UploadFile) : result unit :=
  match files with
  | [] => Return tt
  | file :: rest => validate_pdf_file file;; validate_all rest
  end.

(** The checks of [/merge] before anything is saved. *)
Definition merge_checks (files : list UploadFile) : result unit :=
  if Z.of_nat (length files) <? 2
  then Raise (HTTPException 400 "At least 2 PDF files required")
  else validate_all files.

(** [if angle not in [90, 180, 270]]. *)
Definition angle_check (angle : Z) : result unit :=
  if negb (PdfOps.int_in angle [90; 180; 270])
  then Raise (HTTPException 400 "Angle must be 90, 180, or 270")
  else Return tt.

(** A float is truthy when it is given and not zero. *)
Definition truthy_float (o : option Q) : bool :=
  match o with Some q => negb (Qeq_bool q 0) | None => false end.

(** [if not width and not height and not scale]. *)
Definition resize_params_check (width height : option Z) (scale : option Q) : result unit :=
  if negb (Split.truthy_int width) && negb (Split.truthy_int height)
     && negb (truthy_float scale)
  then Raise (HTTPException 400
                "At least one of width, height, or scale must be provided")
  else Return tt.

(** [if quality < 1 or quality > 100]. *)
Definition quality_check (quality : Z) : result unit :=
  if (quality <? 1) || (100 <? quality)
  then Raise (HTTPException 400 "Quality must be between 1 and 100")
  else Return tt.

(** [if direction not in ["horizontal", "vertical"]]. *)
Definition direction_check (direction : string) : result unit :=
  if negb (str_in direction ["horizontal"; "vertical"])
  then Raise (HTTPException 400 "Direction must be 'horizontal' or 'vertical'")
  else Return tt.

Section Handlers.

Variable clock : nat -> Q.
Variable uuid : nat -> N.

(** A handler of one upload with a parameter check between the
    validation of the upload and its saving. *)
Definition checked_upload_handler (validate : UploadFile -> result unit)
  (check : result unit) (subdir : string) (file : UploadFile)
  (body : Q -> string -> io json) : io json :=
  lift (validate file);;
  lift check;;
  start_time ← time_time clock;
  input_path ← save_upload_file clock uuid file subdir;
  try_finally (body start_time input_path) (Api.cleanup_file input_path).

(** The services behind the routes, by what they do to the world. *)
Variable rotate_pdf_service : string -> string -> Z -> option (list Z) -> io unit.
Variable merge_pdfs_service : list string -> string -> io unit.
Variable unlock_pdf_service : string -> string -> string -> io unit.
Variable resize_image_service :
  string -> string -> option Z -> option Z -> string -> option Q -> io unit.
Variable compress_image_service : string -> string -> Z -> option string -> io (Z * Z).
Variable flip_image_service : string -> string -> string -> io unit.
Variable py_int_strip : string -> result Z.
Variable compression_ratio : Z -> Z -> result Q.

(** [/pdf/rotate]. *)
Definition rotate_pdf (file : UploadFile) (angle : Z) (pages : option string)
  : io json :=
  checked_upload_handler validate_pdf_file (angle_check angle) "rotate" file
    (fun start_time input_path =>
       output_filename ← generate_filename clock uuid (filename_or file "rotated")
                           (Some ".pdf");
       let output_path := DOWNLOAD_DIR ++ "/" ++ output_filename in
       page_list ← lift (parse_page_list py_int_strip pages);
       rotate_pdf_service input_path output_path angle page_list;;
       file_size ← path_stat_size output_path;
       now ← time_time clock;
       let processing_time := (now - start_time)%Q in
       mret (FileResponseModel ("/downloads/" ++ output_filename) output_filename
               file_size processing_time)).

(** [/pdf/merge]. *)
Definition merge_pdfs (files : list UploadFile) : io json :=
  multi_upload_handler clock uuid (merge_checks files) "merge" files
    (fun start_time input_paths =>
       produce_file clock uuid "merged" ".pdf" (merge_pdfs_service input_paths)
         start_time).

(** [/pdf/unlock]: the [try] block has an [except Exception] that turns
    any failure into a 400. *)
Definition unlock_pdf (file : UploadFile) (password : string) : io json :=
  single_upload_handler clock uuid validate_pdf_file "unlock" file
    (fun start_time input_path =>
       Tasks.try_except_as
         (produce_file clock uuid (filename_or file "unlocked") ".pdf"
            (fun output_path => unlock_pdf_service input_path output_path password)
            start_time)
         (fun e => lift (Raise (HTTPException 400
                                  "Invalid password or cannot unlock PDF")))).

(** [Path(file.filename or "image.jpg").suffix]. *)
Definition image_ext (file : UploadFile) : string :=
  path_suffix (filename_or file "image.jpg").

(** [/image/resize]. *)
Definition resize_image (file : UploadFile) (width height : option Z)
  (mode : string) (scale : option Q) : io json :=
  checked_upload_handler validate_image_file (resize_params_check width height scale)
    "resize" file
    (fun start_time input_path =>
       produce_file clock uuid (filename_or file "resized") (image_ext file)
         (fun output_path =>
            resize_image_service input_path output_path width height mode scale)
         start_time).

(** [/image/compress]. *)
Definition compress_image (file : UploadFile) (quality : Z)
  (output_format : option string) : io json :=
  checked_upload_handler validate_image_file (quality_check quality) "compress" file
    (fun start_time input_path =>
       let fmt := output_format in
       let ext := match fmt with
                  | Some f => if String.eqb f "" then image_ext file else "." ++ f
                  | None => image_ext file
                  end in
       output_filename ← generate_filename clock uuid (filename_or file "compressed")
                           (Some ext);
       let output_path := DOWNLOAD_DIR ++ "/" ++ output_filename in
       '(original_size, compressed_size) ←
          compress_image_service input_path output_path quality fmt;
       now ← time_time clock;
       let processing_time := (now - start_time)%Q in
       ratio ← lift (compression_ratio compressed_size original_size);
       mret (JObj [("success", JBool true);
                   ("file_url", JStr ("/downloads/" ++ output_filename));
                   ("filename", JStr output_filename);
                   ("file_size", JInt compressed_size);
                   ("original_size", JInt original_size);
                   ("compression_ratio", JFloat ratio);
                   ("processing_time", JFloat processing_time)])).

(** [/image/flip]. *)
Definition flip_image (file : UploadFile) (direction : string) : io json :=
  checked_upload_handler validate_image_file (direction_check direction) "flip" file
    (fun start_time input_path =>
       produce_file clock uuid (filename_or file "flipped") (image_ext file)
         (fun output_path => flip_image_service input_path output_path direction)
         start_time).

Lemma checked_handler_rejects (validate : UploadFile -> result unit)
  (check : result unit) (subdir : string) (file : UploadFile)
  (body : Q -> string -> io json) (w : world) (e : exn) :
  validate file = Return tt -> check = Raise e ->
  checked_upload_handler validate check subdir file body w = (w, Raise e).
Proof.
  intros Hv Hc. unfold checked_upload_handler, lift.
  unfold mbind, io_bind. now rewrite Hv, Hc.
Qed.

Lemma checked_handler_invalid (validate : UploadFile -> result unit)
  (check : result unit) (subdir : string) (file : UploadFile)
  (body : Q -> string -> io json) (w : world) (e : exn) :
  validate file = Raise e ->
  checked_upload_handler validate check subdir file body w = (w, Raise e).
Proof.
  intros Hv. unfold checked_upload_handler, lift.
  unfold mbind, io_bind. now rewrite Hv.
Qed.

Lemma checked_handler_passes (validate : UploadFile -> result unit)
  (check : result unit) (subdir : string) (file : UploadFile)
  (body : Q -> string -> io json) (w : world) :
  validate file = Return tt -> check = Return tt ->
  checked_upload_handler validate check subdir file body w
  = single_upload_handler clock uuid validate subdir file body w.
Proof.
  intros Hv Hc. unfold checked_upload_handler, single_upload_handler, lift.
  unfold mbind, io_bind. now rewrite Hv, Hc.
Qed.

Lemma validate_pdf_file_outcome (file : UploadFile) :
  validate_pdf_file file = Return tt
  \/ exists d, validate_pdf_file file = Raise (HTTPException 400 d).
Proof.
  unfold validate_pdf_file. destruct (filename file) as [fn|]; [|eauto].
  destruct (String.eqb fn ""); [eauto|].
  destruct (negb _); eauto.
Qed.

Lemma validate_all_spec (files : list UploadFile) :
  (validate_all files = Return tt <->
     Forall (fun f => validate_pdf_file f = Return tt) files)
  /\ (validate_all files = Return tt
      \/ exists d, validate_all files = Raise (HTTPException 400 d)).
Proof.
  induction files as [|f rest [IH1 IH2]].
  - split; [split; [constructor | reflexivity] | now left].
  - cbn [validate_all].
    destruct (validate_pdf_file_outcome f) as [Hf | [d Hf]]; rewrite Hf;
      cbn [mbind result_bind].
    + split; [|exact IH2]. rewrite IH1. split.
      * intros Hall. now constructor.
      * intros Hall. now apply Forall_cons in Hall as [_ Hall].
    + split; [|right; eauto]. split; [discriminate|].
      intros Hall. apply Forall_cons in Hall as [Hall _]. congruence.
Qed.

Lemma angle_check_spec (angle : Z) :
  (angle_check angle = Return tt <-> angle = 90 \/ angle = 180 \/ angle = 270)
  /\ (angle_check angle = Return tt
      \/ angle_check angle = Raise (HTTPException 400 "Angle must be 90, 180, or 270")).
Proof.
  unfold angle_check, PdfOps.int_in. cbn [existsb].
  destruct (Z.eqb_spec angle 90); [split; [split; auto | now left]|].
  destruct (Z.eqb_spec angle 180); [split; [split; auto | now left]|].
  destruct (Z.eqb_spec angle 270); [split; [split; auto | now left]|].
  cbn. split; [|now right]. split; [discriminate | lia].
Qed.

(** X16.  [/pdf/rotate] and [/pdf/merge] check their parameters before
    anything is saved.  A rotate request whose upload is a PDF and whose
    angle is none of 90, 180 and 270 is answered with a 400 and leaves the
    world as it was: no file is written and the clock is not read; the
    upload is validated first, so a bad upload is reported rather than a
    bad angle.  A merge request with fewer than two files, or with a file
    that is not a PDF, is answered with a 400 in the same way; the checks
    pass exactly when there are at least two files and all are PDFs. *)
Theorem pdf_requests_checked_before_saving :
  (forall file angle pages w,
     (forall e, validate_pdf_file file = Raise e ->
        rotate_pdf file angle pages w = (w, Raise e))
     /\ (validate_pdf_file file = Return tt ->
         angle <> 90 -> angle <> 180 -> angle <> 270 ->
         rotate_pdf file angle pages w
         = (w, Raise (HTTPException 400 "Angle must be 90, 180, or 270")))
     /\ (angle_check angle = Return tt <-> angle = 90 \/ angle = 180 \/ angle = 270))
  /\ (forall files w,
        ((length files < 2)%nat ->
         merge_pdfs files w
         = (w, Raise (HTTPException 400 "At least 2 PDF files required")))
        /\ (Exists (fun f => validate_pdf_file f <> Return tt) files ->
            exists d, merge_pdfs files w = (w, Raise (HTTPException 400 d)))
        /\ (merge_checks files = Return tt <->
            (2 <= length files)%nat
            /\ Forall (fun f => validate_pdf_file f = Return tt) files)).
Proof.
  clear unlock_pdf_service resize_image_service compress_image_service
    flip_image_service compression_ratio.
  split.
  - intros file angle pages w. split; [|split].
    + intros e He. now apply checked_handler_invalid.
    + intros Hv H1 H2 H3. apply checked_handler_rejects; [exact Hv|].
      destruct (angle_check_spec angle) as [Hiff [Hok|Hbad]]; [|exact Hbad].
      apply Hiff in Hok. lia.
    + apply angle_check_spec.
  - intros files w.
    assert (Hrej : forall e, merge_checks files = Raise e ->
                     merge_pdfs files w = (w, Raise e)).
    { intros e He. unfold merge_pdfs, multi_upload_handler, lift.
      unfold mbind, io_bind. now rewrite He. }
    split; [|split].
    + intros Hlen. apply Hrej. unfold merge_checks.
      destruct (Z.ltb_spec (Z.of_nat (length files)) 2); [reflexivity | lia].
    + intros Hex. unfold merge_checks in Hrej.
      destruct (Z.ltb_spec (Z.of_nat (length files)) 2); [eauto|].
      destruct (validate_all_spec files) as [Hiff [Hok|[d Hbad]]]; [|eauto].
      apply Hiff in Hok. apply Exists_exists in Hex as (f & Hin & Hf).
      rewrite List.Forall_forall in Hok. exfalso. apply Hf. apply Hok.
      now apply list_elem_of_In.
    + unfold merge_checks.
      destruct (Z.ltb_spec (Z.of_nat (length files)) 2).
      * split; [discriminate | lia].
      * rewrite (proj1 (validate_all_spec files)). split; [|tauto].
        intros Hall. split; [lia | exact Hall].
Qed.

Lemma truthy_float_spec (o : option Q) :
  truthy_float o = true <-> exists q, o = Some q /\ ~ (q == 0)%Q.
Proof.
  destruct o as [q|]; cbn.
  - rewrite negb_true_iff. split.
    + intros H. exists q. split; [reflexivity|]. intros Hq.
      apply Qeq_bool_iff in Hq. congruence.
    + intros (q' & [= <-] & Hq). destruct (Qeq_bool q 0) eqn:E; [|reflexivity].
      apply Qeq_bool_iff in E. contradiction.
  - split; [discriminate | intros (q & H & _); discriminate].
Qed.

(** X17.  [/image/resize], [/image/compress] and [/image/flip] check
    their parameters before anything is saved: for an upload that is an
    image, a resize request with neither a width, a height nor a scale
    (each counts as missing when it is 0), a compress request whose
    quality lies outside 1..100, and a flip request whose direction is
    neither "horizontal" nor "vertical" are answered with a 400 and leave
    the world as it was; no other value of these parameters is rejected by
    the check. *)
Theorem image_requests_checked_before_saving (file : UploadFile) (w : world) :
  validate_image_file file = Return tt ->
  (forall width height mode scale,
     (resize_params_check width height scale = Return tt <->
        (exists z, width = Some z /\ z <> 0) \/ (exists z, height = Some z /\ z <> 0)
        \/ (exists q, scale = Some q /\ ~ (q == 0)%Q))
     /\ (resize_params_check width height scale <> Return tt ->
         resize_image file width height mode scale w
         = (w, Raise (HTTPException 400
                        "At least one of width, height, or scale must be provided"))))
  /\ (forall quality output_format,
        (quality_check quality = Return tt <-> 1 <= quality <= 100)
        /\ (~ 1 <= quality <= 100 ->
            compress_image file quality output_format w
            = (w, Raise (HTTPException 400 "Quality must be between 1 and 100"))))
  /\ (forall direction,
        (direction_check direction = Return tt <->
           direction = "horizontal" \/ direction = "vertical")
        /\ (direction <> "horizontal" -> direction <> "vertical" ->
            flip_image file direction w
            = (w, Raise (HTTPException 400
                           "Direction must be 'horizontal' or 'vertical'")))).
Proof.
  clear rotate_pdf_service merge_pdfs_service unlock_pdf_service py_int_strip.
  intros Hv.
  assert (Htruthy : forall o, Split.truthy_int o = true <-> exists z, o = Some z /\ z <> 0).
  { intros [z|]; cbn.
    - rewrite negb_true_iff, Z.eqb_neq. split; [eauto | now intros (z' & [= <-] & H)].
    - split; [discriminate | intros (z & H & _); discriminate]. }
  split; [|split].
  - intros width height mode scale.
    assert (Hiff : resize_params_check width height scale = Return tt <->
              (exists z, width = Some z /\ z <> 0) \/ (exists z, height = Some z /\ z <> 0)
              \/ (exists q, scale = Some q /\ ~ (q == 0)%Q)).
    { rewrite <- !Htruthy, <- truthy_float_spec. unfold resize_params_check.
      destruct (Split.truthy_int width), (Split.truthy_int height),
        (truthy_float scale); cbn; split; auto; try discriminate.
      intros [H|[H|H]]; discriminate. }
    split; [exact Hiff|].
    intros Hbad. apply checked_handler_rejects; [exact Hv|].
    unfold resize_params_check in *. destruct (_ && _); [reflexivity | congruence].
  - intros quality output_format.
    assert (Hiff : quality_check quality = Return tt <-> 1 <= quality <= 100).
    { unfold quality_check.
      destruct (Z.ltb_spec quality 1), (Z.ltb_spec 100 quality); cbn;
        split; try discriminate; try lia; reflexivity. }
    split; [exact Hiff|].
    intros Hbad. apply checked_handler_rejects; [exact Hv|].
    unfold quality_check in *. destruct (_ || _); [reflexivity|].
    exfalso. apply Hbad. now apply Hiff.
  - intros direction.
    assert (Hiff : direction_check direction = Return tt <->
                   direction = "horizontal" \/ direction = "vertical").
    { unfold direction_check, str_in. cbn [existsb].
      destruct (String.eqb_spec direction "horizontal"); [split; auto|].
      destruct (String.eqb_spec direction "vertical"); [split; auto|].
      cbn. split; [discriminate | tauto]. }
    split; [exact Hiff|].
    intros H1 H2. apply checked_handler_rejects; [exact Hv|].
    unfold direction_check in *. destruct (negb _); [reflexivity|].
    exfalso. destruct (proj1 Hiff eq_refl); contradiction.
Qed.

(** X18.  [/pdf/unlock] answers every failure of its [try] block with a
    400: whatever the unlock service, the naming of the output or the
    reading of its size raises is replaced by HTTPException(400, "Invalid
    password or cannot unlock PDF").  The validation of the upload raises
    nothing but a 400 either, so once the upload is saved (which has no
    failure in this model of the file system) no other exception leaves
    the handler. *)
Theorem unlock_failures_are_400 (file : UploadFile) (password : string) (w : world) :
  (forall e, snd (unlock_pdf file password w) = Raise e ->
     exists d, e = HTTPException 400 d)
  /\ (validate_pdf_file file = Return tt ->
      forall e, snd (unlock_pdf file password w) = Raise e ->
        e = HTTPException 400 "Invalid password or cannot unlock PDF").
Proof.
  clear rotate_pdf_service merge_pdfs_service resize_image_service
    compress_image_service flip_image_service py_int_strip compression_ratio.
  assert (Hvalid : validate_pdf_file file = Return tt ->
            forall e, snd (unlock_pdf file password w) = Raise e ->
              e = HTTPException 400 "Invalid password or cannot unlock PDF").
  { intros Hv e. unfold unlock_pdf.
    rewrite single_upload_handler_run by exact Hv.
    rewrite try_finally_cleanup_file. cbn [snd]. unfold Tasks.try_except_as.
    destruct (produce_file _ _ _ _ _ _ _) as [w1 [j|e']]; cbn [snd];
      [discriminate|].
    unfold lift. cbn [snd]. now intros [= <-]. }
  split; [|exact Hvalid].
  intros e He.
  destruct (validate_pdf_file_outcome file) as [Hv | [d Hv]].
  - exists "Invalid password or cannot unlock PDF". now apply Hvalid.
  - exists d. unfold unlock_pdf, single_upload_handler, lift in He.
    unfold mbind, io_bind in He. rewrite Hv in He. cbn [snd] in He. congruence.
Qed.

End Handlers.

(** *** Sample requests *)

Definition sample_resize (_ output_path : string) (_ _ : option Z) (_ : string)
  (_ : option Q) : io unit := writing_service "" output_path.
Definition sample_compress (_ output_path : string) (_ : Z) (_ : option string)
  : io (Z * Z) := fun w => (fst (writing_service "" output_path w), Return (2048, 777)).
Definition sample_flip (_ output_path _ : string) : io unit :=
  writing_service "" output_path.
Definition sample_ratio (compressed original : Z) : result Q :=
  if original =? 0 then Raise ZeroDivisionError
  else Return ((1 - inject_Z compressed / inject_Z original) * 100)%Q.

Lemma image_requests_checked_before_saving_witness :
  resize_image sample_clock sample_uuid sample_resize photo (Some 0) None "fit" None
    empty_world
  = (empty_world,
     Raise (HTTPException 400 "At least one of width, height, or scale must be provided"))
  /\ compress_image sample_clock sample_uuid sample_compress sample_ratio photo 0 None
       empty_world
     = (empty_world, Raise (HTTPException 400 "Quality must be between 1 and 100"))
  /\ flip_image sample_clock sample_uuid sample_flip photo "diagonal" empty_world
     = (empty_world,
        Raise (HTTPException 400 "Direction must be 'horizontal' or 'vertical'")).
Proof.
  destruct (image_requests_checked_before_saving sample_clock sample_uuid
              sample_resize sample_compress sample_flip sample_ratio photo empty_world
              eq_refl) as (Hresize & Hcompress & Hflip).
  split; [|split].
  - apply (Hresize (Some 0) None "fit" None). discriminate.
  - apply (Hcompress 0 None). lia.
  - apply (Hflip "diagonal"); discriminate.
Defined.

Example resize_accepted_sample :
  snd (resize_image sample_clock sample_uuid sample_resize photo (Some 300) None "exact"
         None empty_world)
  = Return (JObj [("success", JBool true);
                  ("file_url", JStr "/downloads/photo_1700000002_00000bef.jpg");
                  ("filename", JStr "photo_1700000002_00000bef.jpg");
                  ("file_size", JInt 777);
                  ("processing_time", JFloat 3)]).
Proof. vm_compute. reflexivity. Qed.

Example unlock_failure_sample :
  snd (unlock_pdf sample_clock sample_uuid (fun i o _ => raising_service i o)
         sample_upload "guess" empty_world)
  = Raise (HTTPException 400 "Invalid password or cannot unlock PDF").
Proof. vm_compute. reflexivity. Qed.

End Routes.

(** ** app/services/pdf/editor.py: what the editing methods do in all *)
Module Edits.
Import Editor.
#[local] Open Scope Z_scope.




(** A span of [page.get_text("dict")] with the fields
    [extract_text_with_formatting] copies. *)
Record text_span : Type := {
  ts_text : string;
  ts_font : string;
  ts_size : Q;
  ts_color : Z;
  ts_flags : Z;
  ts_origin : Q * Q;
  ts_bbox : Q * Q * Q * Q
}.

Record text_line : Type := { tl_spans : list text_span }.
Record text_block : Type := { tb_type : Z; tb_lines : list text_line }.

(** An entry of the list [extract_text_with_formatting] returns. *)
Record text_item : Type := {
  ti_text : string;
  ti_font : string;
  ti_size : Q;
  ti_color : Z;
  ti_flags : Z;
  ti_origin : Q * Q;
  ti_bbox : Q * Q * Q * Q;
  is_bold : bool;
  is_italic : bool
}.

(** [bool(n)] on an integer. *)
Definition truthy (n : Z) : bool := negb (n =? 0).

Definition item_of (s : text_span) : text_item :=
  {| ti_text := ts_text s; ti_font := ts_font s; ti_size := ts_size s;
     ti_color := ts_color s; ti_flags := ts_flags s; ti_origin := ts_origin s;
     ti_bbox := ts_bbox s;
     is_bold := truthy (Z.land (ts_flags s) (2 ^ 4));
     is_italic := truthy (Z.land (ts_flags s) (2 ^ 1)) |}.

(** The three nested loops of [extract_text_with_formatting], over the
    blocks of the page. *)
Definition extract_text_with_formatting (blocks : list text_block) : list text_item :=
  fold_left
    (fun text_items block =>
       if tb_type block =? 0
       then fold_left
              (fun text_items line =>
                 fold_left (fun text_items span => (text_items ++ [item_of span])%list)
                   (tl_spans line) text_items)
              (tb_lines block) text_items
       else text_items)
    blocks [].

(** The spans of the text blocks, in reading order. *)
Definition text_spans (blocks : list text_block) : list text_span :=
  flat_map (fun block =>
              if tb_type block =? 0
              then flat_map tl_spans (tb_lines block)
              else [])
           blocks.

Section Library.

Variable D : Type.
Variable page_count : D -> nat.
Variable has_page : D -> Z -> bool.
Variable search_for : D -> Z -> string -> list rect.
Variable get_text_dict : D -> Z -> list block.
Variable add_redact_annot : D -> Z -> rect -> option rgb -> D.
Variable apply_redactions : D -> Z -> D.
Variable insert_text : D -> Z -> Q * Q -> string -> option string -> Q -> rgb -> D.

Abbreviation replace_text :=
  (Editor.replace_text D page_count has_page search_for get_text_dict
     add_redact_annot apply_redactions insert_text).
Abbreviation redact_text :=
  (Editor.redact_text D page_count has_page search_for add_redact_annot
     apply_redactions).









End Library.

(** *** extract_text_with_formatting *)

Lemma truthy_land_pow2 (a n : Z) :
  0 <= n -> truthy (Z.land a (2 ^ n)) = Z.testbit a n.
Proof.
  intros Hn. unfold truthy. destruct (Z.testbit a n) eqn:E.
  - apply negb_true_iff, Z.eqb_neq. intros H0.
    assert (Hb : Z.testbit (Z.land a (2 ^ n)) n = true)
      by (rewrite Z.land_spec, E, Z.pow2_bits_true by lia; reflexivity).
    rewrite H0, Z.bits_0 in Hb. discriminate.
  - apply negb_false_iff, Z.eqb_eq. apply Z.bits_inj'. intros m Hm.
    rewrite Z.land_spec, Z.bits_0, Z.pow2_bits_eqb by lia.
    destruct (Z.eqb_spec n m) as [<-|_]; [now rewrite E | apply andb_false_r].
Qed.

Lemma extract_spans (spans0 : list text_span) (acc : list text_item) :
  fold_left (fun text_items span => (text_items ++ [item_of span])%list) spans0 acc
  = (acc ++ map item_of spans0)%list.
Proof.
  revert acc. induction spans0 as [|s rest IH]; intros acc; cbn.
  - now rewrite List.app_nil_r.
  - rewrite IH, <- List.app_assoc. reflexivity.
Qed.

Lemma extract_lines (ls : list text_line) (acc : list text_item) :
  fold_left
    (fun text_items line =>
       fold_left (fun text_items span => (text_items ++ [item_of span])%list)
         (tl_spans line) text_items)
    ls acc
  = (acc ++ map item_of (flat_map tl_spans ls))%list.
Proof.
  revert acc. induction ls as [|l rest IH]; intros acc; cbn [fold_left flat_map].
  - cbn. now rewrite List.app_nil_r.
  - rewrite IH, extract_spans, List.map_app, List.app_assoc. reflexivity.
Qed.

(** X20.  [extract_text_with_formatting] returns one entry per span of
    the text blocks of the page, in reading order, and nothing for an
    image block; each entry carries the span's text, font, size, colour
    and flags unchanged, its [is_bold] is bit 4 of the flags and its
    [is_italic] bit 1, whatever the other bits are. *)
Theorem extract_text_with_formatting_items (blocks : list text_block) :
  extract_text_with_formatting blocks = map item_of (text_spans blocks)
  /\ length (extract_text_with_formatting blocks) = length (text_spans blocks)
  /\ (forall i item,
        extract_text_with_formatting blocks !! i = Some item ->
        exists span,
          text_spans blocks !! i = Some span
          /\ ti_text item = ts_text span /\ ti_font item = ts_font span
          /\ ti_size item = ts_size span /\ ti_color item = ts_color span
          /\ ti_flags item = ts_flags span
          /\ is_bold item = Z.testbit (ts_flags span) 4
          /\ is_italic item = Z.testbit (ts_flags span) 1).
Proof.
  assert (Hall : forall acc,
            fold_left
              (fun text_items block =>
                 if tb_type block =? 0
                 then fold_left
                        (fun text_items line =>
                           fold_left
                             (fun text_items span => (text_items ++ [item_of span])%list)
                             (tl_spans line) text_items)
                        (tb_lines block) text_items
                 else text_items)
              blocks acc
            = (acc ++ map item_of (text_spans blocks))%list).
  { induction blocks as [|b rest IH]; intros acc; cbn [fold_left text_spans flat_map].
    - cbn. now rewrite List.app_nil_r.
    - rewrite IH. fold (text_spans rest).
      destruct (tb_type b =? 0).
      + rewrite extract_lines, List.map_app, List.app_assoc. reflexivity.
      + reflexivity. }
  assert (Heq : extract_text_with_formatting blocks = map item_of (text_spans blocks))
    by exact (Hall []).
  split; [exact Heq|]. split; [now rewrite Heq, List.length_map|].
  intros i item Hi. rewrite Heq in Hi.
  change (map item_of ?l) with (item_of <$> l) in Hi.
  rewrite list_lookup_fmap in Hi.
  destruct (text_spans blocks !! i) as [span|]; [|discriminate].
  cbn in Hi. injection Hi as <-. exists span. split; [reflexivity|].
  cbn [item_of ti_text ti_font ti_size ti_color ti_flags is_bold is_italic].
  rewrite !truthy_land_pow2 by lia. repeat split.
Qed.

Example extract_text_sample :
  map (fun item => (ti_text item, is_bold item, is_italic item))
    (extract_text_with_formatting
       [{| tb_type := 0;
           tb_lines := [{| tl_spans :=
                             [{| ts_text := "Title"; ts_font := "Helvetica-Bold";
                                 ts_size := 18; ts_color := 0; ts_flags := 20;
                                 ts_origin := (72, 90)%Q;
                                 ts_bbox := (72, 72, 140, 94)%Q |};
                              {| ts_text := "note"; ts_font := "Times-Italic";
                                 ts_size := 10; ts_color := 255; ts_flags := 6;
                                 ts_origin := (150, 90)%Q;
                                 ts_bbox := (150, 80, 170, 94)%Q |}] |}] |};
        {| tb_type := 1; tb_lines := [] |}])
  = [("Title", true, false); ("note", false, true)].
Proof. reflexivity. Qed.

End Edits.

(** ** app/services/image/passport.py: [create_passport_photo_sheet] *)
Module Sheet.
Import Split Passport.
#[local] Open Scope Z_scope.

(** Paper sizes in millimetres. *)
Definition paper_sizes : list (string * (Z * Z)) :=
  [("4x6", (152, 102)); ("a4", (297, 210))].

(** [a // b] on integers: Python raises ZeroDivisionError on a zero
    divisor and rounds towards minus infinity otherwise. *)
Definition floor_div (a b : Z) : result Z :=
  if b =? 0 then Raise ZeroDivisionError else Return (a / b).

(** [for col in range(cols)] of one row: a photo is pasted at each column
    until [count >= copies], where [break] leaves the row. *)
Fixpoint paste_row (copies : Z) (place : Z -> Z * Z) (cols : list Z)
  (state : list (Z * Z) * Z) : list (Z * Z) * Z :=
  match cols with
  | [] => state
  | col :: rest =>
      let (pasted, count) := state in
      if copies <=? count then state
      else paste_row copies place rest ((pasted ++ [place col])%list, count + 1)
  end.

(** [for row in range(rows)]: the [break] of a row does not end this
    loop. *)
Definition paste_rows (copies : Z) (place : Z -> Z -> Z * Z) (rows cols : Z)
  : list (Z * Z) * Z :=
  fold_left (fun state row => paste_row copies (place row) (py_range 0 cols) state)
    (py_range 0 rows) ([], 0).

(** The sheet that is saved: its size, the size of the photo pasted on
    it, and the corners the photo is pasted at, in order. *)
Record sheet : Type := {
  paper_width : Z;
  paper_height : Z;
  photo_width : Z;
  photo_height : Z;
  margin : Z;
  pastes : list (Z * Z)
}.

Section Floats.

Variable rnd : Q -> Q.

(** [create_passport_photo_sheet], on the outcome of making the single
    photo's background colour and loading its foreground. *)
Definition create_passport_photo_sheet (size : string)
  (background : result (Z * Z * Z)) (copies : Z) (paper_size : string)
  (foreground : result (Z * Z)) : result sheet :=
  let '(paper_width_mm, paper_height_mm) :=
    dict_get paper_sizes (PyStr.lower paper_size) (152, 102) in
  let paper_width := mm_to_pixels rnd paper_width_mm in
  let paper_height := mm_to_pixels rnd paper_height_mm in
  let '(width_mm, height_mm) := dict_get PASSPORT_SIZES (PyStr.lower size) (51, 51) in
  let photo_width := mm_to_pixels rnd width_mm in
  let photo_height := mm_to_pixels rnd height_mm in
  create_passport_photo rnd size background None None foreground;;
  let margin := mm_to_pixels rnd 3 in
  cols ← floor_div (paper_width - margin) (photo_width + margin);
  rows ← floor_div (paper_height - margin) (photo_height + margin);
  new_check paper_width paper_height;;
  let x_start := (paper_width - (cols * photo_width + (cols - 1) * margin)) / 2 in
  let y_start := (paper_height - (rows * photo_height + (rows - 1) * margin)) / 2 in
  let place row col :=
    (x_start + col * (photo_width + margin), y_start + row * (photo_height + margin)) in
  mret {| paper_width := paper_width; paper_height := paper_height;
          photo_width := photo_width; photo_height := photo_height;
          margin := margin;
          pastes := fst (paste_rows copies place rows cols) |}.

End Floats.

(** *** The loops *)

(** The cells of the grid, row by row. *)
Definition cells (place : Z -> Z -> Z * Z) (rows cols : list Z) : list (Z * Z) :=
  flat_map (fun row => map (place row) cols) rows.

Lemma paste_row_run (copies : Z) (place : Z -> Z * Z) (cols : list Z)
  (pasted : list (Z * Z)) :
  paste_row copies place cols (pasted, Z.of_nat (length pasted))
  = let pasted' :=
      (pasted ++ firstn (Z.to_nat copies - length pasted) (map place cols))%list in
    (pasted', Z.of_nat (length pasted')).
Proof.
  revert pasted. induction cols as [|col rest IH]; intros pasted; cbv zeta.
  - cbn. rewrite firstn_nil, List.app_nil_r. reflexivity.
  - cbn [paste_row map].
    destruct (Z.leb_spec copies (Z.of_nat (length pasted))) as [Hfull|Hroom].
    + replace (Z.to_nat copies - length pasted)%nat with 0%nat by lia.
      cbn [firstn]. rewrite List.app_nil_r. reflexivity.
    + replace (Z.of_nat (length pasted) + 1)
        with (Z.of_nat (length (pasted ++ [place col]))).
      2:{ rewrite List.length_app. cbn [length]. lia. }
      rewrite IH. cbv zeta.
      replace (Z.to_nat copies - length pasted)%nat
        with (S (Z.to_nat copies - length (pasted ++ [place col])))%nat.
      2:{ rewrite List.length_app. cbn [length]. lia. }
      cbn [firstn]. rewrite <- List.app_assoc. reflexivity.
Qed.

Lemma paste_rows_run (copies : Z) (place : Z -> Z -> Z * Z) (rows cols : list Z)
  (pasted : list (Z * Z)) :
  fold_left (fun state row => paste_row copies (place row) cols state) rows
    (pasted, Z.of_nat (length pasted))
  = let pasted' :=
      (pasted ++ firstn (Z.to_nat copies - length pasted) (cells place rows cols))%list in
    (pasted', Z.of_nat (length pasted')).
Proof.
  revert pasted. induction rows as [|row rest IH]; intros pasted; cbv zeta.
  - cbn. rewrite firstn_nil, List.app_nil_r. reflexivity.
  - cbn [fold_left cells flat_map]. fold (cells place rest cols).
    rewrite paste_row_run. cbv zeta. rewrite IH. cbv zeta.
    set (n := (Z.to_nat copies - length pasted)%nat).
    set (here := map (place row) cols).
    assert (Hfirst : firstn n (here ++ cells place rest cols)
                     = (firstn n here
                        ++ firstn (Z.to_nat copies - length (pasted ++ firstn n here))
                             (cells place rest cols))%list).
    { rewrite firstn_app. f_equal. f_equal.
      rewrite List.length_app, length_firstn. subst n. lia. }
    rewrite Hfirst, List.app_assoc. reflexivity.
Qed.

(** What the two loops paste: the first [copies] cells of the grid, row
    by row. *)
Lemma paste_rows_cells (copies : Z) (place : Z -> Z -> Z * Z) (rows cols : Z) :
  fst (paste_rows copies place rows cols)
  = firstn (Z.to_nat copies) (cells place (py_range 0 rows) (py_range 0 cols)).
Proof.
  unfold paste_rows.
  change ([], 0) with (@nil (Z * Z), Z.of_nat (length (@nil (Z * Z)))).
  rewrite paste_rows_run. cbv zeta. cbn [fst app length]. now rewrite Nat.sub_0_r.
Qed.

Lemma in_py_range (a b x : Z) : In x (py_range a b) <-> a <= x < b.
Proof.
  unfold py_range. rewrite in_map_iff. split.
  - intros (k & <- & Hk). apply in_seq in Hk. lia.
  - intros H. exists (Z.to_nat (x - a)). split; [lia|]. apply in_seq. lia.
Qed.

Lemma py_range_length (a b : Z) : length (py_range a b) = Z.to_nat (b - a).
Proof. unfold py_range. now rewrite List.length_map, length_seq. Qed.

Lemma py_range_NoDup (a b : Z) : NoDup (py_range a b).
Proof.
  unfold py_range. change (map ?f ?l) with (f <$> l).
  apply NoDup_fmap_2_strong; [|apply NoDup_seq].
  intros x y _ _ H. lia.
Qed.

Lemma in_cells (place : Z -> Z -> Z * Z) (rows cols : list Z) (p : Z * Z) :
  In p (cells place rows cols)
  <-> exists row col, In row rows /\ In col cols /\ p = place row col.
Proof.
  unfold cells. rewrite in_flat_map. split.
  - intros (row & Hrow & Hp). apply in_map_iff in Hp as (col & <- & Hcol). eauto.
  - intros (row & col & Hrow & Hcol & ->). exists row. split; [exact Hrow|].
    now apply in_map.
Qed.

Lemma cells_length (place : Z -> Z -> Z * Z) (rows cols : list Z) :
  length (cells place rows cols) = (length rows * length cols)%nat.
Proof.
  unfold cells. induction rows as [|row rest IH]; [reflexivity|].
  cbn [flat_map length]. rewrite List.length_app, List.length_map, IH. lia.
Qed.

Lemma cells_NoDup (place : Z -> Z -> Z * Z) (rows cols : list Z) :
  (forall r1 c1 r2 c2, In r1 rows -> In c1 cols -> In r2 rows -> In c2 cols ->
     place r1 c1 = place r2 c2 -> r1 = r2 /\ c1 = c2) ->
  NoDup rows -> NoDup cols -> NoDup (cells place rows cols).
Proof.
  intros Hinj Hrows Hcols. induction Hrows as [|row rest Hnew Hrest IH].
  - constructor.
  - unfold cells. cbn [flat_map]. fold (cells place rest cols).
    apply NoDup_app. split; [|split].
    + change (map ?f ?l) with (f <$> l).
      apply NoDup_fmap_2_strong; [|exact Hcols].
      intros c1 c2 H1 H2 Heq. apply list_elem_of_In in H1, H2.
      now destruct (Hinj row c1 row c2 (or_introl eq_refl) H1 (or_introl eq_refl) H2 Heq).
    + intros p Hp Hq. apply list_elem_of_In in Hp, Hq.
      apply in_map_iff in Hp as (c1 & <- & Hc1).
      apply in_cells in Hq as (r2 & c2 & Hr2 & Hc2 & Heq).
      destruct (Hinj row c1 r2 c2 (or_introl eq_refl) Hc1 (or_intror Hr2) Hc2 Heq)
        as [-> _].
      apply Hnew. now apply list_elem_of_In.
    + apply IH. intros r1 c1 r2 c2 H1 H2 H3 H4.
      apply Hinj; try assumption; now right.
Qed.

Lemma firstn_NoDup {A : Type} (n : nat) (l : list A) : NoDup l -> NoDup (firstn n l).
Proof.
  intros H. rewrite <- (firstn_skipn n l) in H. now apply NoDup_app in H as [H _].
Qed.

Lemma in_firstn {A : Type} (n : nat) (l : list A) (x : A) :
  In x (firstn n l) -> In x l.
Proof.
  intros H. rewrite <- (firstn_skipn n l). apply in_or_app. now left.
Qed.

(** *** The grid *)

(** Along one axis: the cells of a row (or column) of the grid lie within
    the paper, a margin away from its edges. *)
Lemma cell_within_paper (paper photo gap count i : Z) :
  0 <= gap -> 0 < photo ->
  count = (paper - gap) / (photo + gap) ->
  0 <= i < count ->
  let start := (paper - (count * photo + (count - 1) * gap)) / 2 in
  gap <= start + i * (photo + gap)
  /\ start + i * (photo + gap) + photo <= paper - gap.
Proof.
  intros Hgap Hphoto Hcount Hi. cbv zeta.
  set (step := photo + gap) in *.
  assert (Hstep : 0 < step) by (subst step; lia).
  assert (Hfit : step * count <= paper - gap)
    by (rewrite Hcount; apply Z.mul_div_le; exact Hstep).
  set (free := paper - (count * photo + (count - 1) * gap)).
  assert (Hfree : free = paper - count * step + gap) by (subst free step; ring).
  assert (Hhalf : 2 * (free / 2) <= free) by (apply Z.mul_div_le; lia).
  assert (Hhalf' : free < 2 * (free / 2) + 2).
  { pose proof (Z.mul_succ_div_gt free 2 ltac:(lia)) as H. lia. }
  assert (Hlo : 0 <= i * step) by nia.
  assert (Hhi : i * step <= (count - 1) * step) by nia.
  split; nia.
Qed.

(** Along one axis: two different cells are a photo and a margin apart. *)
Lemma cells_apart (start photo gap i j : Z) :
  0 <= gap -> 0 < photo -> i < j ->
  start + i * (photo + gap) + photo + gap <= start + j * (photo + gap).
Proof. intros. nia. Qed.

(** X21.  The sheet of passport photos.  The photos are pasted on a grid
    of [rows] by [cols] cells, [cols = (paper_width - margin) //
    (photo_width + margin)] and likewise [rows]: the first [copies] cells
    in row-major order, so [min(copies, rows * cols)] photos, the number
    of copies asked for being a bound only.  Each photo lies within the
    paper at least a margin away from its edges, no cell is used twice,
    and two photos are at least a margin apart.  The photo pasted is the
    one [create_passport_photo] makes for the named size, whose canvas is
    one cell. *)
Theorem passport_sheet_grid (rnd : Q -> Q) (size : string)
  (background : result (Z * Z * Z)) (copies : Z) (paper_size : string)
  (foreground : result (Z * Z)) (s : sheet) :
  create_passport_photo_sheet rnd size background copies paper_size foreground
  = Return s ->
  0 <= margin s -> 0 < photo_width s -> 0 < photo_height s ->
  let cols := (paper_width s - margin s) / (photo_width s + margin s) in
  let rows := (paper_height s - margin s) / (photo_height s + margin s) in
  length (pastes s) = Nat.min (Z.to_nat copies) (Z.to_nat rows * Z.to_nat cols)
  /\ NoDup (pastes s)
  /\ (forall x y, In (x, y) (pastes s) ->
        margin s <= x /\ x + photo_width s <= paper_width s - margin s
        /\ margin s <= y /\ y + photo_height s <= paper_height s - margin s)
  /\ (forall p q, In p (pastes s) -> In q (pastes s) -> p <> q ->
        fst p + photo_width s + margin s <= fst q
        \/ fst q + photo_width s + margin s <= fst p
        \/ snd p + photo_height s + margin s <= snd q
        \/ snd q + photo_height s + margin s <= snd p)
  /\ (exists l,
        create_passport_photo rnd size background None None foreground = Return l
        /\ canvas_width l = photo_width s /\ canvas_height l = photo_height s).
Proof.
  unfold create_passport_photo_sheet.
  destruct (dict_get paper_sizes (PyStr.lower paper_size) (152, 102))
    as [paper_width_mm paper_height_mm].
  destruct (dict_get PASSPORT_SIZES (PyStr.lower size) (51, 51))
    as [width_mm height_mm] eqn:Hsize.
  set (pw := mm_to_pixels rnd paper_width_mm).
  set (ph := mm_to_pixels rnd paper_height_mm).
  set (w := mm_to_pixels rnd width_mm).
  set (h := mm_to_pixels rnd height_mm).
  set (m := mm_to_pixels rnd 3).
  destruct (create_passport_photo rnd size background None None foreground)
    as [l|e] eqn:Hsingle; cbn [mbind result_bind]; [|discriminate].
  unfold floor_div.
  destruct (Z.eqb_spec (w + m) 0) as [Hw0|Hw0]; cbn [mbind result_bind];
    [discriminate|].
  destruct (Z.eqb_spec (h + m) 0) as [Hh0|Hh0]; cbn [mbind result_bind];
    [discriminate|].
  destruct (new_check pw ph) as [[]|e]; cbn [mbind result_bind]; [|discriminate].
  intros [= <-]. cbn [margin photo_width photo_height paper_width paper_height pastes].
  intros Hm Hw Hh. cbv zeta.
  set (cols := (pw - m) / (w + m)). set (rows := (ph - m) / (h + m)).
  set (x_start := (pw - (cols * w + (cols - 1) * m)) / 2).
  set (y_start := (ph - (rows * h + (rows - 1) * m)) / 2).
  set (place := fun row col => (x_start + col * (w + m), y_start + row * (h + m))).
  rewrite paste_rows_cells.
  assert (Hcell : forall p,
            In p (firstn (Z.to_nat copies)
                    (cells place (py_range 0 rows) (py_range 0 cols))) ->
            exists row col, 0 <= row < rows /\ 0 <= col < cols /\ p = place row col).
  { intros p Hp. apply in_firstn in Hp. apply in_cells in Hp as (row & col & Hr & Hc & ->).
    apply in_py_range in Hr, Hc. eauto. }
  assert (Hinj : forall r1 c1 r2 c2, place r1 c1 = place r2 c2 -> r1 = r2 /\ c1 = c2).
  { intros r1 c1 r2 c2 [= Hx Hy]. split; nia. }
  split; [|split; [|split; [|split]]].
  - rewrite length_firstn, cells_length, !py_range_length.
    now rewrite !Z.sub_0_r.
  - apply firstn_NoDup, cells_NoDup; try apply py_range_NoDup.
    intros r1 c1 r2 c2 _ _ _ _. apply Hinj.
  - intros x y Hp. apply Hcell in Hp as (row & col & Hr & Hc & [= -> ->]).
    destruct (cell_within_paper pw w m cols col Hm Hw eq_refl Hc) as [H1 H2].
    destruct (cell_within_paper ph h m rows row Hm Hh eq_refl Hr) as [H3 H4].
    repeat split; assumption.
  - intros p q Hp Hq Hne.
    apply Hcell in Hp as (r1 & c1 & Hr1 & Hc1 & ->).
    apply Hcell in Hq as (r2 & c2 & Hr2 & Hc2 & ->).
    cbn [fst snd place].
    destruct (Z.lt_total c1 c2) as [Hlt|[Heq|Hgt]].
    + left. apply cells_apart; assumption.
    + destruct (Z.lt_total r1 r2) as [Hlt|[Heq'|Hgt]].
      * right. right. left. apply cells_apart; assumption.
      * subst. contradiction.
      * right. right. right. apply cells_apart; assumption.
    + right. left. apply cells_apart; assumption.
  - exists l. split; [reflexivity|].
    unfold create_passport_photo in Hsingle.
    assert (Hdims : select_dims size None None = (width_mm, height_mm))
      by (unfold select_dims; cbn; exact Hsize).
    rewrite Hdims in Hsingle.
    destruct background as [bg|e]; cbn [mbind result_bind] in Hsingle; [|discriminate].
    destruct foreground as [[fw fh]|e]; cbn [mbind result_bind] in Hsingle;
      [|discriminate].
    destruct (scaled_size rnd _ _ fw fh) as [[nw nh]|e];
      cbn [mbind result_bind] in Hsingle; [|discriminate].
    destruct (resize_check nw nh) as [[]|e]; cbn [mbind result_bind] in Hsingle;
      [|discriminate].
    destruct (new_check _ _) as [[]|e]; cbn [mbind result_bind] in Hsingle;
      [|discriminate].
    injection Hsingle as <-. split; reflexivity.
Qed.

Lemma passport_sheet_grid_witness :
  let s := {| paper_width := 1795; paper_height := 1204;
              photo_width := 602; photo_height := 602; margin := 35;
              pastes := [(278, 301); (915, 301)] |} in
  length (pastes s) = Nat.min 6 (1 * 2)
  /\ NoDup (pastes s)
  /\ (forall x y, In (x, y) (pastes s) ->
        35 <= x /\ x + 602 <= 1795 - 35 /\ 35 <= y /\ y + 602 <= 1204 - 35)
  /\ (forall p q, In p (pastes s) -> In q (pastes s) -> p <> q ->
        fst p + 602 + 35 <= fst q \/ fst q + 602 + 35 <= fst p
        \/ snd p + 602 + 35 <= snd q \/ snd q + 602 + 35 <= snd p)
  /\ (exists l,
        create_passport_photo exact "us" (Return (255, 255, 255)) None None
          (Return (400, 600)) = Return l
        /\ canvas_width l = 602 /\ canvas_height l = 602).
Proof.
  apply (passport_sheet_grid exact "us" (Return (255, 255, 255)) 6 "4x6"
           (Return (400, 600))); [vm_compute; reflexivity | | |]; cbn; lia.
Defined.

Example a4_sheet_of_uk_photos :
  option_map (fun s => (paper_width s, paper_height s, photo_width s, photo_height s,
                        margin s, pastes s))
    (match create_passport_photo_sheet exact "uk" (Return (255, 255, 255)) 5 "A4"
             (Return (400, 600)) with
     | Return s => Some s
     | Raise _ => None
     end)
  = Some (3507, 2480, 413, 531, 35,
          [(203, 125); (651, 125); (1099, 125); (1547, 125); (1995, 125)]).
Proof. vm_compute. reflexivity. Qed.

End Sheet.

(** ** app/services/pdf/convert.py: [word_to_pdf] *)
Module Typeset.
Import PyStr.
#[local] Open Scope Z_scope.
#[local] Open Scope list_scope.

Section Text.

(** A Python [str] is a sequence of code points; [isspace] is
    [str.isspace] on one of them and [space] is the blank of [" "]. *)
Variable char : Type.
Variable isspace : char -> bool.
Variable space : char.

Definition str : Type := list char.

(** [s.split()]: the maximal runs of code points that are not white
    space; [word] is the run being read. *)
Fixpoint split_from (word : str) (s : str) : list str :=
  match s with
  | [] => match word with [] => [] | _ => [word] end
  | ch :: s' =>
      if isspace ch then
        match word with
        | [] => split_from [] s'
        | _ => word :: split_from [] s'
        end
      else split_from (word ++ [ch]) s'
  end.

Definition split (s : str) : list str := split_from [] s.

(** [s.lstrip()] and [s.strip()]. *)
Fixpoint lstrip (s : str) : str :=
  match s with
  | ch :: s' => if isspace ch then lstrip s' else s
  | [] => []
  end.

Definition strip (s : str) : str := rev (lstrip (rev (lstrip s))).

(** The calls made on the reportlab canvas [c]. *)
Inductive canvas_call : Type :=
| drawString (x y : Z) (text : str)
| showPage.

(** [width, height = letter] and [inch], in points.  reportlab holds them
    as floats with whole values (792.0 and 72.0), and every position is
    one of them less a multiple of 14, so the arithmetic is exact. *)
Variable height inch : Z.

Definition line_height : Z := 14.

(** The state of the loops: [y_position] and the calls made so far. *)
Record cursor : Type := {
  y_position : Z;
  drawn : list canvas_call
}.

(** [c.drawString(inch, y_position, line); y_position -= line_height]. *)
Definition draw_line (line : str) (st : cursor) : cursor :=
  {| y_position := y_position st - line_height;
     drawn := drawn st ++ [drawString inch (y_position st) line] |}.

(** [if y_position < inch: c.showPage(); y_position = height - inch]. *)
Definition new_page_if_low (st : cursor) : cursor :=
  if y_position st <? inch
  then {| y_position := height - inch; drawn := drawn st ++ [showPage] |}
  else st.

(** [for word in words]. *)
Fixpoint wrap (words : list str) (current_line : str) (st : cursor) : str * cursor :=
  match words with
  | [] => (current_line, st)
  | word :: rest =>
      let test_line :=
        match current_line with
        | [] => word
        | _ => current_line ++ [space] ++ word
        end in
      if (80 <? length test_line)%nat
      then wrap rest word (new_page_if_low (draw_line current_line st))
      else wrap rest test_line st
  end.

(** The body of [for para in doc.paragraphs], on [para.text]. *)
Definition paragraph (st : cursor) (text : str) : cursor :=
  match strip text with
  | [] => {| y_position := y_position st - line_height; drawn := drawn st |}
  | _ =>
      let '(current_line, st) := wrap (split text) [] (new_page_if_low st) in
      match current_line with
      | [] => st
      | _ => draw_line current_line st
      end
  end.

Definition draw_paragraphs (paragraphs : list str) : list canvas_call :=
  drawn (fold_left paragraph paragraphs
           {| y_position := height - inch; drawn := [] |}).

(** [DocxDocument(docx_path).paragraphs], as their texts, and [c.save()]
    of a canvas made for [output_path]. *)
Variable DocxDocument : string -> result (list str).
Variable save : string -> list canvas_call -> result unit.

Definition word_to_pdf (docx_path : string) (output_path : option string)
  : result string :=
  output_path ← match output_path with
                | Some o => Return o
                | None => with_suffix docx_path ".pdf"
                end;
  paragraphs ← DocxDocument docx_path;
  save output_path (draw_paragraphs paragraphs);;
  mret output_path.

(** The lines of text drawn, in order. *)
Definition drawn_lines (l : list canvas_call) : list str :=
  flat_map (fun call => match call with
                        | drawString _ _ line => [line]
                        | showPage => []
                        end) l.

(** *** Positions *)

(** [limit] is the highest position the next line of the page may take. *)
Fixpoint spaced (limit : Z) (l : list canvas_call) : Prop :=
  match l with
  | [] => True
  | showPage :: r => spaced (height - inch) r
  | drawString x y _ :: r =>
      x = inch /\ inch <= y <= limit /\ spaced (y - line_height) r
  end.

Fixpoint limit_after (limit : Z) (l : list canvas_call) : Z :=
  match l with
  | [] => limit
  | showPage :: r => limit_after (height - inch) r
  | drawString _ y _ :: r => limit_after (y - line_height) r
  end.

Lemma spaced_app (limit : Z) (a b : list canvas_call) :
  spaced limit (a ++ b) <-> spaced limit a /\ spaced (limit_after limit a) b.
Proof.
  revert limit. induction a as [|[x y line|] a IH]; intros limit; cbn.
  - tauto.
  - rewrite IH. tauto.
  - apply IH.
Qed.

Lemma limit_after_app (limit : Z) (a b : list canvas_call) :
  limit_after limit (a ++ b) = limit_after (limit_after limit a) b.
Proof.
  revert limit. induction a as [|[x y line|] a IH]; intros limit; cbn; auto.
Qed.

Lemma spaced_within (limit : Z) (l : list canvas_call) :
  limit <= height - inch -> spaced limit l ->
  forall x y line, In (drawString x y line) l ->
    x = inch /\ inch <= y <= height - inch.
Proof.
  revert limit. induction l as [|[x' y' line'|] l IH]; intros limit Hlimit Hl x y line Hin.
  - destruct Hin.
  - cbn in Hl. destruct Hl as (Hx & Hy & Hl). destruct Hin as [[= -> -> ->]|Hin].
    + split; [assumption | lia].
    + apply (IH (y' - line_height) ltac:(unfold line_height; lia) Hl x y line Hin).
  - cbn in Hl. destruct Hin as [Hin|Hin]; [discriminate|].
    apply (IH (height - inch) ltac:(lia) Hl x y line Hin).
Qed.

Lemma spaced_next (limit : Z) (l r : list canvas_call) (x y : Z) (line : str) :
  ~ In showPage l -> spaced limit (l ++ drawString x y line :: r) -> y <= limit.
Proof.
  revert limit. induction l as [|[x' y' line'|] l IH]; intros limit Hno Hl.
  - cbn in Hl. lia.
  - cbn in Hl. destruct Hl as (_ & Hy & Hl).
    apply IH in Hl; [unfold line_height in Hl; lia|].
    intros Hin. apply Hno. now right.
  - exfalso. apply Hno. now left.
Qed.

(** What the loops keep: the calls made so far are in place, and
    [y_position] is no higher than the next line may be. *)
Definition well_placed (st : cursor) : Prop :=
  spaced (height - inch) (drawn st)
  /\ y_position st <= limit_after (height - inch) (drawn st).

Lemma draw_placed (line : str) (st : cursor) :
  well_placed st -> inch <= y_position st -> well_placed (draw_line line st).
Proof.
  intros [Hs Hy] Hlow. unfold well_placed, draw_line. cbn [drawn y_position].
  rewrite spaced_app, limit_after_app. cbn. repeat split; try assumption; lia.
Qed.

Lemma new_page_placed (st : cursor) :
  inch <= height - inch -> well_placed st ->
  well_placed (new_page_if_low st) /\ inch <= y_position (new_page_if_low st).
Proof.
  intros Hpage [Hs Hy]. unfold new_page_if_low.
  destruct (Z.ltb_spec (y_position st) inch) as [Hlow|Hlow].
  - unfold well_placed. cbn [drawn y_position].
    rewrite spaced_app, limit_after_app. cbn. repeat split; try assumption; lia.
  - split; [split|]; assumption.
Qed.

Lemma wrap_placed (words : list str) (current_line : str) (st : cursor) :
  inch <= height - inch -> well_placed st -> inch <= y_position st ->
  well_placed (snd (wrap words current_line st))
  /\ inch <= y_position (snd (wrap words current_line st)).
Proof.
  intros Hpage. revert current_line st.
  induction words as [|word rest IH]; intros current_line st Hst Hlow; cbn [wrap].
  - split; assumption.
  - cbv zeta. destruct (_ <? _)%nat.
    + destruct (new_page_placed (draw_line current_line st) Hpage) as [H1 H2].
      { apply draw_placed; assumption. }
      apply IH; assumption.
    + apply IH; assumption.
Qed.

Lemma paragraph_placed (st : cursor) (text : str) :
  inch <= height - inch -> well_placed st -> well_placed (paragraph st text).
Proof.
  intros Hpage Hst. unfold paragraph. destruct (strip text) as [|ch rest].
  - destruct Hst as [Hs Hy]. split; cbn [drawn y_position]; [assumption|].
    unfold line_height. lia.
  - destruct (new_page_placed st Hpage Hst) as [H1 H2].
    pose proof (wrap_placed (split text) [] _ Hpage H1 H2) as [H3 H4].
    destruct (wrap (split text) [] (new_page_if_low st)) as [current_line st'].
    cbn [snd] in H3, H4. destruct current_line; [assumption|].
    apply draw_placed; assumption.
Qed.

Lemma paragraphs_placed (paragraphs : list str) (st : cursor) :
  inch <= height - inch -> well_placed st -> well_placed (fold_left paragraph paragraphs st).
Proof.
  intros Hpage. revert st. induction paragraphs as [|text rest IH]; intros st Hst.
  - exact Hst.
  - cbn [fold_left]. apply IH, paragraph_placed; assumption.
Qed.

(** *** Words *)

Definition wordlike (w : str) : Prop :=
  w <> [] /\ Forall (fun ch => isspace ch = false) w.

Lemma split_from_word (word w : str) :
  Forall (fun ch => isspace ch = false) w -> word ++ w <> [] ->
  split_from word w = [word ++ w].
Proof.
  revert word. induction w as [|ch w IH]; intros word Hw Hne.
  - rewrite app_nil_r in *. cbn. destruct word; [contradiction | reflexivity].
  - inversion Hw as [|? ? Hch Hw']; subst. cbn. rewrite Hch.
    rewrite IH; [now rewrite <- app_assoc | assumption |].
    rewrite <- app_assoc. exact Hne.
Qed.

Lemma split_word (w : str) : wordlike w -> split w = [w].
Proof. intros [Hne Hw]. unfold split. now rewrite split_from_word. Qed.

Lemma split_from_app_space (word a b : str) :
  isspace space = true ->
  split_from word (a ++ space :: b) = split_from word a ++ split_from [] b.
Proof.
  intros Hspace. revert word. induction a as [|ch a IH]; intros word; cbn.
  - rewrite Hspace. destruct word; reflexivity.
  - destruct (isspace ch).
    + destruct word; [apply IH | cbn; f_equal; apply IH].
    + apply IH.
Qed.

Lemma split_from_wordlike (word s : str) :
  Forall (fun ch => isspace ch = false) word ->
  Forall wordlike (split_from word s).
Proof.
  revert word. induction s as [|ch s IH]; intros word Hword; cbn.
  - destruct word; [constructor|].
    constructor; [split; [discriminate | assumption] | constructor].
  - destruct (isspace ch) eqn:Hch.
    + destruct word.
      * apply IH. constructor.
      * constructor; [split; [discriminate | assumption] | apply IH; constructor].
    + apply IH. apply Forall_app. split; [assumption|].
      constructor; [assumption | constructor].
Qed.

Lemma split_wordlike (s : str) : Forall wordlike (split s).
Proof. apply split_from_wordlike. constructor. Qed.

Lemma lstrip_head (s : str) (ch : char) (r : str) :
  lstrip s = ch :: r -> isspace ch = false.
Proof.
  induction s as [|c s IH]; cbn; [discriminate|].
  destruct (isspace c) eqn:Hc; [exact IH|]. intros [= <- _]. exact Hc.
Qed.

Lemma lstrip_nil (s : str) : lstrip s = [] -> split_from [] s = [].
Proof.
  induction s as [|c s IH]; cbn; [reflexivity|].
  destruct (isspace c); [exact IH | discriminate].
Qed.

Lemma strip_nil (s : str) : strip s = [] -> split s = [].
Proof.
  unfold strip, split. intros H. apply lstrip_nil.
  destruct (lstrip s) as [|ch r] eqn:Hs; [reflexivity|].
  apply (f_equal (@rev char)) in H. rewrite rev_involutive in H. cbn [rev] in H.
  pose proof (lstrip_head s ch r Hs) as Hch.
  assert (Hall : forall l, lstrip l = [] -> Forall (fun c => isspace c = true) l).
  { induction l as [|c l IHl]; cbn; [constructor|].
    destruct (isspace c) eqn:Hc; [|discriminate].
    intros Hl. constructor; [assumption | apply IHl, Hl]. }
  apply Hall in H. cbn [rev] in H. apply Forall_app in H as [_ H].
  inversion H as [|? ? Hspace _]; subst. congruence.
Qed.

Definition words_drawn (st : cursor) : list str :=
  concat (map split (drawn_lines (drawn st))).

Lemma drawn_lines_app (a b : list canvas_call) :
  drawn_lines (a ++ b) = drawn_lines a ++ drawn_lines b.
Proof. unfold drawn_lines. apply flat_map_app. Qed.

Lemma words_drawn_draw (line : str) (st : cursor) :
  words_drawn (draw_line line st) = words_drawn st ++ split line.
Proof.
  unfold words_drawn, draw_line. cbn [drawn].
  rewrite drawn_lines_app, map_app, concat_app. cbn. now rewrite app_nil_r.
Qed.

Lemma words_drawn_new_page (st : cursor) :
  words_drawn (new_page_if_low st) = words_drawn st.
Proof.
  unfold words_drawn, new_page_if_low. destruct (_ <? _); [|reflexivity].
  cbn [drawn]. rewrite drawn_lines_app. cbn. now rewrite app_nil_r.
Qed.

Lemma drawn_lines_new_page (st : cursor) :
  drawn_lines (drawn (new_page_if_low st)) = drawn_lines (drawn st).
Proof.
  unfold new_page_if_low. destruct (_ <? _); [|reflexivity].
  cbn [drawn]. rewrite drawn_lines_app. cbn. now rewrite app_nil_r.
Qed.

(** The words drawn and the words of the line being filled are the words
    read so far. *)
Lemma wrap_words (words : list str) (current_line : str) (st : cursor) :
  isspace space = true -> Forall wordlike words ->
  words_drawn (snd (wrap words current_line st))
    ++ split (fst (wrap words current_line st))
  = words_drawn st ++ split current_line ++ words.
Proof.
  intros Hspace Hwords. revert current_line st.
  induction Hwords as [|word rest Hword Hrest IH]; intros current_line st; cbn [wrap].
  - cbn [fst snd]. now rewrite app_nil_r.
  - cbv zeta. destruct (_ <? _)%nat.
    + rewrite IH, words_drawn_new_page, words_drawn_draw, (split_word word Hword).
      now rewrite <- !app_assoc.
    + rewrite IH. f_equal. destruct current_line as [|ch line].
      * now rewrite (split_word word Hword).
      * unfold split. cbn [app]. rewrite app_comm_cons.
        rewrite (split_from_app_space [] (ch :: line) word Hspace).
        fold (split word). rewrite (split_word word Hword).
        now rewrite <- app_assoc.
Qed.

Lemma paragraph_words (st : cursor) (text : str) :
  isspace space = true ->
  words_drawn (paragraph st text) = words_drawn st ++ split text.
Proof.
  intros Hspace. unfold paragraph. destruct (strip text) as [|ch r] eqn:Hstrip.
  - rewrite (strip_nil text Hstrip), app_nil_r. reflexivity.
  - pose proof (wrap_words (split text) [] (new_page_if_low st) Hspace
                  (split_wordlike text)) as H.
    destruct (wrap (split text) [] (new_page_if_low st)) as [current_line st'].
    cbn [fst snd] in H. rewrite words_drawn_new_page in H. cbn [app] in H.
    change (split []) with (@nil str) in H. cbn [app] in H.
    destruct current_line as [|c l].
    + change (split []) with (@nil str) in H. now rewrite app_nil_r in H.
    + now rewrite words_drawn_draw.
Qed.

Lemma paragraphs_words (paragraphs : list str) (st : cursor) :
  isspace space = true ->
  words_drawn (fold_left paragraph paragraphs st)
  = words_drawn st ++ concat (map split paragraphs).
Proof.
  intros Hspace. revert st. induction paragraphs as [|text rest IH]; intros st.
  - cbn. now rewrite app_nil_r.
  - cbn [fold_left map concat]. rewrite IH, paragraph_words by assumption.
    now rewrite <- app_assoc.
Qed.

(** A line is short, or is one of the words. *)
Definition fits (words : list str) (line : str) : Prop :=
  (length line <= 80)%nat \/ In line words.

Lemma fits_more (words more : list str) (line : str) :
  fits words line -> fits (words ++ more) line.
Proof. intros [H|H]; [now left | right; apply in_or_app; now left]. Qed.

Lemma wrap_fits (all words : list str) (current_line : str) (st : cursor) :
  (forall w, In w words -> In w all) ->
  fits all current_line -> Forall (fits all) (drawn_lines (drawn st)) ->
  fits all (fst (wrap words current_line st))
  /\ Forall (fits all) (drawn_lines (drawn (snd (wrap words current_line st)))).
Proof.
  revert current_line st.
  induction words as [|word rest IH]; intros current_line st Hsub Hline Hst; cbn [wrap].
  - split; assumption.
  - cbv zeta.
    destruct (_ <? _)%nat eqn:Hshort; [|apply Nat.ltb_ge in Hshort].
    + apply IH.
      * intros w Hw. apply Hsub. now right.
      * right. apply Hsub. now left.
      * rewrite drawn_lines_new_page. unfold draw_line. cbn [drawn].
        rewrite drawn_lines_app. apply Forall_app. split; [assumption|].
        cbn. constructor; [assumption | constructor].
    + apply IH.
      * intros w Hw. apply Hsub. now right.
      * left. exact Hshort.
      * assumption.
Qed.

Lemma paragraph_fits (all : list str) (st : cursor) (text : str) :
  (forall w, In w (split text) -> In w all) ->
  Forall (fits all) (drawn_lines (drawn st)) ->
  Forall (fits all) (drawn_lines (drawn (paragraph st text))).
Proof.
  intros Hsub Hst. unfold paragraph. destruct (strip text) as [|ch r]; [exact Hst|].
  destruct (wrap_fits all (split text) [] (new_page_if_low st) Hsub) as [H1 H2].
  { left. cbn. lia. }
  { now rewrite drawn_lines_new_page. }
  destruct (wrap (split text) [] (new_page_if_low st)) as [current_line st'].
  cbn [fst snd] in H1, H2. destruct current_line as [|c l]; [assumption|].
  unfold draw_line. cbn [drawn]. rewrite drawn_lines_app. apply Forall_app.
  split; [assumption|]. cbn. constructor; [assumption | constructor].
Qed.

Lemma paragraphs_fit (all : list str) (paragraphs : list str) (st : cursor) :
  (forall w, In w (concat (map split paragraphs)) -> In w all) ->
  Forall (fits all) (drawn_lines (drawn st)) ->
  Forall (fits all) (drawn_lines (drawn (fold_left paragraph paragraphs st))).
Proof.
  revert st. induction paragraphs as [|text rest IH]; intros st Hsub Hst.
  - exact Hst.
  - cbn [fold_left]. cbn [map concat] in Hsub. apply IH.
    + intros w Hw. apply Hsub, in_or_app. now right.
    + apply paragraph_fits; [|assumption].
      intros w Hw. apply Hsub, in_or_app. now left.
Qed.

(** X22.  [word_to_pdf] keeps the text on the page: every line is drawn
    at the left margin, one inch from the left edge, and between one inch
    above the bottom edge and one inch below the top edge; and of two
    lines drawn on the same page the later one is at least a line height
    (14 points) below the earlier one. *)
Theorem word_to_pdf_lines_on_the_page (paragraphs : list str) :
  inch <= height - inch ->
  (forall x y line, In (drawString x y line) (draw_paragraphs paragraphs) ->
     x = inch /\ inch <= y <= height - inch)
  /\ (forall before x1 y1 line1 between x2 y2 line2 after,
        draw_paragraphs paragraphs
        = before ++ drawString x1 y1 line1 :: between
                 ++ drawString x2 y2 line2 :: after ->
        ~ In showPage between ->
        y2 + line_height <= y1).
Proof.
  intros Hpage.
  assert (Hplaced : well_placed (fold_left paragraph paragraphs
                              {| y_position := height - inch; drawn := [] |})).
  { apply paragraphs_placed; [assumption|]. split; cbn; [exact I | lia]. }
  destruct Hplaced as [Hspaced _]. fold (draw_paragraphs paragraphs) in Hspaced.
  split.
  - apply (spaced_within (height - inch)); [lia | assumption].
  - intros before x1 y1 line1 between x2 y2 line2 after Heq Hno.
    rewrite Heq in Hspaced. apply spaced_app in Hspaced as [_ Hrest].
    cbn [spaced] in Hrest. destruct Hrest as (_ & _ & Hrest).
    apply spaced_next in Hrest; [lia | assumption].
Qed.

(** X23.  [word_to_pdf] loses no word and adds none: the words of the
    lines drawn, read in order, are the words of the paragraphs in order
    (a word being a maximal run without white space).  Every line drawn
    is at most 80 characters long, unless it is a single word of the
    document that is itself longer. *)
Theorem word_to_pdf_keeps_the_words (paragraphs : list str) :
  isspace space = true ->
  concat (map split (drawn_lines (draw_paragraphs paragraphs)))
  = concat (map split paragraphs)
  /\ (forall line, In line (drawn_lines (draw_paragraphs paragraphs)) ->
        (length line <= 80)%nat \/ In line (concat (map split paragraphs))).
Proof.
  intros Hspace. split.
  - pose proof (paragraphs_words paragraphs
                  {| y_position := height - inch; drawn := [] |} Hspace) as H.
    exact H.
  - intros line Hline.
    pose proof (paragraphs_fit (concat (map split paragraphs)) paragraphs
                  {| y_position := height - inch; drawn := [] |}
                  (fun w Hw => Hw) ltac:(constructor)) as H.
    rewrite Forall_forall in H. apply H, list_elem_of_In. exact Hline.
Qed.

End Text.

(** *** A sample document *)

(** White space among the ASCII characters: the blank, the controls 9 to
    13 and 28 to 31. *)
Definition ascii_isspace (a : ascii) : bool :=
  let n := nat_of_ascii a in
  (n =? 32)%nat || ((9 <=? n)%nat && (n <=? 13)%nat)
  || ((28 <=? n)%nat && (n <=? 31)%nat).

Definition sample_paragraphs : list (list ascii) :=
  map list_ascii_of_string
    ["The quick brown fox jumps over the lazy dog and keeps running until the end of the line is in sight";
     "   ";
     "Second   paragraph"].

Lemma word_to_pdf_lines_on_the_page_witness :
  (forall x y line,
     In (drawString ascii x y line)
        (draw_paragraphs ascii ascii_isspace " "%char 792 72 sample_paragraphs) ->
     x = 72 /\ 72 <= y <= 792 - 72)
  /\ (forall before x1 y1 line1 between x2 y2 line2 after,
        draw_paragraphs ascii ascii_isspace " "%char 792 72 sample_paragraphs
        = before ++ drawString ascii x1 y1 line1 :: between
                 ++ drawString ascii x2 y2 line2 :: after ->
        ~ In (showPage ascii) between ->
        y2 + line_height <= y1).
Proof.
  apply (word_to_pdf_lines_on_the_page ascii ascii_isspace " "%char 792 72
           sample_paragraphs). lia.
Defined.

Lemma word_to_pdf_keeps_the_words_witness :
  concat (map (split ascii ascii_isspace)
            (drawn_lines ascii
               (draw_paragraphs ascii ascii_isspace " "%char 792 72 sample_paragraphs)))
  = concat (map (split ascii ascii_isspace) sample_paragraphs)
  /\ (forall line,
        In line (drawn_lines ascii
                   (draw_paragraphs ascii ascii_isspace " "%char 792 72
                      sample_paragraphs)) ->
        (length line <= 80)%nat
        \/ In line (concat (map (split ascii ascii_isspace) sample_paragraphs))).
Proof.
  apply (word_to_pdf_keeps_the_words ascii ascii_isspace " "%char 792 72
           sample_paragraphs). reflexivity.
Defined.

Example sample_document_drawn :
  map (fun call => match call with
                   | drawString _ x y line => Some (x, y, string_of_list_ascii line)
                   | showPage _ => None
                   end)
    (draw_paragraphs ascii ascii_isspace " "%char 792 72 sample_paragraphs)
  = [Some (72, 720,
       "The quick brown fox jumps over the lazy dog and keeps running until the end of");
     Some (72, 706, "the line is in sight");
     Some (72, 678, "Second paragraph")].
Proof. vm_compute. reflexivity. Qed.

(** A first word of more than 80 characters makes the loop draw_line the empty
    line it has before the word. *)
Example long_first_word :
  map (fun call => match call with
                   | drawString _ x y line => Some (y, length line)
                   | showPage _ => None
                   end)
    (draw_paragraphs ascii ascii_isspace " "%char 792 72
       [repeat "x"%char 81 ++ list_ascii_of_string " end"])
  = [Some (720, 0%nat); Some (706, 81%nat); Some (692, 3%nat)].
Proof. vm_compute. reflexivity. Qed.

End Typeset.

(** ** app/services/ocr/extract.py: [extract_tables_with_ocr] *)
Module OcrTable.
Import Split.
#[local] Open Scope Z_scope.
#[local] Open Scope list_scope.

(** [sorted(l, key=key)]: Python's sort is stable, which fixes its result;
    the elements are inserted one after the other, each behind the
    elements that are not larger. *)
Fixpoint insert_by {A : Type} (key : A -> Z) (x : A) (l : list A) : list A :=
  match l with
  | [] => [x]
  | y :: r => if key x <? key y then x :: l else y :: insert_by key x r
  end.

Definition py_sorted {A : Type} (key : A -> Z) (l : list A) : list A :=
  fold_left (fun acc x => insert_by key x acc) l [].

(** Every element is related to all the later ones. *)
Fixpoint ordered {A : Type} (R : A -> A -> Prop) (l : list A) : Prop :=
  match l with
  | [] => True
  | x :: r => Forall (R x) r /\ ordered R r
  end.

(** *** Sorting *)

Lemma insert_by_perm {A : Type} (key : A -> Z) (x : A) (l : list A) :
  insert_by key x l ≡ₚ x :: l.
Proof.
  induction l as [|y r IH]; cbn [insert_by]; [reflexivity|].
  destruct (key x <? key y); [reflexivity|].
  rewrite IH. apply perm_swap.
Qed.

Lemma fold_insert_perm {A : Type} (key : A -> Z) (l acc : list A) :
  fold_left (fun acc x => insert_by key x acc) l acc ≡ₚ acc ++ l.
Proof.
  revert acc. induction l as [|x l IH]; intros acc; cbn [fold_left].
  - now rewrite app_nil_r.
  - rewrite IH, insert_by_perm. apply Permutation_middle.
Qed.

Lemma py_sorted_perm {A : Type} (key : A -> Z) (l : list A) : py_sorted key l ≡ₚ l.
Proof. unfold py_sorted. now rewrite fold_insert_perm. Qed.

Lemma insert_by_ordered {A : Type} (key : A -> Z) (x : A) (l : list A) :
  ordered (fun a b => key a <= key b) l ->
  ordered (fun a b => key a <= key b) (insert_by key x l).
Proof.
  induction l as [|y r IH]; cbn [insert_by ordered].
  - intros _. split; [constructor | exact I].
  - intros [Hy Hr]. destruct (Z.ltb_spec (key x) (key y)) as [Hlt|Hge]; cbn [ordered].
    + split; [|split; assumption].
      constructor; [lia|]. eapply Forall_impl; [exact Hy|]. cbn. intros; lia.
    + split; [|apply IH, Hr].
      rewrite insert_by_perm. constructor; [exact Hge | exact Hy].
Qed.

Lemma py_sorted_ordered {A : Type} (key : A -> Z) (l : list A) :
  ordered (fun a b => key a <= key b) (py_sorted key l).
Proof.
  unfold py_sorted.
  assert (H : forall acc, ordered (fun a b => key a <= key b) acc ->
            ordered (fun a b => key a <= key b)
              (fold_left (fun acc x => insert_by key x acc) l acc)).
  { induction l as [|x l IH]; intros acc Hacc; [exact Hacc|].
    cbn [fold_left]. apply IH, insert_by_ordered, Hacc. }
  apply H. exact I.
Qed.

Lemma ordered_strict {A : Type} (key : A -> Z) (l : list A) :
  ordered (fun a b => key a <= key b) l -> NoDup (map key l) ->
  ordered Z.lt (map key l).
Proof.
  induction l as [|x r IH]; cbn [ordered map]; [intros; exact I|].
  intros [Hx Hr] Hnd. apply NoDup_cons in Hnd as [Hnot Hnd].
  split; [|apply IH; assumption].
  apply Forall_forall. intros k Hk.
  apply list_elem_of_fmap in Hk as (y & -> & Hy).
  rewrite Forall_forall in Hx. specialize (Hx y Hy).
  assert (key x <> key y); [|lia].
  intros Heq. apply Hnot. rewrite Heq. apply list_elem_of_fmap. eauto.
Qed.

Section Words.

(** Text is a sequence of code points, as in [Typeset]. *)
Variable char : Type.
Variable isspace : char -> bool.

(** The dictionary of parallel lists that
    [pytesseract.image_to_data(..., output_type=Output.DICT)] returns, with
    the keys the function reads. *)
Record ocr_data : Type := {
  data_text : list (list char);
  data_line_num : list Z;
  data_left : list Z;
  data_top : list Z;
  data_width : list Z
}.

(** An element of [lines[line_num]]. *)
Record word : Type := {
  word_text : list char;
  word_left : Z;
  word_top : Z;
  word_width : Z
}.

(** [if line_num not in lines: lines[line_num] = []] and
    [lines[line_num].append(w)], on the dictionary [lines] as the list of
    its items. *)
Fixpoint append_word (line_num : Z) (w : word) (lines : list (Z * list word))
  : list (Z * list word) :=
  match lines with
  | [] => [(line_num, [w])]
  | (k, ws) :: rest =>
      if k =? line_num then (k, ws ++ [w]) :: rest
      else (k, ws) :: append_word line_num w rest
  end.

(** The body of [for i in range(len(data['text']))]. *)
Definition read_word (data : ocr_data) (lines : list (Z * list word)) (i : Z)
  : result (list (Z * list word)) :=
  text ← py_getitem (data_text data) i;
  match Typeset.strip char isspace text with
  | [] => Return lines
  | text =>
      line_num ← py_getitem (data_line_num data) i;
      left ← py_getitem (data_left data) i;
      top ← py_getitem (data_top data) i;
      width ← py_getitem (data_width data) i;
      Return (append_word line_num
                {| word_text := text; word_left := left;
                   word_top := top; word_width := width |} lines)
  end.

Fixpoint read_words (data : ocr_data) (indices : list Z) (lines : list (Z * list word))
  : result (list (Z * list word)) :=
  match indices with
  | [] => Return lines
  | i :: rest => lines ← read_word data lines i; read_words data rest lines
  end.

(** [for line_num in sorted(lines.keys())]: the items of [lines] in the
    order of their keys, each giving the row of its words' texts in the
    order of [left]. *)
Definition table_of (lines : list (Z * list word)) : list (list (list char)) :=
  map (fun item => map word_text (py_sorted word_left (snd item)))
    (py_sorted fst lines).

(** [Image.open(image_path)] and [pytesseract.image_to_data] on it. *)
Variable image_to_data : string -> string -> result ocr_data.

Definition extract_tables_with_ocr (image_path language : string)
  : result (list (list (list (list char)))) :=
  data ← image_to_data image_path language;
  lines ← read_words data (py_range 0 (Z.of_nat (length (data_text data)))) [];
  let table := table_of lines in
  Return (match table with [] => [] | _ => [table] end).

(** *** The recognised words *)

(** The entry of index [i], if its text is not blank: its line number and
    the word kept for it. *)
Definition recognised_at (data : ocr_data) (i : nat) : list (Z * word) :=
  match Typeset.strip char isspace (nth i (data_text data) []) with
  | [] => []
  | text =>
      [(nth i (data_line_num data) 0,
        {| word_text := text; word_left := nth i (data_left data) 0;
           word_top := nth i (data_top data) 0;
           word_width := nth i (data_width data) 0 |})]
  end.

(** The entries with text, in the order of the lists. *)
Definition recognised (data : ocr_data) : list (Z * word) :=
  flat_map (recognised_at data) (seq 0 (length (data_text data))).

(** The words of the rows, each with the key of its row. *)
Definition words_of (rows : list (Z * list word)) : list (Z * word) :=
  flat_map (fun row => map (pair (fst row)) (snd row)) rows.

Definition append_all (entries : list (Z * word)) (lines : list (Z * list word))
  : list (Z * list word) :=
  fold_left (fun lines e => append_word (fst e) (snd e) lines) entries lines.

Lemma getitem_nth {A : Type} (l : list A) (i : nat) (d : A) :
  (i < length l)%nat -> py_getitem l (Z.of_nat i) = Return (nth i l d).
Proof.
  intros Hi. apply py_getitem_in_range; [lia|].
  rewrite Nat2Z.id. now apply nth_error_nth'.
Qed.

Lemma read_word_run (data : ocr_data) (lines : list (Z * list word)) (i : nat) :
  (i < length (data_text data))%nat ->
  (i < length (data_line_num data))%nat ->
  (i < length (data_left data))%nat ->
  (i < length (data_top data))%nat ->
  (i < length (data_width data))%nat ->
  read_word data lines (Z.of_nat i) = Return (append_all (recognised_at data i) lines).
Proof.
  intros H1 H2 H3 H4 H5. unfold read_word, recognised_at.
  rewrite (getitem_nth _ i [] H1). cbn [mbind result_bind].
  destruct (Typeset.strip char isspace (nth i (data_text data) [])) as [|ch r];
    [reflexivity|].
  rewrite (getitem_nth _ i 0 H2), (getitem_nth _ i 0 H3),
    (getitem_nth _ i 0 H4), (getitem_nth _ i 0 H5).
  reflexivity.
Qed.

Lemma append_all_app (a b : list (Z * word)) (lines : list (Z * list word)) :
  append_all (a ++ b) lines = append_all b (append_all a lines).
Proof. apply fold_left_app. Qed.

Lemma read_words_run (data : ocr_data) (indices : list nat)
  (lines : list (Z * list word)) :
  Forall (fun i => (i < length (data_text data))%nat
                   /\ (i < length (data_line_num data))%nat
                   /\ (i < length (data_left data))%nat
                   /\ (i < length (data_top data))%nat
                   /\ (i < length (data_width data))%nat) indices ->
  read_words data (map (fun k => 0 + Z.of_nat k) indices) lines
  = Return (append_all (flat_map (recognised_at data) indices) lines).
Proof.
  intros Hall. revert lines.
  induction Hall as [|i rest (H1 & H2 & H3 & H4 & H5) Hrest IH]; intros lines.
  - reflexivity.
  - cbn [map read_words flat_map]. rewrite Z.add_0_l.
    rewrite (read_word_run data lines i H1 H2 H3 H4 H5). cbn [mbind result_bind].
    rewrite IH, append_all_app. reflexivity.
Qed.

(** *** Grouping *)

Lemma words_of_append (line_num : Z) (w : word) (lines : list (Z * list word)) :
  words_of (append_word line_num w lines) ≡ₚ words_of lines ++ [(line_num, w)].
Proof.
  induction lines as [|[k ws] rest IH]; cbn [append_word].
  - reflexivity.
  - destruct (Z.eqb_spec k line_num) as [->|Hne].
    + unfold words_of. cbn [flat_map fst snd]. rewrite map_app. cbn [map].
      rewrite <- !app_assoc. apply Permutation_app_head.
      apply Permutation_app_comm.
    + unfold words_of in *. cbn [flat_map fst snd].
      rewrite <- app_assoc. apply Permutation_app_head. exact IH.
Qed.

Lemma words_of_append_all (entries : list (Z * word)) (lines : list (Z * list word)) :
  words_of (append_all entries lines) ≡ₚ words_of lines ++ entries.
Proof.
  revert lines. induction entries as [|[k w] rest IH]; intros lines.
  - cbn. now rewrite app_nil_r.
  - cbn [append_all fold_left fst snd]. fold (append_all rest (append_word k w lines)).
    rewrite IH, words_of_append, <- app_assoc. reflexivity.
Qed.

Lemma append_word_keys (line_num : Z) (w : word) (lines : list (Z * list word)) :
  NoDup (map fst lines) -> NoDup (map fst (append_word line_num w lines)).
Proof.
  induction lines as [|[k ws] rest IH]; cbn [append_word map fst].
  - intros _. apply NoDup_singleton.
  - intros Hnd. apply NoDup_cons in Hnd as [Hk Hrest].
    destruct (Z.eqb_spec k line_num) as [->|Hne]; cbn [map fst].
    + apply NoDup_cons. split; assumption.
    + apply NoDup_cons. split; [|apply IH, Hrest].
      intros Hin. apply Hk. clear IH Hrest Hk.
      induction rest as [|[k' ws'] rest IH]; cbn [append_word map fst] in *.
      * apply elem_of_cons in Hin as [->|Hin]; [contradiction|].
        now apply not_elem_of_nil in Hin.
      * destruct (Z.eqb_spec k' line_num) as [->|Hne']; cbn [map fst] in Hin;
          [exact Hin|].
        apply elem_of_cons in Hin as [->|Hin]; [left | right; apply IH, Hin].
Qed.

Lemma append_word_rows (line_num : Z) (w : word) (lines : list (Z * list word)) :
  Forall (fun row => snd row <> []) lines ->
  Forall (fun row => snd row <> []) (append_word line_num w lines).
Proof.
  induction lines as [|[k ws] rest IH]; cbn [append_word]; intros Hall.
  - constructor; [discriminate | constructor].
  - apply Forall_cons in Hall as [Hws Hrest]. destruct (k =? line_num).
    + constructor; [|assumption]. cbn. now destruct ws.
    + constructor; [assumption | apply IH, Hrest].
Qed.

Lemma append_all_keys (entries : list (Z * word)) (lines : list (Z * list word)) :
  NoDup (map fst lines) -> NoDup (map fst (append_all entries lines)).
Proof.
  revert lines. induction entries as [|[k w] rest IH]; intros lines Hnd;
    [exact Hnd|].
  apply IH, append_word_keys, Hnd.
Qed.

Lemma append_all_rows (entries : list (Z * word)) (lines : list (Z * list word)) :
  Forall (fun row => snd row <> []) lines ->
  Forall (fun row => snd row <> []) (append_all entries lines).
Proof.
  revert lines. induction entries as [|[k w] rest IH]; intros lines Hall;
    [exact Hall|].
  apply IH, append_word_rows, Hall.
Qed.

(** *** The table *)

Lemma words_of_sorted_rows (lines : list (Z * list word)) :
  words_of (map (fun item => (fst item, py_sorted word_left (snd item))) lines)
  ≡ₚ words_of lines.
Proof.
  induction lines as [|[k ws] rest IH]; [reflexivity|].
  unfold words_of in *. cbn [map flat_map fst snd].
  apply Permutation_app; [|exact IH].
  apply Permutation_map, py_sorted_perm.
Qed.

(** X24.  [extract_tables_with_ocr] puts every recognised word, that is
    every entry of the OCR data whose text is not blank, in exactly one
    row: the row of its line number.  The rows come in the order of their
    line numbers, each number once, no row is empty, and within a row the
    words come in the order of their left edges.  No table is returned
    when there is no word, and one table otherwise.  The lists of the OCR
    data are taken to be as long as its list of texts. *)
Theorem extract_tables_with_ocr_rows (image_path language : string)
  (data : ocr_data) :
  image_to_data image_path language = Return data ->
  length (data_line_num data) = length (data_text data) ->
  length (data_left data) = length (data_text data) ->
  length (data_top data) = length (data_text data) ->
  length (data_width data) = length (data_text data) ->
  exists rows : list (Z * list word),
    extract_tables_with_ocr image_path language
    = Return (match rows with
              | [] => []
              | _ => [map (fun row => map word_text (snd row)) rows]
              end)
    /\ words_of rows ≡ₚ recognised data
    /\ ordered Z.lt (map fst rows)
    /\ Forall (fun row =>
                 snd row <> []
                 /\ ordered (fun a b => word_left a <= word_left b) (snd row)) rows.
Proof.
  intros Hdata H2 H3 H4 H5.
  set (lines := append_all (recognised data) []).
  exists (map (fun item => (fst item, py_sorted word_left (snd item)))
            (py_sorted fst lines)).
  assert (Hkeys : NoDup (map fst lines)).
  { apply append_all_keys. cbn. apply NoDup_nil_2. }
  assert (Hrows : Forall (fun row => snd row <> []) lines).
  { apply append_all_rows. constructor. }
  split; [|split; [|split]].
  - unfold extract_tables_with_ocr. rewrite Hdata. cbn [mbind result_bind].
    unfold py_range. rewrite Z.sub_0_r, Nat2Z.id.
    rewrite read_words_run.
    + cbn [mbind result_bind]. fold (recognised data). fold lines.
      unfold table_of. destruct (py_sorted fst lines) as [|item rest];
        [reflexivity|].
      cbn [map snd]. rewrite map_map. reflexivity.
    + apply Forall_forall. intros i Hi. apply elem_of_seq in Hi. lia.
  - rewrite words_of_sorted_rows. unfold words_of.
    rewrite (Permutation_flat_map _ (py_sorted_perm fst lines)).
    apply (words_of_append_all (recognised data) []).
  - rewrite map_map. cbn [fst].
    apply (ordered_strict fst); [apply py_sorted_ordered|].
    now rewrite (py_sorted_perm fst lines).
  - apply Forall_map. rewrite (py_sorted_perm fst lines).
    eapply Forall_impl; [exact Hrows|]. cbn [fst snd]. intros [k ws] Hws.
    cbn [snd] in *. split; [|apply py_sorted_ordered].
    intros Hnil. apply Hws. apply Permutation_nil.
    rewrite <- Hnil. apply py_sorted_perm.
Qed.

End Words.

(** *** A sample page *)

Definition sample_data : ocr_data ascii :=
  {| data_text := map list_ascii_of_string
                    [""; "Total"; "Name"; " "; "42"; "Qty"; "Price "];
     data_line_num := [0; 2; 1; 1; 2; 1; 1];
     data_left := [0; 40; 40; 0; 300; 180; 300];
     data_top := [0; 90; 50; 50; 90; 50; 50];
     data_width := [600; 70; 60; 0; 30; 50; 70] |}.

Lemma extract_tables_with_ocr_rows_witness :
  exists rows : list (Z * list (word ascii)),
    extract_tables_with_ocr ascii Typeset.ascii_isspace
      (fun _ _ => Return sample_data) "scan.png" "eng"
    = Return (match rows with
              | [] => []
              | _ => [map (fun row => map (word_text ascii) (snd row)) rows]
              end)
    /\ words_of ascii rows ≡ₚ recognised ascii Typeset.ascii_isspace sample_data
    /\ ordered Z.lt (map fst rows)
    /\ Forall (fun row =>
                 snd row <> []
                 /\ ordered (fun a b => word_left ascii a <= word_left ascii b)
                      (snd row)) rows.
Proof.
  apply (extract_tables_with_ocr_rows ascii Typeset.ascii_isspace
           (fun _ _ => Return sample_data) "scan.png" "eng" sample_data);
    reflexivity.
Defined.

Example sample_table :
  match extract_tables_with_ocr ascii Typeset.ascii_isspace
          (fun _ _ => Return sample_data) "scan.png" "eng" with
  | Return tables => Some (map (map (map string_of_list_ascii)) tables)
  | Raise _ => None
  end
  = Some [[["Name"; "Qty"; "Price"]; ["Total"; "42"]]].
Proof. vm_compute. reflexivity. Qed.

(** A list of the OCR data that is shorter than the list of texts makes
    the function raise IndexError. *)
Example short_list_raises :
  extract_tables_with_ocr ascii Typeset.ascii_isspace
    (fun _ _ => Return {| data_text := [list_ascii_of_string "a"];
                          data_line_num := []; data_left := [1];
                          data_top := [1]; data_width := [1] |}) "scan.png" "eng"
  = Raise (IndexError "sequence index out of range").
Proof. vm_compute. reflexivity. Qed.

End OcrTable.
